(** * postsais: batch queue, tiered WordPress client, key rotation

    A shallow embedding of the stateful core of the application:

    - [JsString]: the string primitives of the host language that the
      code relies on ([trim], [includes], [replace] with the few regular
      expressions that occur, [encodeURIComponent], number printing);
    - [Sheets]: [updateSheetCell] of [services/sheets.ts];
    - [Wordpress]: [cleanWpUrl], [fetchWpWithFallback], [uploadWpMedia]
      and [createWpPost] of [services/wordpress.ts];
    - [Gemini]: [getAvailableApiKeys] and [generateGuestPostContent] of
      [services/gemini.ts];
    - [Settings]: the key list of [components/Settings.tsx];
    - [Drive]: [uploadToDrive] of [services/drive.ts];
    - [Bulk]: [handlePublish] of [components/BulkPostManager.tsx];
    - [App]: the batch worker ([processNextItem]) and [handleSheetImport]
      of [App.tsx].

    Strings are sequences of UTF-8 bytes ([string] of the standard
    library).  Asynchronous code is written in a state-and-exception
    monad over a [world] that answers every network call and records it. *)

From Stdlib Require Import List String Ascii Bool Arith Lia.
From Stdlib Require Import DecimalString.
From Stdlib Require DecimalNat.
Import ListNotations.

Local Open Scope string_scope.
Local Open Scope bool_scope.

(* ================================================================== *)
(** ** Strings of the host language *)
(* ================================================================== *)

Module JsString.

(** [s.startsWith(p)] *)
Fixpoint startsWith (p s : string) : bool :=
  match p with
  | EmptyString => true
  | String a p' =>
      match s with
      | EmptyString => false
      | String b s' => Ascii.eqb a b && startsWith p' s'
      end
  end.

(** the rest of [s] after its first [n] bytes *)
Fixpoint drop (n : nat) (s : string) : string :=
  match n with
  | O => s
  | S n' => match s with
            | EmptyString => EmptyString
            | String _ s' => drop n' s'
            end
  end.

(** [s.includes(p)] *)
Fixpoint includes (p s : string) : bool :=
  startsWith p s ||
  match s with
  | EmptyString => false
  | String _ s' => includes p s'
  end.

(** [s.endsWith("/")] *)
Fixpoint endsWithSlash (s : string) : bool :=
  match s with
  | EmptyString => false
  | String c EmptyString => Ascii.eqb c "/"
  | String _ s' => endsWithSlash s'
  end.

(** [s] without its last byte *)
Fixpoint removeLast (s : string) : string :=
  match s with
  | EmptyString => EmptyString
  | String _ EmptyString => EmptyString
  | String c s' => String c (removeLast s')
  end.

(** [s.replace(/\/$/, '')]: without the [m] flag [$] is the end of the
    input, so at most the one final slash goes. *)
Definition stripTrailingSlash (s : string) : string :=
  if endsWithSlash s then removeLast s else s.

(** The line terminators of the language, in UTF-8: LF, CR, U+2028 and
    U+2029.  A [.] of a regular expression matches anything else. *)
Definition lineTerminators : list string :=
  [ String (ascii_of_nat 10) EmptyString;
    String (ascii_of_nat 13) EmptyString;
    String (ascii_of_nat 226) (String (ascii_of_nat 128) (String (ascii_of_nat 168) EmptyString));
    String (ascii_of_nat 226) (String (ascii_of_nat 128) (String (ascii_of_nat 169) EmptyString)) ].

(** White space that is no line terminator: TAB, VT, FF, SP, NBSP,
    U+1680, U+2000..U+200A, U+202F, U+205F, U+3000 and U+FEFF. *)
Definition u3 (a b c : nat) : string :=
  String (ascii_of_nat a) (String (ascii_of_nat b) (String (ascii_of_nat c) EmptyString)).

Definition whiteSpaces : list string :=
  [ String (ascii_of_nat 9) EmptyString;
    String (ascii_of_nat 11) EmptyString;
    String (ascii_of_nat 12) EmptyString;
    String (ascii_of_nat 32) EmptyString;
    String (ascii_of_nat 194) (String (ascii_of_nat 160) EmptyString);
    u3 225 154 128;
    u3 226 128 128; u3 226 128 129; u3 226 128 130; u3 226 128 131;
    u3 226 128 132; u3 226 128 133; u3 226 128 134; u3 226 128 135;
    u3 226 128 136; u3 226 128 137; u3 226 128 138;
    u3 226 128 175; u3 226 129 159; u3 227 128 128; u3 239 187 191 ].

(** what [trim] removes *)
Definition trimmed : list string := whiteSpaces ++ lineTerminators.

Fixpoint revString (acc s : string) : string :=
  match s with
  | EmptyString => acc
  | String c s' => revString (String c acc) s'
  end.

Definition rev (s : string) : string := revString EmptyString s.

(** the first of [toks] that [s] starts with *)
Fixpoint leading (toks : list string) (s : string) : option string :=
  match toks with
  | [] => None
  | t :: toks' => if startsWith t s then Some t else leading toks' s
  end.

Fixpoint trimStartWith (toks : list string) (fuel : nat) (s : string) : string :=
  match fuel with
  | O => s
  | S fuel' =>
      match leading toks s with
      | Some t => trimStartWith toks fuel' (drop (String.length t) s)
      | None => s
      end
  end.

Definition trimStart (s : string) : string :=
  trimStartWith trimmed (String.length s) s.

Definition trimEnd (s : string) : string :=
  rev (trimStartWith (map rev trimmed) (String.length s) (rev s)).

(** [s.trim()] *)
Definition trim (s : string) : string := trimEnd (trimStart s).

(** no line terminator anywhere in [s]: what [.*$] needs of the rest of
    the input (no [m] and no [s] flag) *)
Fixpoint singleLine (s : string) : bool :=
  match leading lineTerminators s with
  | Some _ => false
  | None => match s with
            | EmptyString => true
            | String _ s' => singleLine s'
            end
  end.

(** [s.replace(/PAT.*$/, '')] for a literal [PAT]: the leftmost place
    where [PAT] starts and no line terminator follows it; the input is
    cut there.  No such place: [s] as it is. *)
Fixpoint cutFrom (pat s : string) : string :=
  if startsWith pat s && singleLine (drop (String.length pat) s)
  then EmptyString
  else match s with
       | EmptyString => EmptyString
       | String c s' => String c (cutFrom pat s')
       end.

(** ASCII letters compared without case (the [i] flag, no [u] flag: a
    byte of 128 or more never folds onto an ASCII letter). *)
Definition lower (c : ascii) : ascii :=
  let n := nat_of_ascii c in
  if Nat.leb 65 n && Nat.leb n 90 then ascii_of_nat (n + 32) else c.

Fixpoint startsWithCI (p s : string) : bool :=
  match p with
  | EmptyString => true
  | String a p' =>
      match s with
      | EmptyString => false
      | String b s' => Ascii.eqb (lower a) (lower b) && startsWithCI p' s'
      end
  end.

(** [s.split(sep)[1]], when [sep] occurs in [s]: what lies between the
    first occurrence of [sep] and the next one *)
Fixpoint afterFirst (sep s : string) : string :=
  if startsWith sep s then drop (String.length sep) s
  else match s with
       | EmptyString => EmptyString
       | String _ s' => afterFirst sep s'
       end.

Fixpoint beforeFirst (sep s : string) : string :=
  if startsWith sep s then EmptyString
  else match s with
       | EmptyString => EmptyString
       | String c s' => String c (beforeFirst sep s')
       end.

Definition splitSecond (sep s : string) : string :=
  beforeFirst sep (afterFirst sep s).

(** [String(n)] of a natural number *)
Definition ofNat (n : nat) : string := NilEmpty.string_of_uint (Nat.to_uint n).

(** [encodeURIComponent(s)]: the unreserved characters stay, every other
    byte of the UTF-8 encoding becomes [%XX]. *)
Definition unreserved (c : ascii) : bool :=
  let n := nat_of_ascii c in
  (Nat.leb 65 n && Nat.leb n 90) || (Nat.leb 97 n && Nat.leb n 122) ||
  (Nat.leb 48 n && Nat.leb n 57) ||
  existsb (Ascii.eqb c) ["-"; "_"; "."; "!"; "~"; "*"; "'"; "("; ")"]%char.

Definition hexDigit (n : nat) : ascii :=
  if Nat.ltb n 10 then ascii_of_nat (48 + n) else ascii_of_nat (55 + n).

Fixpoint encodeURIComponent (s : string) : string :=
  match s with
  | EmptyString => EmptyString
  | String c s' =>
      if unreserved c then String c (encodeURIComponent s')
      else let n := nat_of_ascii c in
           String "%" (String (hexDigit (n / 16)) (String (hexDigit (n mod 16))
             (encodeURIComponent s')))
  end.

End JsString.

(* ================================================================== *)
(** ** Values, exceptions and the outside world *)
(* ================================================================== *)

Module Js.

(** A thrown [Error]: its [name] and its [message]. *)
Record error := mkError { err_name : string; err_message : string }.

(** [new Error(msg)] *)
Definition Error (msg : string) : error := mkError "Error" msg.

(** [new TypeError(msg)] *)
Definition TypeError (msg : string) : error := mkError "TypeError" msg.

(** [e.toString()] *)
Definition toString (e : error) : string :=
  if String.eqb (err_name e) "" then err_message e
  else if String.eqb (err_message e) "" then err_name e
  else err_name e ++ ": " ++ err_message e.

(** [a || b] on strings: the empty string is falsy *)
Definition orElse (a b : string) : string :=
  if String.eqb a "" then b else a.

Set Warnings "-register-all".

(** JSON values (numbers: the natural numbers, which is what identifiers
    and counts are). *)
Inductive json :=
| JNull
| JBool (b : bool)
| JNum (n : nat)
| JStr (s : string)
| JArr (l : list json)
| JObj (fields : list (string * json)).

(** truthiness of a value that may be [undefined] *)
Definition truthy (v : option json) : bool :=
  match v with
  | None => false
  | Some JNull => false
  | Some (JBool b) => b
  | Some (JNum n) => negb (Nat.eqb n 0)
  | Some (JStr s) => negb (String.eqb s "")
  | Some (JArr _) => true
  | Some (JObj _) => true
  end.

Fixpoint lookup (k : string) (fields : list (string * json)) : option json :=
  match fields with
  | [] => None
  | (k', v) :: rest => if String.eqb k k' then Some v else lookup k rest
  end.

(** the uploaded file: name, MIME type and bytes *)
Record file := { file_name : string; file_type : string; file_bytes : string }.

Inductive payload :=
| NoBody
| Text (s : string)
| Blob (f : file).

Record request := {
  req_url : string;
  req_method : string;
  req_headers : list (string * string);
  req_body : payload
}.

(** What [response.json()] gives: a value, or a rejection when the body
    is no JSON. *)
Inductive parsed :=
| Parsed (j : json)
| Unparsable (e : error).

(** What [fetch] gives: a rejection (network failure, cross-origin
    refusal) or a response with its status. *)
Inductive reply :=
| Rejected (e : error)
| Answered (status : nat) (body : parsed).

(** What the generation provider gives for one key: an exception or the
    [text] of the response (empty also when it is undefined). *)
Inductive generation :=
| GenThrows (e : error)
| GenText (text : string).

Inductive event :=
| Fetch (r : request)
| Generate (apiKey prompt : string)
| Delay (ms : nat)
| Alert (msg : string).

(** The world answers the n-th interaction, given what is asked, and
    keeps the trace of all interactions so far. *)
Record world := {
  net : nat -> request -> reply;
  llm : nat -> string -> string -> generation;
  rnd : nat -> string;
  clock : nat -> nat;
  ticks : nat;
  trace : list event
}.

Definition record (ev : event) (w : world) : world :=
  {| net := net w; llm := llm w; rnd := rnd w; clock := clock w;
     ticks := ticks w; trace := trace w ++ [ev] |}.

Definition tick (w : world) : world :=
  {| net := net w; llm := llm w; rnd := rnd w; clock := clock w;
     ticks := S (ticks w); trace := trace w |}.

Inductive outcome (A : Type) :=
| Ok (a : A)
| Throw (e : error).
Arguments Ok {A} a.
Arguments Throw {A} e.

(** An asynchronous computation: runs in a world, returns or throws. *)
Definition M (A : Type) : Type := world -> outcome A * world.

Definition ret {A} (a : A) : M A := fun w => (Ok a, w).
Definition throw {A} (e : error) : M A := fun w => (Throw e, w).
Definition bind {A B} (m : M A) (k : A -> M B) : M B :=
  fun w => match m w with
           | (Ok a, w') => k a w'
           | (Throw e, w') => (Throw e, w')
           end.
(** [try { m } catch (e) { h e }] *)
Definition try {A} (m : M A) (h : error -> M A) : M A :=
  fun w => match m w with
           | (Ok a, w') => (Ok a, w')
           | (Throw e, w') => h e w'
           end.

(** [await fetch(url, init)] *)
Definition fetch (r : request) : M reply :=
  fun w => (Ok (net w (List.length (trace w)) r), record (Fetch r) w).

(** [await ai.models.generateContent(...)] with the given key *)
Definition generateContent (apiKey prompt : string) : M generation :=
  fun w => (Ok (llm w (List.length (trace w)) apiKey prompt), record (Generate apiKey prompt) w).

(** [await delay(ms)] *)
Definition delay (ms : nat) : M unit :=
  fun w => (Ok tt, record (Delay ms) w).

(** [alert(msg)] *)
Definition alert (msg : string) : M unit :=
  fun w => (Ok tt, record (Alert msg) w).

(** [Date.now().toString(36) + Math.random().toString(36).substr(2, 9)]:
    some string, another one at every call *)
Definition generateId : M string :=
  fun w => (Ok (rnd w (ticks w)), tick w).

(** [new Date()] *)
Definition newDate : M nat :=
  fun w => (Ok (clock w (ticks w)), tick w).

(** [response.ok] *)
Definition ok (status : nat) : bool := Nat.leb 200 status && Nat.leb status 299.

(** [await response.json()] *)
Definition json_of (b : parsed) : M json :=
  match b with
  | Parsed j => ret j
  | Unparsable e => throw e
  end.

(** [data.k]: a property of [null] throws, a value without the property
    gives [undefined]. *)
Definition prop (k : string) (data : json) : M (option json) :=
  match data with
  | JNull => throw (TypeError ("Cannot read properties of null (reading '" ++ k ++ "')"))
  | JObj fields => ret (lookup k fields)
  | _ => ret None
  end.

(** [w'] is [w] after the interactions [evs]: the trace has grown by
    them, and the world answers as before. *)
Definition extends (w w' : world) (evs : list event) : Prop :=
  trace w' = (trace w ++ evs)%list /\ net w' = net w /\ llm w' = llm w
  /\ rnd w' = rnd w /\ clock w' = clock w.

(** every interaction of [m] satisfies [Q] *)
Definition emits {A} (Q : event -> Prop) (m : M A) : Prop :=
  forall w r w', m w = (r, w') -> exists evs, extends w w' evs /\ Forall Q evs.

(** Code of a component: like [M], with the state [S] of the component
    next to the world.  A state update made before an exception stays. *)
Definition P (S A : Type) : Type := S -> world -> outcome A * S * world.

Definition retP {S A} (a : A) : P S A := fun st w => (Ok a, st, w).
Definition throwP {S A} (e : error) : P S A := fun st w => (Throw e, st, w).
Definition bindP {S A B} (m : P S A) (k : A -> P S B) : P S B :=
  fun st w => match m st w with
              | (Ok a, st', w') => k a st' w'
              | (Throw e, st', w') => (Throw e, st', w')
              end.
(** [try { m } catch (e) { h e }] *)
Definition tryP {S A} (m : P S A) (h : error -> P S A) : P S A :=
  fun st w => match m st w with
              | (Ok a, st', w') => (Ok a, st', w')
              | (Throw e, st', w') => h e st' w'
              end.
(** [try { m } finally { f }] *)
Definition finallyP {S A} (m : P S A) (f : P S unit) : P S A :=
  fun st w => match m st w with
              | (r, st', w') =>
                  match f st' w' with
                  | (Ok _, st'', w'') => (r, st'', w'')
                  | (Throw e, st'', w'') => (Throw e, st'', w'')
                  end
              end.
(** a call of a service *)
Definition lift {S A} (m : M A) : P S A :=
  fun st w => match m w with (r, w') => (r, st, w') end.
(** every interaction of a piece of component code satisfies [Q] *)
Definition emitsP {S A} (Q : event -> Prop) (m : P S A) : Prop :=
  forall st w r st' w', m st w = (r, st', w') -> exists evs, extends w w' evs /\ Forall Q evs.

(** a state setter called with an updater function *)
Definition update {S} (f : S -> S) : P S unit := fun st w => (Ok tt, f st, w).

End Js.

Declare Scope js_scope.
Delimit Scope js_scope with js.
Notation "x <- m ;; k" := (Js.bind m (fun x => k))
  (at level 61, m at next level, right associativity) : js_scope.
Notation "m ;;; k" := (Js.bind m (fun _ => k))
  (at level 61, right associativity) : js_scope.

Declare Scope component_scope.
Delimit Scope component_scope with component.
Notation "x <- m ;; k" := (Js.bindP m (fun x => k))
  (at level 61, m at next level, right associativity) : component_scope.
Notation "m ;;; k" := (Js.bindP m (fun _ => k))
  (at level 61, right associativity) : component_scope.

(* ================================================================== *)
(** ** services/sheets.ts *)
(* ================================================================== *)

Module Sheets.
Import Js.
Local Open Scope js_scope.

Section WithStringify.
(** [JSON.stringify] of the language *)
Variable stringify : json -> string.

(** an [undefined] in an array is printed as [null] *)
Definition valueOrNull (value : option json) : json :=
  match value with Some v => v | None => JNull end.

(** the range written by [updateSheetCell] *)
Definition range (rowIndex : nat) (columnLetter : string) : string :=
  let sheetRow := rowIndex + 2 in
  columnLetter ++ JsString.ofNat sheetRow.

Definition updateSheetCell_request (accessToken spreadsheetId : string)
    (rowIndex : nat) (value : option json) (columnLetter : string) : request :=
  {| req_url := "https://sheets.googleapis.com/v4/spreadsheets/" ++ spreadsheetId
                ++ "/values/" ++ range rowIndex columnLetter
                ++ "?valueInputOption=USER_ENTERED";
     req_method := "PUT";
     req_headers := [("Authorization", "Bearer " ++ accessToken);
                     ("Content-Type", "application/json")];
     req_body := Text (stringify (JObj [("values", JArr [JArr [valueOrNull value]])])) |}.

(** [updateSheetCell(accessToken, spreadsheetId, rowIndex, value, columnLetter = 'F')];
    [None] for the column is the omitted argument. *)
Definition updateSheetCell (accessToken spreadsheetId : string) (rowIndex : nat)
    (value : option json) (column : option string) : M unit :=
  let columnLetter := match column with Some c => c | None => "F" end in
  response <- fetch (updateSheetCell_request accessToken spreadsheetId rowIndex value columnLetter) ;;
  match response with
  | Rejected e => throw e
  | Answered status _ =>
      if ok status then ret tt
      else throw (Error "Erro ao atualizar a planilha")
  end.

End WithStringify.
End Sheets.

(* ================================================================== *)
(** ** services/wordpress.ts *)
(* ================================================================== *)

Module Wordpress.
Import Js.
Local Open Scope js_scope.

(** Modelled from the spec: the site connection record ([WordpressSite]
    of [types.ts]): identifier, display name, base URL, username and
    application password. *)
Record WordpressSite := {
  site_id : string;
  site_name : string;
  site_url : string;
  site_username : string;
  site_appPassword : string
}.

(** [/^https?:\/\//i.test(s)] *)
Definition hasProtocol (s : string) : bool :=
  JsString.startsWithCI "http://" s || JsString.startsWithCI "https://" s.

(** [cleanWpUrl]: trim, default protocol, then the four [replace]s in
    the order of the source. *)
Definition cleanWpUrl (url : string) : string :=
  let clean := JsString.trim url in
  let clean := if negb (hasProtocol clean) then "https://" ++ clean else clean in
  let clean := JsString.stripTrailingSlash clean in
  let clean := JsString.cutFrom "/wp-admin" clean in
  let clean := JsString.cutFrom "/wp-login.php" clean in
  let clean := JsString.cutFrom "/wp-json" clean in
  clean.

(** [init] of a request: method, headers, body *)
Record RequestInit := {
  opt_method : string;
  opt_headers : list (string * string);
  opt_body : payload
}.

(** one key of an object literal set: an existing key keeps its place
    and takes the new value, a new key goes last *)
Fixpoint setKey (k v : string) (o : list (string * string)) : list (string * string) :=
  match o with
  | [] => [(k, v)]
  | (k', v') :: o' => if String.eqb k k' then (k, v) :: o' else (k', v') :: setKey k v o'
  end.

(** [{ ...a, ...b }] *)
Definition spread (a b : list (string * string)) : list (string * string) :=
  fold_left (fun o kv => setKey (fst kv) (snd kv) o) b a.

Definition dquote : string := String (ascii_of_nat 34) EmptyString.
Definition nl : string := String (ascii_of_nat 10) EmptyString.
Definition indent : string := "            ".

(** the labels and the URLs of the four strategies, in order *)
Definition strategyLabel (k : nat) : string :=
  match k with
  | 1 => "Strategy 1 (Direct Standard)"
  | 2 => "Strategy 2 (Direct Fallback)"
  | 3 => "Strategy 3 (Proxy Standard)"
  | _ => "Strategy 4 (Proxy Fallback)"
  end.

Definition strategyUrl (baseUrl endpointPath : string) (k : nat) : string :=
  match k with
  | 1 => baseUrl ++ "/wp-json/wp/v2" ++ endpointPath
  | 2 => baseUrl ++ "/?rest_route=/wp/v2" ++ endpointPath
  | 3 => "https://corsproxy.io/?"
         ++ JsString.encodeURIComponent (baseUrl ++ "/wp-json/wp/v2" ++ endpointPath)
  | _ => "https://corsproxy.io/?"
         ++ JsString.encodeURIComponent (baseUrl ++ "/?rest_route=/wp/v2" ++ endpointPath)
  end.

(** the message thrown for a 401 or 403 *)
Definition accessDenied (label : string) : string :=
  "Erro 401/403: Acesso Negado em " ++ label ++ ". Verifique Usuário e Senha.".

(** the diagnostic of the last [catch] *)
Definition criticalFailure (baseUrl : string) : string :=
  "FALHA CRÍTICA (CORS/502): Não foi possível conectar ao site " ++ baseUrl ++ "." ++ nl
  ++ indent ++ nl
  ++ indent ++ "Possíveis causas:" ++ nl
  ++ indent ++ "1. Firewall (Wordfence, Cloudflare) bloqueando a API REST." ++ nl
  ++ indent ++ "2. Bloqueio de região (Geo-block) no servidor." ++ nl
  ++ indent ++ "3. Permalinks não configurados corretamente." ++ nl
  ++ indent ++ nl
  ++ indent ++ "Solução: Tente instalar um plugin de " ++ dquote ++ "CORS" ++ dquote
  ++ " no WordPress ou whitelistar o domínio.".

Inductive post_status := publish | draft.

Definition post_status_name (s : post_status) : string :=
  match s with publish => "publish" | draft => "draft" end.

Record CreatePostParams := {
  p_title : string;
  p_content : string;
  p_status : post_status;
  p_slug : string;
  p_categories : option (list json);
  p_excerpt : option string;
  p_featuredMediaId : option json
}.

Section WithBuiltins.
(** [btoa] and [JSON.stringify] of the browser, and [markdownToHtml] of
    this file, a chain of [replace]s on the content whose result is only
    ever put into the body of the request. *)
Variable btoa : string -> string.
Variable stringify : json -> string.
Variable markdownToHtml : string -> string.

(** [encodeBasicAuth], when it returns: [unescape(encodeURIComponent(x))]
    is the UTF-8 encoding of [x], which is [x] itself here, and [btoa]
    of bytes does not throw.  It throws for credentials with a lone
    surrogate: [WordpressClient.encodeBasicAuth] is the function with
    that case. *)
Definition encodeBasicAuth (user pass : string) : string :=
  let safeUser := JsString.trim user in
  let safePass := JsString.trim pass in
  btoa (safeUser ++ ":" ++ safePass).

Section Fallback.
Variable site : WordpressSite.
Variable endpointPath : string.
Variable options : RequestInit.

Definition fallbackHeaders : list (string * string) :=
  spread [("Authorization", "Basic " ++ encodeBasicAuth (site_username site) (site_appPassword site));
          ("Cache-Control", "no-store, no-cache");
          ("Pragma", "no-cache")]
         (opt_headers options).

(** the request of [fetch(url, { ...options, headers })] *)
Definition strategyRequest (url : string) : request :=
  {| req_url := url;
     req_method := opt_method options;
     req_headers := fallbackHeaders;
     req_body := opt_body options |}.

(** [tryStrategy(label, url)]; the calls of [console] are left out, here
    and below *)
Definition tryStrategy (label url : string) : M json :=
  try (response <- fetch (strategyRequest url) ;;
       match response with
       | Rejected e => throw e
       | Answered status body =>
           if ok status then json_of body
           else if Nat.eqb status 401 || Nat.eqb status 403
                then throw (Error "AUTH_ERROR")
                else throw (Error ("Status " ++ JsString.ofNat status))
       end)
      (fun error =>
         if String.eqb (err_message error) "AUTH_ERROR"
         then throw (Error (accessDenied label))
         else throw error).

(** What [tryStrategy] makes of the reply to its request: the [catch]
    translates the marker [AUTH_ERROR] and passes every other error on. *)
Definition rethrown (label : string) (error : Js.error) : Js.error :=
  if String.eqb (err_message error) "AUTH_ERROR" then Error (accessDenied label) else error.

Definition strategyOutcome (label : string) (r : reply) : outcome json :=
  match r with
  | Rejected e => Throw (rethrown label e)
  | Answered status body =>
      if ok status then
        match body with
        | Parsed j => Ok j
        | Unparsable e => Throw (rethrown label e)
        end
      else if Nat.eqb status 401 || Nat.eqb status 403
           then Throw (Error (accessDenied label))
           else Throw (Error ("Status " ++ JsString.ofNat status))
  end.

(** a reply after which [fetchWpWithFallback] goes on to the next
    strategy: [tryStrategy] throws, and not the access-denied error *)
Definition fallsThrough (label : string) (r : reply) : bool :=
  match strategyOutcome label r with
  | Ok _ => false
  | Throw e => negb (JsString.includes "Acesso Negado" (err_message e))
  end.

(** [fetchWpWithFallback(site, endpointPath, options)] from its first
    [try] on, that is, once [encodeBasicAuth] has returned the
    authorization; [WordpressClient.fetchWpWithFallback] is the whole
    call.  Each [try { return ... } catch (e) { ... }] block of the
    source is one [try]; what follows the block is the end of its
    handler. *)
Definition fetchWpWithFallback : M json :=
  let baseUrl := cleanWpUrl (site_url site) in
  let lastError := Error "Unknown Error" in
  try (tryStrategy (strategyLabel 1) (strategyUrl baseUrl endpointPath 1))
  (fun e =>
   if JsString.includes "Acesso Negado" (err_message e) then throw e else
   let lastError := e in
   try (tryStrategy (strategyLabel 2) (strategyUrl baseUrl endpointPath 2))
   (fun e =>
    if JsString.includes "Acesso Negado" (err_message e) then throw e else
    let lastError := e in
    try (tryStrategy (strategyLabel 3) (strategyUrl baseUrl endpointPath 3))
    (fun e =>
     if JsString.includes "Acesso Negado" (err_message e) then throw e else
     let lastError := e in
     try (tryStrategy (strategyLabel 4) (strategyUrl baseUrl endpointPath 4))
     (fun e =>
      if JsString.includes "Acesso Negado" (err_message e) then throw e else
      let msg := orElse (err_message lastError) "Falha na conexão." in
      let msg := if JsString.includes "Failed to fetch" msg || JsString.includes "502" msg
                 then criticalFailure baseUrl else msg in
      throw (Error msg))))).

End Fallback.

(** [uploadWpMedia(site, file)] from its first [try] on: [tryUpload]
    and the four nested [try] blocks, entered once [encodeBasicAuth]
    has returned; [WordpressClient.uploadWpMedia] is the whole call. *)
Definition uploadRequest (site : WordpressSite) (file : Js.file) (finalUrl : string) : request :=
  {| req_url := finalUrl;
     req_method := "POST";
     req_headers :=
       [("Authorization", "Basic " ++ encodeBasicAuth (site_username site) (site_appPassword site));
        ("Content-Disposition", "attachment; filename=" ++ dquote ++ file_name file ++ dquote);
        ("Content-Type", file_type file);
        ("Cache-Control", "no-store")];
     req_body := Blob file |}.

Definition proxied (useProxy : bool) (url : string) : string :=
  if useProxy then "https://corsproxy.io/?" ++ JsString.encodeURIComponent url else url.

Definition tryUpload (site : WordpressSite) (file : Js.file) (url : string) (useProxy : bool) : M json :=
  let finalUrl := proxied useProxy url in
  response <- fetch (uploadRequest site file finalUrl) ;;
  match response with
  | Rejected e => throw e
  | Answered status body =>
      if negb (ok status) then
        if Nat.eqb status 401 then throw (Error "AUTH_ERROR")
        else throw (Error ("Status " ++ JsString.ofNat status))
      else json_of body
  end.

Definition uploadWpMedia (site : WordpressSite) (file : Js.file) : M (option json) :=
  let baseUrl := cleanWpUrl (site_url site) in
  try (data <- tryUpload site file (baseUrl ++ "/wp-json/wp/v2/media") false ;;
       prop "id" data)
  (fun e =>
   if String.eqb (err_message e) "AUTH_ERROR"
   then throw (Error "Erro de Autenticação ao enviar imagem.") else
   try (data <- tryUpload site file (baseUrl ++ "/?rest_route=/wp/v2/media") false ;;
        prop "id" data)
   (fun e2 =>
    try (data <- tryUpload site file (baseUrl ++ "/wp-json/wp/v2/media") true ;;
         prop "id" data)
    (fun e3 =>
     try (data <- tryUpload site file (baseUrl ++ "/?rest_route=/wp/v2/media") true ;;
          prop "id" data)
     (fun e4 =>
      throw (Error "Falha ao enviar imagem (Todas as estratégias falharam)."))))).

(** the JSON body of [createWpPost] *)
Definition postBody (params : CreatePostParams) : json :=
  let htmlContent := markdownToHtml (p_content params) in
  let body := [("title", JStr (p_title params));
               ("content", JStr htmlContent);
               ("status", JStr (post_status_name (p_status params)));
               ("slug", JStr (p_slug params))] in
  let body := match p_categories params with
              | Some (c :: cs) => (body ++ [("categories", JArr (c :: cs))])%list
              | _ => body
              end in
  let body := match p_excerpt params with
              | Some x => if String.eqb x "" then body else (body ++ [("excerpt", JStr x)])%list
              | None => body
              end in
  let body := if truthy (p_featuredMediaId params)
              then match p_featuredMediaId params with
                   | Some m => (body ++ [("featured_media", m)])%list
                   | None => body
                   end
              else body in
  JObj body.

Definition postOptions (params : CreatePostParams) : RequestInit :=
  {| opt_method := "POST";
     opt_headers := [("Content-Type", "application/json")];
     opt_body := Text (stringify (postBody params)) |}.

(** [createWpPost(site, params)] for credentials that
    [encodeBasicAuth] accepts; [WordpressClient.createWpPost] is the
    whole call *)
Definition createWpPost (site : WordpressSite) (params : CreatePostParams) : M json :=
  try (fetchWpWithFallback site "/posts" (postOptions params))
      (fun error =>
         throw (Error (orElse (err_message error) "Falha ao enviar post para o WordPress."))).

End WithBuiltins.
End Wordpress.

(* ================================================================== *)
(** ** services/wordpress.ts: the calls as a whole *)
(* ================================================================== *)

Module WordpressClient.
Import Js.
Local Open Scope js_scope.

(** A JS string is a sequence of UTF-16 code units, and a surrogate
    that is not half of a pair has no UTF-8 encoding.  In the byte
    strings of this development such a code unit is written as
    generalized UTF-8 writes it: the byte 237 followed by a byte from
    160 to 191, two bytes that never follow each other in the encoding
    of a well-formed text. *)
Fixpoint hasLoneSurrogate (s : string) : bool :=
  match s with
  | EmptyString => false
  | String a s' =>
      match s' with
      | String b _ =>
          Nat.eqb (nat_of_ascii a) 237
          && Nat.leb 160 (nat_of_ascii b) && Nat.leb (nat_of_ascii b) 191
      | EmptyString => false
      end
      || hasLoneSurrogate s'
  end.

(** the text that [encodeBasicAuth] encodes for a site:
    [`${safeUser}:${safePass}`] *)
Definition credentials (site : Wordpress.WordpressSite) : string :=
  JsString.trim (Wordpress.site_username site) ++ ":"
  ++ JsString.trim (Wordpress.site_appPassword site).

Section WithBuiltins.
(** [btoa] of the browser on bytes, the message of the
    [InvalidCharacterError] that it throws for a character above 255,
    [JSON.stringify], and [markdownToHtml] of this file *)
Variable btoa : string -> string.
Variable invalidCharacter : string.
Variable stringify : json -> string.
Variable markdownToHtml : string -> string.

(** [encodeBasicAuth(user, pass)].  For a text with a lone surrogate
    [encodeURIComponent] throws a [URIError]; the [catch] then calls
    [btoa] on the text itself, which throws since a surrogate is above
    255.  For any other text the [try] returns. *)
Definition encodeBasicAuth (user pass : string) : outcome string :=
  let safeUser := JsString.trim user in
  let safePass := JsString.trim pass in
  if hasLoneSurrogate (safeUser ++ ":" ++ safePass)
  then Throw (mkError "InvalidCharacterError" invalidCharacter)
  else Ok (btoa (safeUser ++ ":" ++ safePass)).

(** the first lines of [fetchWpWithFallback] and of [uploadWpMedia]:
    [const authString = encodeBasicAuth(site.username, site.appPassword)],
    outside every [try] *)
Definition authString (site : Wordpress.WordpressSite) : outcome string :=
  encodeBasicAuth (Wordpress.site_username site) (Wordpress.site_appPassword site).

(** [fetchWpWithFallback(site, endpointPath, options)] *)
Definition fetchWpWithFallback (site : Wordpress.WordpressSite) (endpointPath : string)
    (options : Wordpress.RequestInit) : M json :=
  match authString site with
  | Throw e => throw e
  | Ok _ => Wordpress.fetchWpWithFallback btoa site endpointPath options
  end.

(** [uploadWpMedia(site, file)] *)
Definition uploadWpMedia (site : Wordpress.WordpressSite) (file : Js.file) : M (option json) :=
  match authString site with
  | Throw e => throw e
  | Ok _ => Wordpress.uploadWpMedia btoa site file
  end.

(** [createWpPost(site, params)] *)
Definition createWpPost (site : Wordpress.WordpressSite) (params : Wordpress.CreatePostParams)
  : M json :=
  try (fetchWpWithFallback site "/posts" (Wordpress.postOptions stringify markdownToHtml params))
      (fun error =>
         throw (Error (orElse (err_message error) "Falha ao enviar post para o WordPress."))).

(** [fetchWpCategories(site)] *)
Definition fetchWpCategories (site : Wordpress.WordpressSite) : M json :=
  try (fetchWpWithFallback site "/categories?per_page=100&hide_empty=0"
         {| Wordpress.opt_method := "GET"; Wordpress.opt_headers := [];
            Wordpress.opt_body := NoBody |})
      (fun error =>
         throw (Error (orElse (err_message error) "Não foi possível carregar as categorias."))).

End WithBuiltins.
End WordpressClient.

(* ================================================================== *)
(** ** services/gemini.ts and the key list of components/Settings.tsx *)
(* ================================================================== *)

Module Settings.

(** [addGeminiKey] with [newKey] typed into the field *)
Definition addGeminiKey (newKey : string) (geminiKeys : list string) : list string :=
  let k := JsString.trim newKey in
  if negb (String.eqb k "") && negb (existsb (String.eqb k) geminiKeys)
  then (geminiKeys ++ [k])%list
  else geminiKeys.

(** [removeGeminiKey(keyToRemove)] *)
Definition removeGeminiKey (keyToRemove : string) (geminiKeys : list string) : list string :=
  filter (fun k => negb (String.eqb k keyToRemove)) geminiKeys.

Inductive edit :=
| Add (newKey : string)
| Remove (keyToRemove : string).

Definition apply (geminiKeys : list string) (e : edit) : list string :=
  match e with
  | Add k => addGeminiKey k geminiKeys
  | Remove k => removeGeminiKey k geminiKeys
  end.

(** the key list after a session of edits, starting from no key *)
Definition edited (es : list edit) : list string := fold_left apply es [].

End Settings.

Module Gemini.
Import Js.
Local Open Scope js_scope.

Record GuestPostRequest := {
  r_id : string;
  keyword : string;
  hostNiche : string;
  targetLink : string;
  anchorText : string;
  targetNiche : string
}.

(** What the call finds outside: the array under [guestpost_gemini_keys]
    in local storage ([None]: no item, no JSON or no array; the elements
    are strings, as the settings screen writes them) and
    [process.env.API_KEY]. *)
Record keySources := {
  stored : option (list string);
  envKey : option string
}.

(** [getAvailableApiKeys()] *)
Definition getAvailableApiKeys (src : keySources) : list string :=
  let keys := match stored src with Some parsed => parsed | None => [] end in
  let keys := match envKey src with
              | Some k =>
                  if negb (String.eqb k "") && negb (existsb (String.eqb k) keys)
                  then (keys ++ [k])%list else keys
              | None => keys
              end in
  filter (fun k => negb (String.eqb k "")
                   && Nat.ltb 0 (String.length (JsString.trim k))) keys.

Definition noKeyMessage : string :=
  "Nenhuma chave API do Gemini encontrada. Configure nas Configurações ou no arquivo .env".

Section WithPrompt.
(** the template literal of the source, filled with the fields of the
    request; it is the same for every key of a call *)
Variable promptOf : GuestPostRequest -> string.

(** one turn of the rotation loop: the body of the [try] *)
Definition attempt (apiKey prompt : string) : M string :=
  response <- generateContent apiKey prompt ;;
  match response with
  | GenThrows e => throw e
  | GenText text =>
      if String.eqb text "" then throw (Error "API retornou resposta vazia.")
      else ret text
  end.

(** [lastError?.message || lastError?.toString() || "Todas as chaves API falharam."] *)
Definition finalErrorMsg (lastError : option error) : string :=
  match lastError with
  | Some e => orElse (err_message e) (orElse (toString e) "Todas as chaves API falharam.")
  | None => "Todas as chaves API falharam."
  end.




(** [for (const apiKey of apiKeys) { try { ...; return } catch { lastError = error; continue } }]
    and what follows the loop *)
Fixpoint rotate (prompt : string) (apiKeys : list string) (lastError : option error) : M string :=
  match apiKeys with
  | [] => throw (Error (finalErrorMsg lastError))
  | apiKey :: rest =>
      try (attempt apiKey prompt)
          (fun error => rotate prompt rest (Some error))
  end.

(** [generateGuestPostContent(req)] *)
Definition generateGuestPostContent (src : keySources) (req : GuestPostRequest) : M string :=
  let apiKeys := getAvailableApiKeys src in
  if Nat.eqb (List.length apiKeys) 0 then throw (Error noKeyMessage)
  else
    let prompt := promptOf req in
    rotate prompt apiKeys None.

End WithPrompt.
End Gemini.

(* ================================================================== *)
(** ** services/drive.ts *)
(* ================================================================== *)

Module Drive.
Import Js.
Local Open Scope js_scope.

Section WithBuiltins.
(** [JSON.stringify] and [String(v)] of the language *)
Variable stringify : json -> string.
Variable text : json -> string.

Definition crlf : string := String (ascii_of_nat 13) (String (ascii_of_nat 10) EmptyString).

Definition multipart (title htmlContent : string) : string :=
  String.concat crlf
    [ "--foo_bar_baz";
      "Content-Type: application/json; charset=UTF-8";
      "";
      stringify (JObj [("name", JStr title);
                       ("mimeType", JStr "application/vnd.google-apps.document")]);
      "--foo_bar_baz";
      "Content-Type: text/html";
      "";
      htmlContent;
      "--foo_bar_baz--" ].

Definition uploadRequest (accessToken title htmlContent : string) : request :=
  {| req_url := "https://www.googleapis.com/upload/drive/v3/files?uploadType=multipart&fields=id,webViewLink";
     req_method := "POST";
     req_headers := [("Authorization", "Bearer " ++ accessToken);
                     ("Content-Type", "multipart/related; boundary=foo_bar_baz")];
     req_body := Text (multipart title htmlContent) |}.

(** [errorData.error?.message || fallback] as the message of an [Error] *)
Definition errorMessage (errorData : json) (fallback : string) : M string :=
  e <- prop "error" errorData ;;
  m <- match e with
       | None => ret None
       | Some JNull => ret None
       | Some v => prop "message" v
       end ;;
  ret (if truthy m
       then match m with
            | Some (JStr s) => s
            | Some v => text v
            | None => fallback
            end
       else fallback).

(** [uploadToDrive(accessToken, title, htmlContent)] *)
Definition uploadToDrive (accessToken title htmlContent : string) : M json :=
  response <- fetch (uploadRequest accessToken title htmlContent) ;;
  match response with
  | Rejected e => throw e
  | Answered status body =>
      if negb (ok status) then
        errorData <- json_of body ;;
        msg <- errorMessage errorData "Falha no upload para o Google Drive" ;;
        throw (Error msg)
      else json_of body
  end.

End WithBuiltins.
End Drive.

(* ================================================================== *)
(** ** components/BulkPostManager.tsx *)
(* ================================================================== *)

Module Bulk.
Import Js Wordpress.
Local Open Scope component_scope.

Inductive draft_status := idle | loading_doc | publishing | success | error.

(** Modelled from the spec: the bulk publish draft ([BulkPostDraft] of
    [types.ts]), with the fields that the component reads and writes. *)
Record BulkPostDraft := {
  d_id : string;
  sheetRowIndex : nat;
  d_keyword : string;
  originalDocUrl : string;
  siteUrlFromSheet : string;
  d_title : string;
  d_content : string;
  matchedSiteId : string;
  d_slug : string;
  metaDesc : string;
  image : option file;
  imagePreview : string;
  categoryId : json;
  d_status : draft_status;
  errorMsg : option string;
  publishedLink : option json
}.

Record state := {
  drafts : list BulkPostDraft;
  sites : list WordpressSite
}.

(** the three partial updates of [handlePublish], as [{ ...d, ...updates }] *)
Definition nowPublishing (d : BulkPostDraft) : BulkPostDraft :=
  {| d_id := d_id d; sheetRowIndex := sheetRowIndex d; d_keyword := d_keyword d;
     originalDocUrl := originalDocUrl d; siteUrlFromSheet := siteUrlFromSheet d;
     d_title := d_title d; d_content := d_content d; matchedSiteId := matchedSiteId d;
     d_slug := d_slug d; metaDesc := metaDesc d; image := image d;
     imagePreview := imagePreview d; categoryId := categoryId d;
     d_status := publishing; errorMsg := Some ""; publishedLink := publishedLink d |}.

Definition nowSuccess (link : option json) (d : BulkPostDraft) : BulkPostDraft :=
  {| d_id := d_id d; sheetRowIndex := sheetRowIndex d; d_keyword := d_keyword d;
     originalDocUrl := originalDocUrl d; siteUrlFromSheet := siteUrlFromSheet d;
     d_title := d_title d; d_content := d_content d; matchedSiteId := matchedSiteId d;
     d_slug := d_slug d; metaDesc := metaDesc d; image := image d;
     imagePreview := imagePreview d; categoryId := categoryId d;
     d_status := success; errorMsg := errorMsg d; publishedLink := link |}.

Definition nowError (msg : string) (d : BulkPostDraft) : BulkPostDraft :=
  {| d_id := d_id d; sheetRowIndex := sheetRowIndex d; d_keyword := d_keyword d;
     originalDocUrl := originalDocUrl d; siteUrlFromSheet := siteUrlFromSheet d;
     d_title := d_title d; d_content := d_content d; matchedSiteId := matchedSiteId d;
     d_slug := d_slug d; metaDesc := metaDesc d; image := image d;
     imagePreview := imagePreview d; categoryId := categoryId d;
     d_status := error; errorMsg := Some msg; publishedLink := publishedLink d |}.

(** [updateDraft(id, updates)]: [setDrafts(prev => prev.map(...))] *)
Definition updateDraft (id : string) (updates : BulkPostDraft -> BulkPostDraft) : P state unit :=
  update (fun st =>
    {| drafts := map (fun d => if String.eqb (d_id d) id then updates d else d) (drafts st);
       sites := sites st |}).

(** the [disabled] attribute of the publish button *)
Definition publishDisabled (d : BulkPostDraft) : bool :=
  match d_status d with
  | publishing => true
  | success => true
  | loading_doc => true
  | _ => String.eqb (matchedSiteId d) ""
  end.

Section WithBuiltins.
(** [btoa] with the message of its [InvalidCharacterError],
    [JSON.stringify] and [Number] of the language, and [markdownToHtml]
    of [services/wordpress.ts] *)
Variable btoa : string -> string.
Variable invalidCharacter : string.
Variable stringify : json -> string.
Variable markdownToHtml : string -> string.
Variable toNumber : json -> json.

(** the argument of [createWpPost] in [handlePublish] *)
Definition publishParams (d : BulkPostDraft) (mediaId : option json) : CreatePostParams :=
  {| p_title := d_title d;
     p_content := d_content d;
     p_status := publish;
     p_slug := d_slug d;
     p_excerpt := Some (metaDesc d);
     p_categories := Some (if truthy (Some (categoryId d)) then [toNumber (categoryId d)] else []);
     p_featuredMediaId := mediaId |}.

(** [let mediaId = undefined; if (draft.image) mediaId = await uploadWpMedia(site, draft.image)] *)
Definition uploadImage (site : WordpressSite) (d : BulkPostDraft) : M (option json) :=
  match image d with
  | Some img => WordpressClient.uploadWpMedia btoa invalidCharacter site img
  | None => ret None
  end.

(** the body of the [try] of [handlePublish] *)
Definition publishBody (id : string) (site : WordpressSite) (d : BulkPostDraft) : P state unit :=
  mediaId <- lift (uploadImage site d) ;;
  result <- lift (WordpressClient.createWpPost btoa invalidCharacter stringify markdownToHtml
                    site (publishParams d mediaId)) ;;
  link <- lift (prop "link" result) ;;
  updateDraft id (nowSuccess link).

(** [handlePublish(id)]; [drafts] and [sites] are those of the render in
    which the button was clicked. *)
Definition handlePublish (id : string) : P state unit :=
  fun st =>
  match find (fun d => String.eqb (d_id d) id) (drafts st) with
  | None => retP tt st
  | Some d =>
      if String.eqb (matchedSiteId d) ""
      then lift (alert "Selecione um site primeiro.") st
      else
        match find (fun s => String.eqb (site_id s) (matchedSiteId d)) (sites st) with
        | None => retP tt st
        | Some site =>
            (updateDraft id nowPublishing ;;;
             tryP (publishBody id site d)
                  (fun e => updateDraft id (nowError (err_message e)))) st
        end
  end.

(** a click on the publish button of the draft *)
Definition clickPublish (id : string) : P state unit :=
  fun st =>
  match find (fun d => String.eqb (d_id d) id) (drafts st) with
  | Some d => if publishDisabled d then retP tt st else handlePublish id st
  | None => retP tt st
  end.

End WithBuiltins.
End Bulk.

(* ================================================================== *)
(** ** App.tsx: the batch worker *)
(* ================================================================== *)

Module App.
Import Js Gemini.
Local Open Scope component_scope.

(** the modes that [App.tsx] switches between *)
Inductive AppMode := SINGLE | HISTORY | SETTINGS | WORDPRESS | BULK_PUBLISH.

Inductive item_status := pending | processing | done | failed.

Record QueueItem := {
  q_id : string;
  request : GuestPostRequest;
  rowIndex : nat;
  sheetId : string;
  q_status : item_status
}.

Record BatchProgress := {
  isActive : bool;
  total : nat;
  processed : nat;
  currentKeyword : string;
  logs : list string
}.

Inductive article_status := article_pending | completed | article_failed.

Record GeneratedArticle := {
  a_id : string;
  requestId : string;
  a_title : string;
  a_content : string;
  createdAt : nat;
  a_status : article_status;
  driveUrl : option json;
  driveId : option json
}.

(** a row of the sheet: its cells, left to right *)
Definition row := list string.

(** [row[i]] when it is truthy *)
Definition cell (r : row) (i : nat) : option string :=
  match nth_error r i with
  | Some c => if String.eqb c "" then None else Some c
  | None => None
  end.

(** [row[i] || dflt] *)
Definition cellOr (r : row) (i : nat) (dflt : string) : string :=
  match cell r i with Some c => c | None => dflt end.

Definition DEMO_ROWS : list row :=
  [ ["Importância do Yoga no Trabalho"; "Blog de RH e Carreira";
     "https://lojasports.com/kits-yoga"; "kits de yoga corporativo"; "E-commerce Esportivo"];
    ["Estratégias de Marketing Digital 2024"; "Portal de Tecnologia";
     "https://agenciaxyz.com/seo"; "consultoria de SEO"; "Agência de Marketing"];
    ["Dicas de Alimentação Saudável"; "Revista Vida Leve";
     "https://nutriapp.com"; "app de nutrição"; "Aplicativo Mobile"] ].

(** One call of [processNextItem] that has passed its guard and is
    waiting for the network: the item it took and the values of the
    render whose effect made the call ([queue], [isDemoMode],
    [batchToken]), together with the key sources read when
    [generateGuestPostContent] was entered. *)
Record task := {
  t_item : QueueItem;
  t_queue : list QueueItem;
  t_isDemoMode : bool;
  t_batchToken : option string;
  t_sources : keySources
}.

Inductive notice := success_notice (msg : string) | error_notice (msg : string).

(** The state of the component, the content of local storage that the
    worker reads ([sources]), the calls in flight ([running]) and, for
    the statements only, the items taken ([started]) and the items
    whose [finally] block has run ([settled]), oldest first. *)
Record state := {
  mode : AppMode;
  articles : list GeneratedArticle;
  notification : option notice;
  isDemoMode : bool;
  bulkImportData : option (string * list row * string);
  queue : list QueueItem;
  isProcessingBatch : bool;
  batchToken : option string;
  batchProgress : BatchProgress;
  sources : keySources;
  running : list task;
  started : list QueueItem;
  settled : list QueueItem
}.

Definition setMode (v : AppMode) (st : state) : state :=
  {| mode := v; articles := articles st; notification := notification st;
     isDemoMode := isDemoMode st; bulkImportData := bulkImportData st; queue := queue st;
     isProcessingBatch := isProcessingBatch st; batchToken := batchToken st;
     batchProgress := batchProgress st; sources := sources st; running := running st;
     started := started st; settled := settled st |}.

Definition setArticles (f : list GeneratedArticle -> list GeneratedArticle) (st : state) : state :=
  {| mode := mode st; articles := f (articles st); notification := notification st;
     isDemoMode := isDemoMode st; bulkImportData := bulkImportData st; queue := queue st;
     isProcessingBatch := isProcessingBatch st; batchToken := batchToken st;
     batchProgress := batchProgress st; sources := sources st; running := running st;
     started := started st; settled := settled st |}.

Definition setNotification (v : option notice) (st : state) : state :=
  {| mode := mode st; articles := articles st; notification := v;
     isDemoMode := isDemoMode st; bulkImportData := bulkImportData st; queue := queue st;
     isProcessingBatch := isProcessingBatch st; batchToken := batchToken st;
     batchProgress := batchProgress st; sources := sources st; running := running st;
     started := started st; settled := settled st |}.

Definition setIsDemoMode (v : bool) (st : state) : state :=
  {| mode := mode st; articles := articles st; notification := notification st;
     isDemoMode := v; bulkImportData := bulkImportData st; queue := queue st;
     isProcessingBatch := isProcessingBatch st; batchToken := batchToken st;
     batchProgress := batchProgress st; sources := sources st; running := running st;
     started := started st; settled := settled st |}.

Definition setBulkImportData (v : option (string * list row * string)) (st : state) : state :=
  {| mode := mode st; articles := articles st; notification := notification st;
     isDemoMode := isDemoMode st; bulkImportData := v; queue := queue st;
     isProcessingBatch := isProcessingBatch st; batchToken := batchToken st;
     batchProgress := batchProgress st; sources := sources st; running := running st;
     started := started st; settled := settled st |}.

Definition setQueue (f : list QueueItem -> list QueueItem) (st : state) : state :=
  {| mode := mode st; articles := articles st; notification := notification st;
     isDemoMode := isDemoMode st; bulkImportData := bulkImportData st; queue := f (queue st);
     isProcessingBatch := isProcessingBatch st; batchToken := batchToken st;
     batchProgress := batchProgress st; sources := sources st; running := running st;
     started := started st; settled := settled st |}.

Definition setIsProcessingBatch (v : bool) (st : state) : state :=
  {| mode := mode st; articles := articles st; notification := notification st;
     isDemoMode := isDemoMode st; bulkImportData := bulkImportData st; queue := queue st;
     isProcessingBatch := v; batchToken := batchToken st;
     batchProgress := batchProgress st; sources := sources st; running := running st;
     started := started st; settled := settled st |}.

Definition setBatchToken (v : option string) (st : state) : state :=
  {| mode := mode st; articles := articles st; notification := notification st;
     isDemoMode := isDemoMode st; bulkImportData := bulkImportData st; queue := queue st;
     isProcessingBatch := isProcessingBatch st; batchToken := v;
     batchProgress := batchProgress st; sources := sources st; running := running st;
     started := started st; settled := settled st |}.

Definition setBatchProgress (f : BatchProgress -> BatchProgress) (st : state) : state :=
  {| mode := mode st; articles := articles st; notification := notification st;
     isDemoMode := isDemoMode st; bulkImportData := bulkImportData st; queue := queue st;
     isProcessingBatch := isProcessingBatch st; batchToken := batchToken st;
     batchProgress := f (batchProgress st); sources := sources st; running := running st;
     started := started st; settled := settled st |}.

Definition setSources (v : keySources) (st : state) : state :=
  {| mode := mode st; articles := articles st; notification := notification st;
     isDemoMode := isDemoMode st; bulkImportData := bulkImportData st; queue := queue st;
     isProcessingBatch := isProcessingBatch st; batchToken := batchToken st;
     batchProgress := batchProgress st; sources := v; running := running st;
     started := started st; settled := settled st |}.

(** a call of [processNextItem] goes in flight *)
Definition spawn (t : task) (st : state) : state :=
  {| mode := mode st; articles := articles st; notification := notification st;
     isDemoMode := isDemoMode st; bulkImportData := bulkImportData st; queue := queue st;
     isProcessingBatch := isProcessingBatch st; batchToken := batchToken st;
     batchProgress := batchProgress st; sources := sources st;
     running := (running st ++ [t])%list;
     started := (started st ++ [t_item t])%list; settled := settled st |}.

(** the oldest call in flight has run its [finally] block *)
Definition retire (t : task) (st : state) : state :=
  {| mode := mode st; articles := articles st; notification := notification st;
     isDemoMode := isDemoMode st; bulkImportData := bulkImportData st; queue := queue st;
     isProcessingBatch := isProcessingBatch st; batchToken := batchToken st;
     batchProgress := batchProgress st; sources := sources st;
     running := tl (running st);
     started := started st; settled := (settled st ++ [t_item t])%list |}.

(** [st'] is [st] but for the article history and for log lines added
    at the end: what the [try] and [catch] blocks of the worker may
    change. *)
Definition workerFrame (st st' : state) : Prop :=
  mode st' = mode st /\ notification st' = notification st
  /\ isDemoMode st' = isDemoMode st /\ bulkImportData st' = bulkImportData st
  /\ queue st' = queue st /\ isProcessingBatch st' = isProcessingBatch st
  /\ batchToken st' = batchToken st /\ sources st' = sources st
  /\ running st' = running st /\ started st' = started st /\ settled st' = settled st
  /\ isActive (batchProgress st') = isActive (batchProgress st)
  /\ total (batchProgress st') = total (batchProgress st)
  /\ processed (batchProgress st') = processed (batchProgress st)
  /\ currentKeyword (batchProgress st') = currentKeyword (batchProgress st)
  /\ exists extra, logs (batchProgress st') = (logs (batchProgress st) ++ extra)%list.

(** a piece of the worker that changes no more than that *)
Definition preserves {A} (m : P state A) : Prop :=
  forall st w r st' w', m st w = (r, st', w') -> workerFrame st st'.

(** [addLog(msg)] *)
Definition addLog (msg : string) : P state unit :=
  update (setBatchProgress (fun prev =>
    {| isActive := isActive prev; total := total prev; processed := processed prev;
       currentKeyword := currentKeyword prev; logs := (logs prev ++ [msg])%list |})).

Definition initial (src : keySources) : state :=
  {| mode := SINGLE; articles := []; notification := None; isDemoMode := false;
     bulkImportData := None; queue := []; isProcessingBatch := false; batchToken := None;
     batchProgress := {| isActive := false; total := 0; processed := 0;
                         currentKeyword := ""; logs := [] |};
     sources := src; running := []; started := []; settled := [] |}.

Section Worker.
(** [JSON.stringify] and [String(v)] of the language; the prompt
    template of [services/gemini.ts]; [convertMarkdownToHtml] of
    [services/drive.ts]; and the title that the two [match]es and the
    [replace] of the worker take from the content (second argument: the
    keyword, used when nothing matches). *)
Variable stringify : json -> string.
Variable text : json -> string.
Variable promptOf : GuestPostRequest -> string.
Variable convertMarkdownToHtml : string -> string -> string.
Variable titleOf : string -> string -> string.

Definition lf : string := String (ascii_of_nat 10) EmptyString.

(** [processNextItem] up to its first [await]: the guard, the three
    state updates, and the call that goes in flight. *)
Definition processNextItem_start (st : state) : state :=
  match queue st with
  | [] => st
  | item :: _ =>
      if isProcessingBatch st then st
      else
        let kw := keyword (request item) in
        let st1 := setIsProcessingBatch true st in
        let st2 := setBatchProgress (fun prev =>
                     {| isActive := true; total := total prev; processed := processed prev;
                        currentKeyword := kw; logs := logs prev |}) st1 in
        let st3 := setBatchProgress (fun prev =>
                     {| isActive := isActive prev; total := total prev;
                        processed := processed prev; currentKeyword := currentKeyword prev;
                        logs := (logs prev ++ [("Iniciando: " ++ kw)%string])%list |}) st2 in
        spawn {| t_item := item; t_queue := queue st; t_isDemoMode := isDemoMode st;
                 t_batchToken := batchToken st; t_sources := sources st |} st3
  end.

(** step 1 of the [try]: the content and its title *)
Definition generateStep (t : task) : P state (string * string) :=
  let item := t_item t in
  let kw := keyword (request item) in
  if t_isDemoMode t then
    lift (delay 1500) ;;;
    retP ("# " ++ kw ++ " (Demo)" ++ lf ++ lf ++ "Conteúdo gerado automaticamente...", kw)
  else
    content <- lift (generateGuestPostContent promptOf (t_sources t) (request item)) ;;
    retP (content, titleOf content kw).

(** step 2 of the [try]: the document and the cell of the sheet *)
Definition exportStep (t : task) (content title : string) : P state (option json * option json) :=
  let item := t_item t in
  if t_isDemoMode t then
    lift (delay 1000) ;;;
    retP (Some (JStr "https://docs.google.com/demo-link"), Some (JStr "demo-id"))
  else
    match t_batchToken t with
    | Some token =>
        if String.eqb token "" then throwP (Error "Token de autenticação perdido.")
        else
          let htmlContent := convertMarkdownToHtml content title in
          driveResult <- lift (Drive.uploadToDrive stringify text token title htmlContent) ;;
          driveUrl <- lift (prop "webViewLink" driveResult) ;;
          driveId <- lift (prop "id" driveResult) ;;
          addLog "Atualizando planilha..." ;;;
          lift (Sheets.updateSheetCell stringify token (sheetId item) (rowIndex item) driveUrl None) ;;;
          retP (driveUrl, driveId)
    | None => throwP (Error "Token de autenticação perdido.")
    end.

(** the body of the [try], after [addLog(`Iniciando: ...`)] *)
Definition tryBlock (t : task) : P state unit :=
  let item := t_item t in
  let kw := keyword (request item) in
  ct <- generateStep t ;;
  addLog "Artigo gerado. Salvando..." ;;;
  drive <- exportStep t (fst ct) (snd ct) ;;
  id <- lift generateId ;;
  now <- lift newDate ;;
  let newArticle :=
    {| a_id := id; requestId := r_id (request item); a_title := snd ct;
       a_content := fst ct; createdAt := now; a_status := completed;
       driveUrl := fst drive; driveId := snd drive |} in
  update (setArticles (fun prev => newArticle :: prev)) ;;;
  addLog ("Sucesso: " ++ Wordpress.dquote ++ kw ++ Wordpress.dquote ++ " - Link salvo na planilha.").

(** the message logged by the [catch] *)
Definition errorText (e : error) : string :=
  let errorMsg := orElse (err_message e) "Erro desconhecido" in
  if JsString.includes "GoogleGenAIError:" errorMsg
  then JsString.trim (JsString.splitSecond "GoogleGenAIError:" errorMsg)
  else errorMsg.

Definition errorLine (t : task) (e : error) : string :=
  "Erro em " ++ Wordpress.dquote ++ keyword (request (t_item t)) ++ Wordpress.dquote
  ++ ": " ++ errorText e.

Definition catchBlock (t : task) (e : error) : P state unit :=
  addLog (errorLine t e).

(** the [finally] block: the cool-down, then the three updates *)
Definition finallyBlock (t : task) : P state unit :=
  (if negb (t_isDemoMode t) && Nat.ltb 1 (List.length (t_queue t))
   then lift (delay 3000) else retP tt) ;;;
  update (setQueue (fun prev => tl prev)) ;;;
  update (setBatchProgress (fun prev =>
    {| isActive := isActive prev; total := total prev; processed := processed prev + 1;
       currentKeyword := currentKeyword prev; logs := logs prev |})) ;;;
  update (setIsProcessingBatch false).

(** [processNextItem] from its first [await] to its end *)
Definition processNextItem_rest (t : task) : P state unit :=
  finallyP (tryP (tryBlock t) (catchBlock t)) (finallyBlock t).

(** the items of [handleSheetImport]: [rowsToProcess.forEach((row, index) => ...)] *)
Fixpoint buildQueue (sheet : string) (rows : list row) (index : nat) : M (list QueueItem) :=
  match rows with
  | [] => ret []
  | r :: rest =>
      match cell r 0 with
      | None => buildQueue sheet rest (S index)
      | Some kw =>
          (rid <- generateId ;;
           let req := {| r_id := rid; keyword := kw;
                         hostNiche := cellOr r 1 "Geral";
                         targetLink := cellOr r 2 "#";
                         anchorText := cellOr r 3 "link";
                         targetNiche := cellOr r 4 "Geral" |} in
           qid <- generateId ;;
           items <- buildQueue sheet rest (S index) ;;
           ret ({| q_id := qid; request := req; rowIndex := index;
                   sheetId := sheet; q_status := pending |} :: items))%js
      end
  end.

(** the queue that an import makes of its rows *)
Definition newQueueOf (st : state) (sheet : string) (rows : list row) : M (list QueueItem) :=
  let rowsToProcess := if isDemoMode st then DEMO_ROWS else rows in
  buildQueue sheet rowsToProcess 0.

(** [handleSheetImport(sheetId, rows, token)] *)
Definition handleSheetImport (sheet : string) (rows : list row) (token : string) : P state unit :=
  fun st =>
  match mode st with
  | BULK_PUBLISH =>
      (update (setBulkImportData (Some (sheet, rows, token))) ;;;
       update (setNotification (Some (success_notice "Dados importados! Revisando...")))) st
  | _ =>
      (newQueue <- lift (newQueueOf st sheet rows) ;;
       if Nat.eqb (List.length newQueue) 0 then
         update (setNotification
                   (Some (error_notice "Nenhuma linha válida encontrada para processar.")))
       else
         update (setBatchToken (Some token)) ;;;
         update (setQueue (fun _ => newQueue)) ;;;
         update (setBatchProgress (fun _ =>
           {| isActive := true; total := List.length newQueue; processed := 0;
              currentKeyword := "";
              logs := ["Importado " ++ JsString.ofNat (List.length newQueue)
                       ++ " linhas. Iniciando fila..."] |})) ;;;
         update (setNotification
                   (Some (success_notice "Processamento iniciado em segundo plano!")))) st
  end.

(** [onClose] of the status panel *)
Definition closePanel : P state unit :=
  update (setBatchProgress (fun prev =>
    {| isActive := false; total := 0; processed := 0;
       currentKeyword := currentKeyword prev; logs := [] |})).

(** [BatchStatus] renders nothing when [!progress.isActive &&
    progress.processed === 0], and its close button only under
    [isComplete], that is [processed === total && total > 0]; the panel
    is taken expanded, as it is until its header is clicked *)
Definition closeButtonShown (st : state) : bool :=
  let progress := batchProgress st in
  negb (negb (isActive progress) && Nat.eqb (processed progress) 0)
  && (Nat.eqb (processed progress) (total progress) && Nat.ltb 0 (total progress)).

(** What can happen to the component. *)
Inductive event :=
| SheetImport (sheet : string) (rows : list row) (token : string)
| Settle
| ClosePanel
| Navigate (m : AppMode)
| SettingsSaved (demo : bool) (src : keySources).

Definition config : Type := state * world.

(** the handler of an event; an exception of a handler leaves the state
    as it was at the throw.  [ClosePanel] is a click on the close button
    of the status panel: where the button is not rendered there is
    nothing to click, and nothing happens. *)
Definition handle (ev : event) (c : config) : config :=
  let '(st, w) := c in
  match ev with
  | SheetImport sheet rows token =>
      match handleSheetImport sheet rows token st w with (_, st', w') => (st', w') end
  | Settle =>
      match running st with
      | [] => (st, w)
      | t :: _ =>
          match processNextItem_rest t st w with (_, st', w') => (retire t st', w') end
      end
  | ClosePanel =>
      if closeButtonShown st
      then match closePanel st w with (_, st', w') => (st', w') end
      else (st, w)
  | Navigate m =>
      (setBulkImportData None (setMode m st), w)
  | SettingsSaved demo src =>
      (setNotification (Some (success_notice "Salvo!"))
         (setMode SINGLE (setIsDemoMode demo (setSources src st))), w)
  end.

(** An event, the render that follows it, and the effect of that render:
    [processNextItem()] with the values of the render.  The state
    updates of a handler, and those that [processNextItem] makes before
    its first [await], are applied before the next event is handled. *)
Definition step (c : config) (ev : event) : config :=
  let '(st, w) := handle ev c in
  (processNextItem_start st, w).

Definition run (evs : list event) (c : config) : config := fold_left step evs c.

End Worker.
End App.

(* ================================================================== *)
(** ** Concrete worlds, sites and sheets for the examples *)
(* ================================================================== *)

Module Examples.
Import Js Wordpress.

(** The n-th interaction is answered by the n-th reply of a script, and
    by its last reply from then on; the provider returns a short
    article for every key. *)
Definition scripted (replies : list reply) (last : reply) : world :=
  {| net := fun n _ => nth n replies last;
     llm := fun _ _ _ => GenText "# Title";
     rnd := fun n => JsString.ofNat n;
     clock := fun n => n;
     ticks := 0;
     trace := [] |}.

Definition exampleSite : WordpressSite :=
  {| site_id := "1"; site_name := "Example"; site_url := "example.com/wp-admin/";
     site_username := "admin"; site_appPassword := "abcd efgh" |}.

Definition exampleFile : file :=
  {| file_name := "cover.png"; file_type := "image/png"; file_bytes := "PNG" |}.

Definition created (id : nat) : reply := Answered 200 (Parsed (JObj [("id", JNum id)])).

Definition exampleOptions : RequestInit :=
  {| opt_method := "GET"; opt_headers := []; opt_body := NoBody |}.

(** a draft with an image, matched to [exampleSite] *)
Definition exampleDraft : Bulk.BulkPostDraft :=
  {| Bulk.d_id := "d1"; Bulk.sheetRowIndex := 0; Bulk.d_keyword := "yoga";
     Bulk.originalDocUrl := ""; Bulk.siteUrlFromSheet := "example.com";
     Bulk.d_title := "yoga"; Bulk.d_content := "Artigo sobre: yoga";
     Bulk.matchedSiteId := "1"; Bulk.d_slug := "yoga"; Bulk.metaDesc := "";
     Bulk.image := Some exampleFile; Bulk.imagePreview := "blob:1";
     Bulk.categoryId := JStr ""; Bulk.d_status := Bulk.idle;
     Bulk.errorMsg := None; Bulk.publishedLink := None |}.

Definition exampleBulk : Bulk.state :=
  {| Bulk.drafts := [exampleDraft]; Bulk.sites := [exampleSite] |}.

(** one stored key, a document store and a sheet that accept
    everything *)
Definition exampleSources : Gemini.keySources :=
  {| Gemini.stored := Some ["key-1"]; Gemini.envKey := None |}.

Definition documentStored : reply :=
  Answered 200 (Parsed (JObj [("id", JStr "doc-1");
                              ("webViewLink", JStr "https://docs.example/doc-1")])).

Definition exampleWorld : world := scripted [] documentStored.

Definition exampleRows : list App.row := [["A"]; ["B"]].

(** three stored keys, and a provider that refuses the first two
    attempts of a call *)
Definition threeKeys : Gemini.keySources :=
  {| Gemini.stored := Some ["key-1"; "key-2"; "key-3"]; Gemini.envKey := Some "key-2" |}.

Definition quotaWorld : world :=
  {| net := fun _ _ => documentStored;
     llm := fun n _ _ => if Nat.ltb n 2 then GenThrows (Error "429 quota") else GenText "# ok";
     rnd := fun n => JsString.ofNat n;
     clock := fun n => n;
     ticks := 0;
     trace := [] |}.

Definition exampleRequest : Gemini.GuestPostRequest :=
  {| Gemini.r_id := "r1"; Gemini.keyword := "yoga"; Gemini.hostNiche := "Geral";
     Gemini.targetLink := "#"; Gemini.anchorText := "link"; Gemini.targetNiche := "Geral" |}.

(** the jobs that the import of [exampleRows] makes in the initial
    state, and the world after it *)
Definition exampleJobs : list App.QueueItem :=
  Eval cbv in
    match fst (App.newQueueOf (App.initial exampleSources) "sheet" exampleRows exampleWorld) with
    | Ok jobs => jobs
    | Throw _ => []
    end.

Definition exampleWorldAfterImport : world :=
  snd (App.newQueueOf (App.initial exampleSources) "sheet" exampleRows exampleWorld).

(** stand-ins for the functions that the worker and the publisher take
    from the language and from the converters *)
Definition plain (j : json) : string := "".
Definition sameText (s : string) : string := s.
Definition keywordPrompt (r : Gemini.GuestPostRequest) : string := Gemini.keyword r.
Definition contentOnly (content title : string) : string := content.
Definition keywordTitle (content kw : string) : string := kw.
Definition sameNumber (j : json) : json := j.

End Examples.

(* ================================================================== *)
(** ** services/wordpress.ts, the rest *)
(* ================================================================== *)

Module WordpressExtra.
Import Js Wordpress.
Local Open Scope js_scope.

(** the URLs of the four upload attempts of [uploadWpMedia], in order *)
Definition uploadUrl (baseUrl : string) (k : nat) : string :=
  match k with
  | 1 => proxied false (baseUrl ++ "/wp-json/wp/v2/media")
  | 2 => proxied false (baseUrl ++ "/?rest_route=/wp/v2/media")
  | 3 => proxied true (baseUrl ++ "/wp-json/wp/v2/media")
  | _ => proxied true (baseUrl ++ "/?rest_route=/wp/v2/media")
  end.

(** What one attempt of [uploadWpMedia] ([tryUpload], then [data.id])
    makes of the reply to its request. *)
Definition uploadOutcome (r : reply) : outcome (option json) :=
  match r with
  | Rejected e => Throw e
  | Answered status body =>
      if negb (ok status) then
        if Nat.eqb status 401 then Throw (Error "AUTH_ERROR")
        else Throw (Error ("Status " ++ JsString.ofNat status))
      else
        match body with
        | Unparsable e => Throw e
        | Parsed JNull =>
            Throw (TypeError ("Cannot read properties of null (reading '" ++ "id" ++ "')"))
        | Parsed (JObj fields) => Ok (lookup "id" fields)
        | Parsed _ => Ok None
        end
  end.

Section WithBuiltins.
Variable btoa : string -> string.

(** [fetchWpCategories(site)] *)
Definition categoriesOptions : RequestInit :=
  {| opt_method := "GET"; opt_headers := []; opt_body := NoBody |}.

Definition fetchWpCategories (site : WordpressSite) : M json :=
  try (fetchWpWithFallback btoa site "/categories?per_page=100&hide_empty=0" categoriesOptions)
      (fun error =>
         throw (Error (orElse (err_message error) "Não foi possível carregar as categorias."))).

End WithBuiltins.
End WordpressExtra.

(* ================================================================== *)
(** ** components/Settings.tsx, the rest *)
(* ================================================================== *)

Module SettingsExtra.

(** a key as [addGeminiKey] stores it: trimmed and not empty *)
Definition clean (k : string) : Prop := k <> "" /\ JsString.trim k = k.

Import Js Wordpress.
Local Open Scope component_scope.

(** the site list of the settings screen with its edit dialogue, and
    the array written under [guestpost_wp_sites] in local storage
    ([None]: nothing written yet) *)
Record sitesPanel := {
  wpSites : list WordpressSite;
  isEditSiteOpen : bool;
  editingSite : option WordpressSite;
  storedWpSites : option (list WordpressSite)
}.

(** [handleEditSite(site)] *)
Definition handleEditSite (site : WordpressSite) : P sitesPanel unit :=
  update (fun p =>
    {| wpSites := wpSites p; isEditSiteOpen := true; editingSite := Some site;
       storedWpSites := storedWpSites p |}).

(** [handleDeleteSite(id)]; [confirmed] is the answer to [confirm(...)] *)
Definition handleDeleteSite (confirmed : bool) (id : string) : P sitesPanel unit :=
  fun p =>
  if confirmed then
    let updated := filter (fun s => negb (String.eqb (site_id s) id)) (wpSites p) in
    update (fun p' =>
      {| wpSites := updated; isEditSiteOpen := isEditSiteOpen p';
         editingSite := editingSite p'; storedWpSites := Some updated |}) p
  else retP tt p.

(** the form of the dialogue is complete *)
Definition complete (site : WordpressSite) : bool :=
  negb (String.eqb (site_name site) "") && negb (String.eqb (site_url site) "")
  && negb (String.eqb (site_username site) "") && negb (String.eqb (site_appPassword site) "").

(** [handleSaveSite()] *)
Definition handleSaveSite : P sitesPanel unit :=
  fun p =>
  match editingSite p with
  | None => lift (alert "Preencha todos os campos do site.") p
  | Some site =>
      if negb (complete site) then lift (alert "Preencha todos os campos do site.") p
      else
        let isNew := match find (fun s => String.eqb (site_id s) (site_id site)) (wpSites p) with
                     | Some _ => false
                     | None => true
                     end in
        let updatedSites :=
          if isNew then (wpSites p ++ [site])%list
          else map (fun s => if String.eqb (site_id s) (site_id site) then site else s)
                   (wpSites p) in
        update (fun _ =>
          {| wpSites := updatedSites; isEditSiteOpen := false; editingSite := None;
             storedWpSites := Some updatedSites |}) p
  end.

End SettingsExtra.

(* ================================================================== *)
(** ** App.tsx and components/BatchStatus.tsx, the rest *)
(* ================================================================== *)

Module AppExtra.
Import Js Gemini App.

(** [BatchStatus]: [if (!progress.isActive && progress.processed === 0) return null] *)
Definition panelHidden (progress : BatchProgress) : bool :=
  negb (isActive progress) && Nat.eqb (processed progress) 0.

(** [const isComplete = progress.processed === progress.total && progress.total > 0] *)
Definition isComplete (progress : BatchProgress) : bool :=
  Nat.eqb (processed progress) (total progress) && Nat.ltb 0 (total progress).

(** a piece of the worker that leaves the article history as it is *)
Definition keepsArticles {A} (m : P state A) : Prop :=
  forall st w r st' w', m st w = (r, st', w') -> articles st' = articles st.

(** the rows of a sheet that have a keyword, each with its index in the
    sheet data, [index] being that of the first row *)
Definition keywordCells (rows : list row) (index : nat) : list (nat * string) :=
  flat_map (fun ir => match cell (snd ir) 0 with
                      | Some kw => [(fst ir, kw)]
                      | None => []
                      end)
           (combine (seq index (List.length rows)) rows).

(** the call of the worker that takes the head of [q], made in a render
    with the settings of [st] *)
Definition nextTask (st : state) (q : list QueueItem) : list task :=
  match q with
  | [] => []
  | item :: _ => [{| t_item := item; t_queue := q; t_isDemoMode := isDemoMode st;
                     t_batchToken := batchToken st; t_sources := sources st |}]
  end.

Local Open Scope component_scope.

(** the component with the two pieces of state of the single post
    screen *)
Record shell := {
  component : state;
  isLoading : bool;
  activeArticle : option GeneratedArticle
}.

Definition setIsLoading (v : bool) (sh : shell) : shell :=
  {| component := component sh; isLoading := v; activeArticle := activeArticle sh |}.

Definition setActiveArticle (v : option GeneratedArticle) (sh : shell) : shell :=
  {| component := component sh; isLoading := isLoading sh; activeArticle := v |}.

Definition inApp (f : state -> state) (sh : shell) : shell :=
  {| component := f (component sh); isLoading := isLoading sh; activeArticle := activeArticle sh |}.

Section Single.
(** the prompt template of [services/gemini.ts], and the title that the
    two [match]es and the [replace] take from the content (second
    argument: the keyword, used when nothing matches) *)
Variable promptOf : GuestPostRequest -> string.
Variable titleOf : string -> string -> string.

(** the body of the [try] of [handleGenerate]; [src] is what local
    storage holds when the generation client is entered *)
Definition generateBody (src : keySources) (req : GuestPostRequest) : P shell unit :=
  content <- lift (generateGuestPostContent promptOf src req) ;;
  let title := titleOf content (keyword req) in
  id <- lift generateId ;;
  now <- lift newDate ;;
  let newArticle :=
    {| a_id := id; requestId := r_id req; a_title := title; a_content := content;
       createdAt := now; a_status := completed; driveUrl := None; driveId := None |} in
  update (inApp (setArticles (fun prev => newArticle :: prev))) ;;;
  update (setActiveArticle (Some newArticle)) ;;;
  update (inApp (setNotification (Some (success_notice "Artigo gerado com sucesso!")))).

(** [handleGenerate(req)] *)
Definition handleGenerate (req : GuestPostRequest) : P shell unit :=
  fun sh =>
  (update (setIsLoading true) ;;;
   finallyP (tryP (generateBody (sources (component sh)) req)
                  (fun _ => update (inApp (setNotification
                     (Some (error_notice "Falha ao gerar artigo. Verifique o console."))))))
            (update (setIsLoading false))) sh.

End Single.
End AppExtra.

(* ================================================================== *)
(** ** components/BulkPostManager.tsx, the rest *)
(* ================================================================== *)

Module BulkExtra.
Import Js Wordpress Bulk.
Local Open Scope component_scope.

(** [s.replace(/^https?:\/\//, '')], without the [i] flag *)
Definition stripProtocol (s : string) : string :=
  if JsString.startsWith "https://" s then JsString.drop 8 s
  else if JsString.startsWith "http://" s then JsString.drop 7 s
  else s.

(** [s.replace(/^https?:\/\//, '').replace(/\/$/, '')] *)
Definition normalizeUrl (s : string) : string :=
  JsString.stripTrailingSlash (stripProtocol s).

(** the site that [processRows] finds for the site URL of a row *)
Definition matchSite (sites : list WordpressSite) (siteUrl : string) : option WordpressSite :=
  find (fun s =>
          if String.eqb siteUrl "" then false
          else String.eqb (normalizeUrl (site_url s)) (normalizeUrl siteUrl))
       sites.

(** [handleRemoveDraft(id)] *)
Definition handleRemoveDraft (id : string) : P state unit :=
  update (fun st =>
    {| drafts := filter (fun d => negb (String.eqb (d_id d) id)) (drafts st);
       sites := sites st |}).

(** the fields of the add-site dialogue *)
Record siteForm := {
  f_name : string;
  f_url : string;
  f_username : string;
  f_appPassword : string
}.

(** the component with its add-site dialogue, and the array that it
    writes under [guestpost_wp_sites] in local storage ([None]: nothing
    written yet) *)
Record manager := {
  core : state;
  newSite : siteForm;
  isAddSiteModalOpen : bool;
  storedSites : option (list WordpressSite)
}.

(** [{ ...d, matchedSiteId: site.id }] *)
Definition withSite (siteId : string) (d : BulkPostDraft) : BulkPostDraft :=
  {| d_id := d_id d; sheetRowIndex := sheetRowIndex d; d_keyword := d_keyword d;
     originalDocUrl := originalDocUrl d; siteUrlFromSheet := siteUrlFromSheet d;
     d_title := d_title d; d_content := d_content d; matchedSiteId := siteId;
     d_slug := d_slug d; metaDesc := metaDesc d; image := image d;
     imagePreview := imagePreview d; categoryId := categoryId d;
     d_status := d_status d; errorMsg := errorMsg d; publishedLink := publishedLink d |}.

(** the function mapped over the drafts at the end of [handleAddSite] *)
Definition autoMatch (site : WordpressSite) (d : BulkPostDraft) : BulkPostDraft :=
  let sUrl := normalizeUrl (site_url site) in
  let rowUrlNorm := normalizeUrl (siteUrlFromSheet d) in
  if String.eqb sUrl rowUrlNorm && String.eqb (matchedSiteId d) ""
  then withSite (site_id site) d
  else d.

(** [handleAddSite()]; [Date.now()] reads the clock *)
Definition handleAddSite : P manager unit :=
  fun m =>
  let f := newSite m in
  if String.eqb (f_name f) "" || String.eqb (f_url f) ""
     || String.eqb (f_username f) "" || String.eqb (f_appPassword f) ""
  then retP tt m
  else
    (now <- lift newDate ;;
     let site := {| site_id := JsString.ofNat now;
                    site_name := f_name f;
                    site_url := JsString.stripTrailingSlash (f_url f);
                    site_username := f_username f;
                    site_appPassword := f_appPassword f |} in
     let updatedSites := (sites (core m) ++ [site])%list in
     update (fun m' =>
       {| core := {| drafts := map (autoMatch site) (drafts (core m'));
                     sites := updatedSites |};
          newSite := {| f_name := ""; f_url := ""; f_username := ""; f_appPassword := "" |};
          isAddSiteModalOpen := false;
          storedSites := Some updatedSites |})) m.

End BulkExtra.

(* ================================================================== *)
(** ** services/sheets.ts, the rest *)
(* ================================================================== *)

Module SheetsExtra.
Import Js.
Local Open Scope js_scope.

(** a character of the class [[a-zA-Z0-9-_]] *)
Definition idChar (c : ascii) : bool :=
  let n := nat_of_ascii c in
  (Nat.leb 97 n && Nat.leb n 122) || (Nat.leb 65 n && Nat.leb n 90)
  || (Nat.leb 48 n && Nat.leb n 57) || Ascii.eqb c "-" || Ascii.eqb c "_".

(** the longest prefix of [s] made of such characters: what the greedy
    [[a-zA-Z0-9-_]+] takes *)
Fixpoint idPrefix (s : string) : string :=
  match s with
  | EmptyString => EmptyString
  | String c s' => if idChar c then String c (idPrefix s') else EmptyString
  end.

(** group 1 of [s.match(/\/d\/([a-zA-Z0-9-_]+)/)]: the leftmost place
    where [/d/] is followed by at least one such character *)
Fixpoint matchId (s : string) : option string :=
  let here := if JsString.startsWith "/d/" s
              then idPrefix (JsString.drop 3 s) else EmptyString in
  if negb (String.eqb here EmptyString) then Some here
  else match s with
       | EmptyString => None
       | String _ s' => matchId s'
       end.

(** [s.length]: the UTF-16 code units of the text whose UTF-8 bytes are
    [s]; a continuation byte counts for nothing, the first byte of a
    four-byte sequence for two *)
Fixpoint utf16Length (s : string) : nat :=
  match s with
  | EmptyString => 0
  | String c s' =>
      let n := nat_of_ascii c in
      (if Nat.ltb n 128 || Nat.leb 192 n then 1 else 0)
      + (if Nat.leb 240 n then 1 else 0)
      + utf16Length s'
  end.

(** [extractSheetId(urlOrId)]; [None] is [null] *)
Definition extractSheetId (urlOrId : string) : option string :=
  match matchId urlOrId with
  | Some id => Some id
  | None => if Nat.ltb 20 (utf16Length urlOrId) then Some urlOrId else None
  end.

Section WithText.
(** [String(v)] of the language *)
Variable text : json -> string.

(** the request of [fetchSheetRows]; a [fetch] without method is a GET *)
Definition fetchSheetRows_request (accessToken spreadsheetId : string) : request :=
  {| req_url := "https://sheets.googleapis.com/v4/spreadsheets/" ++ spreadsheetId
                ++ "/values/A2:E";
     req_method := "GET";
     req_headers := [("Authorization", "Bearer " ++ accessToken)];
     req_body := NoBody |}.

(** [fetchSheetRows(accessToken, spreadsheetId)] *)
Definition fetchSheetRows (accessToken spreadsheetId : string) : M json :=
  response <- fetch (fetchSheetRows_request accessToken spreadsheetId) ;;
  match response with
  | Rejected e => throw e
  | Answered status body =>
      if negb (ok status) then
        err <- json_of body ;;
        msg <- Drive.errorMessage text err "Erro ao ler a planilha" ;;
        throw (Error msg)
      else
        data <- json_of body ;;
        values <- prop "values" data ;;
        ret (if truthy values
             then match values with Some v => v | None => JArr [] end
             else JArr [])
  end.

End WithText.
End SheetsExtra.

(* ================================================================== *)
(** ** components/WordpressPublisher.tsx *)
(* ================================================================== *)

Module Publisher.
Import Js Wordpress.
Local Open Scope component_scope.

Inductive publishing_status := idle | uploading_img | drafting | publishing.

(** the state of the editor that [handlePublish] reads and writes;
    [successMsg] is the pair of the message and the link, and
    [publishedData] the pair of the link and the title *)
Record state := {
  title : string;
  content : string;
  slug : string;
  metaDesc : string;
  imageFile : option file;
  sites : list WordpressSite;
  selectedSiteId : string;
  selectedCategoryId : json;
  publishingStatus : publishing_status;
  error : string;
  successMsg : option (string * option json);
  publishedData : option (option json * string)
}.

Definition setPublishingStatus (v : publishing_status) (st : state) : state :=
  {| title := title st; content := content st; slug := slug st; metaDesc := metaDesc st;
     imageFile := imageFile st; sites := sites st; selectedSiteId := selectedSiteId st;
     selectedCategoryId := selectedCategoryId st; publishingStatus := v; error := error st;
     successMsg := successMsg st; publishedData := publishedData st |}.

Definition setError (v : string) (st : state) : state :=
  {| title := title st; content := content st; slug := slug st; metaDesc := metaDesc st;
     imageFile := imageFile st; sites := sites st; selectedSiteId := selectedSiteId st;
     selectedCategoryId := selectedCategoryId st; publishingStatus := publishingStatus st;
     error := v; successMsg := successMsg st; publishedData := publishedData st |}.

Definition setSuccessMsg (v : option (string * option json)) (st : state) : state :=
  {| title := title st; content := content st; slug := slug st; metaDesc := metaDesc st;
     imageFile := imageFile st; sites := sites st; selectedSiteId := selectedSiteId st;
     selectedCategoryId := selectedCategoryId st; publishingStatus := publishingStatus st;
     error := error st; successMsg := v; publishedData := publishedData st |}.

Definition setPublishedData (v : option (option json * string)) (st : state) : state :=
  {| title := title st; content := content st; slug := slug st; metaDesc := metaDesc st;
     imageFile := imageFile st; sites := sites st; selectedSiteId := selectedSiteId st;
     selectedCategoryId := selectedCategoryId st; publishingStatus := publishingStatus st;
     error := error st; successMsg := successMsg st; publishedData := v |}.

(** [getSelectedSite()] *)
Definition getSelectedSite (st : state) : option WordpressSite :=
  find (fun s => String.eqb (site_id s) (selectedSiteId st)) (sites st).

Definition successText (status : post_status) : string :=
  match status with
  | publish => "Post publicado com sucesso!"
  | draft => "Rascunho salvo com sucesso!"
  end.

Section WithBuiltins.
(** [btoa], the message of its [InvalidCharacterError], [JSON.stringify]
    and [Number] of the language, and [markdownToHtml] of
    [services/wordpress.ts] *)
Variable btoa : string -> string.
Variable invalidCharacter : string.
Variable stringify : json -> string.
Variable markdownToHtml : string -> string.
Variable toNumber : json -> json.

(** the argument of [createWpPost] in [handlePublish]; [st] is the
    state of the render in which the button was clicked *)
Definition publishParams (st : state) (status : post_status) (featuredMediaId : option json)
  : CreatePostParams :=
  {| p_title := title st;
     p_content := content st;
     p_status := status;
     p_slug := slug st;
     p_excerpt := Some (metaDesc st);
     p_categories := Some (if truthy (Some (selectedCategoryId st))
                           then [toNumber (selectedCategoryId st)] else []);
     p_featuredMediaId := featuredMediaId |}.

(** the body of the [try] of [handlePublish] *)
Definition publishBody (st : state) (site : WordpressSite) (status : post_status)
  : P state unit :=
  featuredMediaId <-
    match imageFile st with
    | Some f => update (setPublishingStatus uploading_img) ;;; lift (WordpressClient.uploadWpMedia btoa invalidCharacter site f)
    | None => retP None
    end ;;
  update (setPublishingStatus (match status with publish => publishing | draft => drafting end)) ;;;
  result <- lift (WordpressClient.createWpPost btoa invalidCharacter stringify markdownToHtml
                    site (publishParams st status featuredMediaId)) ;;
  link <- lift (prop "link" result) ;;
  update (setSuccessMsg (Some (successText status, link))) ;;;
  match status with
  | publish => update (setPublishedData (Some (link, title st)))
  | draft => retP tt
  end.

(** [handlePublish(status)] *)
Definition handlePublish (status : post_status) : P state unit :=
  fun st =>
  (update (setError "") ;;;
   update (setSuccessMsg None) ;;;
   update (setPublishedData None) ;;;
   match getSelectedSite st with
   | None => update (setError "Selecione um site para publicar.")
   | Some site =>
       if String.eqb (JsString.trim (title st)) ""
          || String.eqb (JsString.trim (content st)) ""
       then update (setError "Título e conteúdo são obrigatórios.")
       else
         finallyP (tryP (publishBody st site status)
                        (fun err => update (setError (err_message err))))
                  (update (setPublishingStatus idle))
   end) st.

End WithBuiltins.
End Publisher.

(* ================================================================== *)
(** ** More concrete states for the examples *)
(* ================================================================== *)

Module MoreExamples.
Import Js Wordpress Examples.

Definition noItem : App.QueueItem :=
  {| App.q_id := ""; App.request := exampleRequest; App.rowIndex := 0;
     App.sheetId := ""; App.q_status := App.pending |}.

(** the component after the import of [exampleRows]: the job of the
    first row is in flight *)
Definition busy : App.config :=
  App.run plain plain keywordPrompt contentOnly keywordTitle
    [App.SheetImport "sheet" exampleRows "tok"] (App.initial exampleSources, exampleWorld).

Definition busyTask : App.task :=
  match App.running (fst busy) with
  | t :: _ => t
  | [] => {| App.t_item := noItem; App.t_queue := []; App.t_isDemoMode := false;
             App.t_batchToken := None; App.t_sources := exampleSources |}
  end.

(** a second sheet, imported while that job is in flight *)
Definition secondRows : list App.row := [["C"]; ["D"]].

Definition secondJobs : list App.QueueItem :=
  Eval cbv in
  match fst (App.newQueueOf (fst busy) "sheet-2" secondRows (snd busy)) with
  | Ok jobs => jobs
  | Throw _ => []
  end.

Definition worldAfterSecondImport : world :=
  snd (App.newQueueOf (fst busy) "sheet-2" secondRows (snd busy)).

(** the initial state with demo mode on *)
Definition demoState : App.state := App.setIsDemoMode true (App.initial exampleSources).

Definition savedSite : WordpressSite :=
  {| site_id := "2"; site_name := "Blog"; site_url := "http://example.com";
     site_username := "admin"; site_appPassword := "abcd efgh" |}.

(** the wait of 3000 ms between two jobs *)
Definition isCoolDown (ev : event) : bool :=
  match ev with
  | Delay ms => Nat.eqb ms 3000
  | _ => false
  end.

(** the events of [c'] that [c] does not have yet *)
Definition eventsSince (c c' : App.config) : list event :=
  skipn (List.length (trace (snd c))) (trace (snd c')).

(** the keywords of the jobs of the queue, and of the job in flight *)
Definition queued (c : App.config) : list string :=
  map (fun i => Gemini.keyword (App.request i)) (App.queue (fst c)).

Definition inFlight (c : App.config) : list string :=
  map (fun t => Gemini.keyword (App.request (App.t_item t))) (App.running (fst c)).


End MoreExamples.

(* ================================================================== *)
(** * Properties *)
(* ================================================================== *)

(** ** Strings *)

Module JsStringFacts.
Import JsString.

Lemma startsWith_app p x r : startsWith p x = true -> startsWith p (x ++ r) = true.
Proof.
  revert x; induction p as [|a p IH]; intros x H; [reflexivity|].
  destruct x as [|b x]; simpl in *; [discriminate|].
  apply andb_true_iff in H as [Hab Hp].
  rewrite Hab; simpl; auto.
Qed.

Lemma includes_app p x r : includes p x = true -> includes p (x ++ r) = true.
Proof.
  induction x as [|c x IH]; simpl; intros H.
  - rewrite orb_false_r in H.
    destruct p; [|discriminate].
    destruct r; reflexivity.
  - apply orb_true_iff in H as [H|H].
    + pose proof (startsWith_app p (String c x) r H) as H'.
      change (String c x ++ r) with (String c (x ++ r)) in H'.
      rewrite H'; reflexivity.
    + rewrite (IH H); apply orb_true_r.
Qed.

Lemma leading_app toks x r t : leading toks x = Some t -> leading toks (x ++ r) <> None.
Proof.
  induction toks as [|t' toks IH]; simpl; [discriminate|].
  destruct (startsWith t' x) eqn:E.
  - rewrite (startsWith_app _ _ r E); discriminate.
  - intros H; destruct (startsWith t' (x ++ r)); [discriminate | auto].
Qed.

Lemma singleLine_cons c s :
  singleLine (String c s) =
  match leading lineTerminators (String c s) with
  | Some _ => false
  | None => singleLine s
  end.
Proof. reflexivity. Qed.

Lemma singleLine_prefix x r : singleLine (x ++ r) = true -> singleLine x = true.
Proof.
  induction x as [|c x IH]; intros H.
  - reflexivity.
  - change (String c x ++ r) with (String c (x ++ r)) in H.
    rewrite singleLine_cons in H |- *.
    destruct (leading lineTerminators (String c x)) eqn:E.
    + apply (leading_app _ _ r) in E.
      change (String c x ++ r) with (String c (x ++ r)) in E.
      destruct (leading lineTerminators (String c (x ++ r))); [discriminate | congruence].
    + destruct (leading lineTerminators (String c (x ++ r))); [discriminate | auto].
Qed.

Lemma singleLine_tail c s : singleLine (String c s) = true -> singleLine s = true.
Proof.
  rewrite singleLine_cons.
  destruct (leading lineTerminators (String c s)); [discriminate | auto].
Qed.

Lemma singleLine_drop n s : singleLine s = true -> singleLine (drop n s) = true.
Proof.
  revert s; induction n as [|n IH]; intros s H; [exact H|].
  destruct s as [|c s]; [reflexivity|].
  simpl. apply IH. eapply singleLine_tail; eauto.
Qed.

(** A [replace] of this kind only ever cuts a tail off. *)
Lemma cutFrom_cons pat c s :
  cutFrom pat (String c s) =
  if startsWith pat (String c s) && singleLine (drop (String.length pat) (String c s))
  then EmptyString else String c (cutFrom pat s).
Proof. reflexivity. Qed.

Lemma cutFrom_empty pat : cutFrom pat EmptyString = EmptyString.
Proof. simpl. destruct (startsWith pat "" && _); reflexivity. Qed.

Lemma cutFrom_prefix pat s : exists r, s = cutFrom pat s ++ r.
Proof.
  induction s as [|c s [r IH]].
  - exists EmptyString. rewrite cutFrom_empty. reflexivity.
  - rewrite cutFrom_cons.
    destruct (startsWith pat (String c s) && _).
    + exists (String c s); reflexivity.
    + exists r. change (String c (cutFrom pat s) ++ r) with (String c (cutFrom pat s ++ r)).
      congruence.
Qed.

Lemma removeLast_prefix s : exists r, s = removeLast s ++ r.
Proof.
  induction s as [|c s [r IH]].
  - exists EmptyString; reflexivity.
  - destruct s as [|c' s].
    + exists (String c EmptyString); reflexivity.
    + exists r. change (removeLast (String c (String c' s)) ++ r)
        with (String c (removeLast (String c' s) ++ r)). congruence.
Qed.

Lemma stripTrailingSlash_prefix s : exists r, s = stripTrailingSlash s ++ r.
Proof.
  unfold stripTrailingSlash. destruct (endsWithSlash s).
  - apply removeLast_prefix.
  - exists EmptyString. induction s; simpl; congruence.
Qed.

Lemma append_assoc (a b c : string) : (a ++ b) ++ c = a ++ (b ++ c).
Proof. induction a; simpl; congruence. Qed.

(** After the cut, the pattern occurs nowhere in a one-line input. *)
Lemma cutFrom_removes pat s :
  pat <> EmptyString -> singleLine s = true -> includes pat (cutFrom pat s) = false.
Proof.
  intros Hp. induction s as [|c s IH]; intros Hs.
  - rewrite cutFrom_empty. destruct pat; [congruence | reflexivity].
  - rewrite cutFrom_cons.
    destruct (startsWith pat (String c s)) eqn:E.
    + rewrite (singleLine_drop _ _ Hs). simpl.
      destruct pat; [congruence | reflexivity].
    + simpl andb. cbv iota.
      assert (Hs' := singleLine_tail _ _ Hs).
      change (includes pat (String c (cutFrom pat s)))
        with (startsWith pat (String c (cutFrom pat s)) || includes pat (cutFrom pat s)).
      rewrite (IH Hs'), orb_false_r.
      destruct (startsWith pat (String c (cutFrom pat s))) eqn:E'; [|reflexivity].
      destruct (cutFrom_prefix pat s) as [r Hr].
      apply (startsWith_app _ _ r) in E'.
      change (String c (cutFrom pat s) ++ r) with (String c (cutFrom pat s ++ r)) in E'.
      rewrite <- Hr in E'. congruence.
Qed.

Lemma includes_prefix_false pat x r : includes pat (x ++ r) = false -> includes pat x = false.
Proof.
  intros H. destruct (includes pat x) eqn:E; [|reflexivity].
  rewrite (includes_app _ _ r E) in H. discriminate.
Qed.

End JsStringFacts.

(** ** The monad of asynchronous code *)

Module JsFacts.
Import Js.

Lemma extends_refl w : extends w w [].
Proof. unfold extends. rewrite app_nil_r. auto. Qed.

Lemma extends_trans w1 w2 w3 e1 e2 :
  extends w1 w2 e1 -> extends w2 w3 e2 -> extends w1 w3 (e1 ++ e2)%list.
Proof.
  unfold extends. intros (T1 & A1 & B1 & C1 & D1) (T2 & A2 & B2 & C2 & D2).
  rewrite T2, T1, app_assoc. repeat split; congruence.
Qed.

Lemma extends_record w ev : extends w (record ev w) [ev].
Proof. unfold extends, record; simpl; auto. Qed.

Lemma length_trace_record ev w :
  List.length (trace (record ev w)) = S (List.length (trace w)).
Proof. unfold record; simpl. rewrite length_app. simpl. lia. Qed.

Lemma extends_tick w : extends w (tick w) [].
Proof. unfold extends, tick; simpl. rewrite app_nil_r. auto. Qed.

Lemma emits_ret {A} Q (a : A) : emits Q (ret a).
Proof.
  intros w r w' H. inversion H; subst. exists []. split; [apply extends_refl | constructor].
Qed.

Lemma emits_throw {A} Q e : emits Q (@throw A e).
Proof.
  intros w r w' H. inversion H; subst. exists []. split; [apply extends_refl | constructor].
Qed.

Lemma emits_bind {A B} Q (m : M A) (k : A -> M B) :
  emits Q m -> (forall a, emits Q (k a)) -> emits Q (bind m k).
Proof.
  intros Hm Hk w r w' H. unfold bind in H.
  destruct (m w) as [[a|e] w1] eqn:E.
  - destruct (Hm _ _ _ E) as (e1 & X1 & F1).
    destruct (Hk a _ _ _ H) as (e2 & X2 & F2).
    exists (e1 ++ e2)%list. split; [eapply extends_trans; eauto | apply Forall_app; auto].
  - inversion H; subst. eapply Hm; eauto.
Qed.

Lemma emits_try {A} Q (m : M A) (h : error -> M A) :
  emits Q m -> (forall e, emits Q (h e)) -> emits Q (try m h).
Proof.
  intros Hm Hh w r w' H. unfold try in H.
  destruct (m w) as [[a|e] w1] eqn:E.
  - inversion H; subst. eapply Hm; eauto.
  - destruct (Hm _ _ _ E) as (e1 & X1 & F1).
    destruct (Hh e _ _ _ H) as (e2 & X2 & F2).
    exists (e1 ++ e2)%list. split; [eapply extends_trans; eauto | apply Forall_app; auto].
Qed.

Lemma emits_fetch (Q : event -> Prop) r : Q (Fetch r) -> emits Q (fetch r).
Proof.
  intros HQ w x w' H. inversion H; subst.
  exists [Fetch r]. split; [apply extends_record | auto].
Qed.

Lemma emits_generateContent (Q : event -> Prop) k p :
  Q (Generate k p) -> emits Q (generateContent k p).
Proof.
  intros HQ w x w' H. inversion H; subst.
  exists [Generate k p]. split; [apply extends_record | auto].
Qed.

Lemma emits_delay (Q : event -> Prop) ms : Q (Delay ms) -> emits Q (delay ms).
Proof.
  intros HQ w x w' H. inversion H; subst.
  exists [Delay ms]. split; [apply extends_record | auto].
Qed.

Lemma emits_alert (Q : event -> Prop) msg : Q (Alert msg) -> emits Q (alert msg).
Proof.
  intros HQ w x w' H. inversion H; subst.
  exists [Alert msg]. split; [apply extends_record | auto].
Qed.

Lemma emits_generateId Q : emits Q generateId.
Proof.
  intros w x w' H. inversion H; subst.
  exists []. split; [apply extends_tick | constructor].
Qed.

Lemma emits_newDate Q : emits Q newDate.
Proof.
  intros w x w' H. inversion H; subst.
  exists []. split; [apply extends_tick | constructor].
Qed.

Lemma emits_json_of Q b : emits Q (json_of b).
Proof. destruct b; [apply emits_ret | apply emits_throw]. Qed.

Lemma emits_prop Q k j : emits Q (prop k j).
Proof. destruct j; first [apply emits_ret | apply emits_throw]. Qed.

Lemma emits_weaken {A} (Q Q' : event -> Prop) (m : M A) :
  (forall ev, Q ev -> Q' ev) -> emits Q m -> emits Q' m.
Proof.
  intros HQ Hm w r w' H. destruct (Hm _ _ _ H) as (evs & X & F).
  exists evs. split; [exact X | eapply Forall_impl; eauto].
Qed.

Lemma emitsP_ret {S A} Q (a : A) : emitsP Q (@retP S A a).
Proof.
  intros st w r st' w' H. inversion H; subst.
  exists []. split; [apply extends_refl | constructor].
Qed.

Lemma emitsP_throw {S A} Q e : emitsP Q (@throwP S A e).
Proof.
  intros st w r st' w' H. inversion H; subst.
  exists []. split; [apply extends_refl | constructor].
Qed.

Lemma emitsP_update {S} Q (f : S -> S) : emitsP Q (update f).
Proof.
  intros st w r st' w' H. inversion H; subst.
  exists []. split; [apply extends_refl | constructor].
Qed.

Lemma emitsP_lift {S A} Q (m : M A) : emits Q m -> emitsP Q (@lift S A m).
Proof.
  intros Hm st w r st' w' H. unfold lift in H.
  destruct (m w) as [r0 w0] eqn:E. inversion H; subst. eapply Hm; eauto.
Qed.

Lemma emitsP_bind {S A B} Q (m : P S A) (k : A -> P S B) :
  emitsP Q m -> (forall a, emitsP Q (k a)) -> emitsP Q (bindP m k).
Proof.
  intros Hm Hk st w r st' w' H. unfold bindP in H.
  destruct (m st w) as [[[a|e] st1] w1] eqn:E.
  - destruct (Hm _ _ _ _ _ E) as (e1 & X1 & F1).
    destruct (Hk a _ _ _ _ _ H) as (e2 & X2 & F2).
    exists (e1 ++ e2)%list. split; [eapply extends_trans; eauto | apply Forall_app; auto].
  - inversion H; subst. eapply Hm; eauto.
Qed.

Lemma emitsP_try {S A} Q (m : P S A) (h : error -> P S A) :
  emitsP Q m -> (forall e, emitsP Q (h e)) -> emitsP Q (tryP m h).
Proof.
  intros Hm Hh st w r st' w' H. unfold tryP in H.
  destruct (m st w) as [[[a|e] st1] w1] eqn:E.
  - inversion H; subst. eapply Hm; eauto.
  - destruct (Hm _ _ _ _ _ E) as (e1 & X1 & F1).
    destruct (Hh e _ _ _ _ _ H) as (e2 & X2 & F2).
    exists (e1 ++ e2)%list. split; [eapply extends_trans; eauto | apply Forall_app; auto].
Qed.

End JsFacts.

(** ** Base URL normalization *)

Module CleanUrlFacts.
Import JsString JsStringFacts Wordpress.

Lemma lower_slash_inv c : lower c = "/"%char -> c = "/"%char.
Proof.
  destruct c as [[] [] [] [] [] [] [] []]; vm_compute; intros H;
    first [reflexivity | discriminate H].
Qed.

Lemma lower_colon_inv c : lower c = ":"%char -> c = ":"%char.
Proof.
  destruct c as [[] [] [] [] [] [] [] []]; vm_compute; intros H;
    first [reflexivity | discriminate H].
Qed.

Lemma folded_not_slash a b :
  Ascii.eqb (lower a) (lower b) = true -> Ascii.eqb "/" a = false -> Ascii.eqb "/" b = false.
Proof.
  intros H Ha. apply Ascii.eqb_eq in H.
  destruct (Ascii.eqb "/" b) eqn:E; [|reflexivity].
  apply Ascii.eqb_eq in E. subst b.
  change (lower "/") with "/"%char in H.
  apply lower_slash_inv in H. subst a. discriminate Ha.
Qed.

Lemma startsWithCI_cons a p s :
  startsWithCI (String a p) s = true ->
  exists b s', s = String b s' /\ Ascii.eqb (lower a) (lower b) = true
               /\ startsWithCI p s' = true.
Proof.
  destruct s as [|b s']; simpl; [discriminate|].
  intros H. apply andb_true_iff in H as [H1 H2]. eauto.
Qed.

Lemma cutFrom_skip pat' c s :
  Ascii.eqb "/" c = false ->
  cutFrom (String "/" pat') (String c s) = String c (cutFrom (String "/" pat') s).
Proof.
  intros H. rewrite cutFrom_cons.
  change (startsWith (String "/" pat') (String c s))
    with (Ascii.eqb "/" c && startsWith pat' s).
  rewrite H. reflexivity.
Qed.

Lemma cutFrom_slash_slash pat s :
  cutFrom (String "/" (String "w" pat)) (String "/" (String "/" s))
  = String "/" (cutFrom (String "/" (String "w" pat)) (String "/" s)).
Proof. rewrite cutFrom_cons. reflexivity. Qed.

Lemma cutFrom_slash_end pat :
  cutFrom (String "/" (String "w" pat)) "/" = "/".
Proof. reflexivity. Qed.

(** A string that still has its protocol part up to the first slash
    keeps it through a cut at [/w...]. *)
Lemma cutFrom_keeps pat l z :
  (forall s, cutFrom (String "/" (String "w" pat)) (l ++ s)
             = l ++ cutFrom (String "/" (String "w" pat)) s) ->
  (z = l ++ "/" \/ exists y, z = l ++ "//" ++ y) ->
  (cutFrom (String "/" (String "w" pat)) z = l ++ "/"
   \/ exists y, cutFrom (String "/" (String "w" pat)) z = l ++ "//" ++ y).
Proof.
  intros Hl [-> | [y ->]]; rewrite Hl.
  - left. rewrite cutFrom_slash_end. reflexivity.
  - change ("//" ++ y) with (String "/" (String "/" y)).
    rewrite cutFrom_slash_slash, cutFrom_cons.
    destruct (_ && _); [left; reflexivity | right; eexists; reflexivity].
Qed.

Lemma removeLast_app l s : s <> EmptyString -> removeLast (l ++ s) = l ++ removeLast s.
Proof.
  intros Hs. induction l as [|c l IH]; [reflexivity|].
  change (String c l ++ s) with (String c (l ++ s)).
  destruct (l ++ s) eqn:E.
  - destruct l; simpl in E; [congruence | discriminate].
  - change (removeLast (String c (String a s0))) with (String c (removeLast (String a s0))).
    rewrite IH. reflexivity.
Qed.

Lemma strip_keeps l rest :
  stripTrailingSlash (l ++ "//" ++ rest) = l ++ "/"
  \/ exists y, stripTrailingSlash (l ++ "//" ++ rest) = l ++ "//" ++ y.
Proof.
  unfold stripTrailingSlash. destruct (endsWithSlash _).
  - rewrite removeLast_app by (simpl; discriminate).
    destruct rest as [|c rest].
    + left; reflexivity.
    + right. exists (removeLast (String c rest)). reflexivity.
  - right; eexists; reflexivity.
Qed.

(** What [/^https?:\/\//i] says of a string. *)
Lemma hasProtocol_shape s :
  hasProtocol s = true ->
  exists l rest,
    s = l ++ "//" ++ rest
    /\ (forall pat' s', cutFrom (String "/" pat') (l ++ s') = l ++ cutFrom (String "/" pat') s')
    /\ (forall y, startsWithCI "http:" (l ++ y) || startsWithCI "https:" (l ++ y) = true).
Proof.
  unfold hasProtocol. intros H. apply orb_true_iff in H as [H|H].
  - apply startsWithCI_cons in H as (b1 & s1 & -> & E1 & H).
    apply startsWithCI_cons in H as (b2 & s2 & -> & E2 & H).
    apply startsWithCI_cons in H as (b3 & s3 & -> & E3 & H).
    apply startsWithCI_cons in H as (b4 & s4 & -> & E4 & H).
    apply startsWithCI_cons in H as (b5 & s5 & -> & E5 & H).
    apply startsWithCI_cons in H as (b6 & s6 & -> & E6 & H).
    apply startsWithCI_cons in H as (b7 & s7 & -> & E7 & _).
    apply Ascii.eqb_eq in E5, E6, E7.
    symmetry in E5, E6, E7.
    apply lower_colon_inv in E5. apply lower_slash_inv in E6. apply lower_slash_inv in E7.
    subst b5 b6 b7.
    exists (String b1 (String b2 (String b3 (String b4 ":")))), s7.
    split; [reflexivity|]. split.
    + intros pat' s'. simpl append.
      rewrite !cutFrom_skip;
        first [reflexivity | eapply folded_not_slash; [eassumption | reflexivity]].
    + intros y. cbn [append startsWithCI]. rewrite E1, E2, E3, E4. reflexivity.
  - apply startsWithCI_cons in H as (b1 & s1 & -> & E1 & H).
    apply startsWithCI_cons in H as (b2 & s2 & -> & E2 & H).
    apply startsWithCI_cons in H as (b3 & s3 & -> & E3 & H).
    apply startsWithCI_cons in H as (b4 & s4 & -> & E4 & H).
    apply startsWithCI_cons in H as (b5 & s5 & -> & E5 & H).
    apply startsWithCI_cons in H as (b6 & s6 & -> & E6 & H).
    apply startsWithCI_cons in H as (b7 & s7 & -> & E7 & H).
    apply startsWithCI_cons in H as (b8 & s8 & -> & E8 & _).
    apply Ascii.eqb_eq in E6, E7, E8.
    symmetry in E6, E7, E8.
    apply lower_colon_inv in E6. apply lower_slash_inv in E7. apply lower_slash_inv in E8.
    subst b6 b7 b8.
    exists (String b1 (String b2 (String b3 (String b4 (String b5 ":"))))), s8.
    split; [reflexivity|]. split.
    + intros pat' s'. simpl append.
      rewrite !cutFrom_skip;
        first [reflexivity | eapply folded_not_slash; [eassumption | reflexivity]].
    + intros y. cbn [append startsWithCI]. rewrite E1, E2, E3, E4, E5.
      apply orb_true_iff. right. reflexivity.
Qed.

Lemma default_protocol t : hasProtocol ("https://" ++ t) = true.
Proof. reflexivity. Qed.

Lemma singleLine_default_protocol t :
  JsString.singleLine ("https://" ++ t) = JsString.singleLine t.
Proof. reflexivity. Qed.

(** the string after the protocol step of [cleanWpUrl] *)
Lemma cleanWpUrl_unfold url :
  cleanWpUrl url =
  cutFrom "/wp-json" (cutFrom "/wp-login.php" (cutFrom "/wp-admin"
    (stripTrailingSlash
       (if hasProtocol (trim url) then trim url else "https://" ++ trim url)))).
Proof. unfold cleanWpUrl. destruct (hasProtocol (trim url)); reflexivity. Qed.

(** C9. Base-URL normalization, for every input [url]: after the
    protocol step the string starts with [http://] or [https://]
    (letters in any case), [https://] being put in front when the
    trimmed input has neither; the result still starts with that
    scheme and its colon; the result is the string of the protocol step
    with a tail cut off and nothing else changed, so the case of the
    host is kept; a final slash is part of the tail cut off; and for an
    input of one line the result contains none of [/wp-admin],
    [/wp-login.php], [/wp-json].  In particular
    [example.com/wp-admin/] gives [https://example.com], and
    [HTTP://X.com/wp-json/] keeps its upper-case letters. *)
Theorem cleanWpUrl_normalizes (url : string) :
  let t := JsString.trim url in
  let s := if hasProtocol t then t else "https://" ++ t in
  hasProtocol s = true
  /\ (hasProtocol t = false -> JsString.startsWith "https://" s = true)
  /\ JsString.startsWithCI "http:" (cleanWpUrl url)
     || JsString.startsWithCI "https:" (cleanWpUrl url) = true
  /\ (exists removed, s = cleanWpUrl url ++ removed)
  /\ (JsString.endsWithSlash s = true ->
      exists removed, JsString.removeLast s = cleanWpUrl url ++ removed)
  /\ (JsString.singleLine t = true ->
      JsString.includes "/wp-admin" (cleanWpUrl url) = false
      /\ JsString.includes "/wp-login.php" (cleanWpUrl url) = false
      /\ JsString.includes "/wp-json" (cleanWpUrl url) = false)
  /\ cleanWpUrl "example.com/wp-admin/" = "https://example.com"
  /\ cleanWpUrl "  example.com/wp-login.php?redirect_to=x " = "https://example.com"
  /\ cleanWpUrl "HTTP://X.com/wp-json/" = "HTTP://X.com".
Proof.
  intros t s.
  assert (Hs : hasProtocol s = true).
  { subst s. destruct (hasProtocol t) eqn:E; [exact E | apply default_protocol]. }
  assert (Hu : cleanWpUrl url
               = cutFrom "/wp-json" (cutFrom "/wp-login.php" (cutFrom "/wp-admin"
                   (stripTrailingSlash s)))) by apply cleanWpUrl_unfold.
  destruct (cutFrom_prefix "/wp-json"
              (cutFrom "/wp-login.php" (cutFrom "/wp-admin" (stripTrailingSlash s))))
    as [r3 H3].
  destruct (cutFrom_prefix "/wp-login.php" (cutFrom "/wp-admin" (stripTrailingSlash s)))
    as [r2 H2].
  destruct (cutFrom_prefix "/wp-admin" (stripTrailingSlash s)) as [r1 H1].
  rewrite <- Hu in H3.
  assert (Hcut : stripTrailingSlash s = cleanWpUrl url ++ (r3 ++ r2 ++ r1)).
  { rewrite H1 at 1. rewrite H2 at 1. rewrite H3 at 1.
    rewrite !append_assoc. reflexivity. }
  repeat split.
  - exact Hs.
  - intros E. subst s. rewrite E. reflexivity.
  - destruct (hasProtocol_shape s Hs) as (l & rest & Hl & Hskip & Hscheme).
    pose proof (strip_keeps l rest) as K0. rewrite <- Hl in K0.
    pose proof (cutFrom_keeps "p-admin" l _ (Hskip _) K0) as K1.
    pose proof (cutFrom_keeps "p-login.php" l _ (Hskip _) K1) as K2.
    pose proof (cutFrom_keeps "p-json" l _ (Hskip _) K2) as K3.
    rewrite <- Hu in K3.
    destruct K3 as [-> | [y ->]]; apply Hscheme.
  - destruct (stripTrailingSlash_prefix s) as [r0 H0].
    exists ((r3 ++ r2 ++ r1) ++ r0).
    rewrite H0 at 1. rewrite Hcut. rewrite !append_assoc. reflexivity.
  - intros Hslash. exists (r3 ++ r2 ++ r1).
    rewrite <- Hcut. unfold stripTrailingSlash. rewrite Hslash. reflexivity.
  - assert (L0 : singleLine (stripTrailingSlash s) = true).
    { destruct (stripTrailingSlash_prefix s) as [r0 H0].
      apply (singleLine_prefix _ r0). rewrite <- H0.
      subst s. destruct (hasProtocol t); [assumption|].
      rewrite singleLine_default_protocol. assumption. }
    pose proof (cutFrom_removes "/wp-admin" _ ltac:(discriminate) L0) as A.
    rewrite H2, H3 in A. rewrite append_assoc in A.
    apply includes_prefix_false in A. exact A.
  - assert (L0 : singleLine (stripTrailingSlash s) = true).
    { destruct (stripTrailingSlash_prefix s) as [r0 H0].
      apply (singleLine_prefix _ r0). rewrite <- H0.
      subst s. destruct (hasProtocol t); [assumption|].
      rewrite singleLine_default_protocol. assumption. }
    assert (L1 : singleLine (cutFrom "/wp-admin" (stripTrailingSlash s)) = true).
    { apply (singleLine_prefix _ r1). rewrite <- H1. exact L0. }
    pose proof (cutFrom_removes "/wp-login.php" _ ltac:(discriminate) L1) as A.
    rewrite H3 in A. apply includes_prefix_false in A. exact A.
  - assert (L0 : singleLine (stripTrailingSlash s) = true).
    { destruct (stripTrailingSlash_prefix s) as [r0 H0].
      apply (singleLine_prefix _ r0). rewrite <- H0.
      subst s. destruct (hasProtocol t); [assumption|].
      rewrite singleLine_default_protocol. assumption. }
    assert (L1 : singleLine (cutFrom "/wp-admin" (stripTrailingSlash s)) = true).
    { apply (singleLine_prefix _ r1). rewrite <- H1. exact L0. }
    assert (L2 : singleLine (cutFrom "/wp-login.php"
                   (cutFrom "/wp-admin" (stripTrailingSlash s))) = true).
    { apply (singleLine_prefix _ r2). rewrite <- H2. exact L1. }
    rewrite Hu. apply cutFrom_removes; [discriminate | exact L2].
Qed.

End CleanUrlFacts.

(** ** The four strategies of the WordPress client *)

Module FallbackFacts.
Import Js JsFacts Wordpress.

Lemma includes_single c p s :
  JsString.includes (String c EmptyString) s = false ->
  JsString.includes (String c p) s = false.
Proof.
  induction s as [|b s IH]; [reflexivity|].
  cbn [JsString.includes JsString.startsWith].
  intros H. apply orb_false_iff in H as [H1 H2].
  rewrite andb_true_r in H1. rewrite H1, (IH H2). reflexivity.
Qed.

Lemma digits_no_A d : JsString.includes "A" (NilEmpty.string_of_uint d) = false.
Proof. induction d; simpl; auto. Qed.

Lemma status_message_not_denied n :
  JsString.includes "Acesso Negado" ("Status " ++ JsString.ofNat n) = false.
Proof.
  apply includes_single. unfold JsString.ofNat.
  cbn [append JsString.includes JsString.startsWith Ascii.eqb Bool.eqb andb orb].
  apply digits_no_A.
Qed.

Lemma denied_message_is_denied k :
  JsString.includes "Acesso Negado" (accessDenied (strategyLabel k)) = true.
Proof.
  destruct k as [|[|[|[|k]]]]; reflexivity.
Qed.

Section Fallback.
Variable btoa : string -> string.
Variable site : WordpressSite.
Variable endpointPath : string.
Variable options : RequestInit.

(** the request of the k-th strategy *)
Let req (k : nat) : request :=
  strategyRequest btoa site options (strategyUrl (cleanWpUrl (site_url site)) endpointPath k).

Lemma tryStrategy_run label url w :
  tryStrategy btoa site options label url w
  = (strategyOutcome label (net w (List.length (trace w)) (strategyRequest btoa site options url)),
     record (Fetch (strategyRequest btoa site options url)) w).
Proof.
  unfold tryStrategy, try, bind, fetch, strategyOutcome, rethrown, throw.
  destruct (net w _ _) as [e | status body].
  - destruct (String.eqb (err_message e) "AUTH_ERROR"); reflexivity.
  - destruct (ok status).
    + destruct body as [j | e]; cbn; [reflexivity|].
      unfold throw. destruct (String.eqb (err_message e) "AUTH_ERROR"); reflexivity.
    + destruct (Nat.eqb status 401 || Nat.eqb status 403); reflexivity.
Qed.

Lemma tryStrategy_emits (Q : event -> Prop) label url :
  Q (Fetch (strategyRequest btoa site options url)) ->
  emits Q (tryStrategy btoa site options label url).
Proof.
  intros HQ w r w' H. rewrite tryStrategy_run in H. inversion H; subst.
  exists [Fetch (strategyRequest btoa site options url)].
  split; [apply extends_record | auto].
Qed.

(** Every interaction of [fetchWpWithFallback] is a [fetch] with the
    method and the body of [options]. *)
Lemma fetchWpWithFallback_emits :
  emits (fun ev => exists url, ev = Fetch (strategyRequest btoa site options url))
        (fetchWpWithFallback btoa site endpointPath options).
Proof.
  unfold fetchWpWithFallback.
  repeat first
    [ apply emits_try; [apply tryStrategy_emits; eauto | intros ?]
    | match goal with |- emits _ (if ?c then _ else _) => destruct c end
    | apply emits_throw ].
Qed.

Lemma try_strategy label url (h : error -> M json) w :
  try (tryStrategy btoa site options label url) h w
  = match strategyOutcome label
            (net w (List.length (trace w)) (strategyRequest btoa site options url)) with
    | Ok j => (Ok j, record (Fetch (strategyRequest btoa site options url)) w)
    | Throw e => h e (record (Fetch (strategyRequest btoa site options url)) w)
    end.
Proof.
  unfold try. rewrite tryStrategy_run.
  destruct (strategyOutcome _ _); reflexivity.
Qed.

Lemma fallsThrough_throws label r :
  fallsThrough label r = true ->
  exists e, strategyOutcome label r = Throw e
            /\ JsString.includes "Acesso Negado" (err_message e) = false.
Proof.
  unfold fallsThrough. destruct (strategyOutcome label r) as [j|e]; [discriminate|].
  intros H. exists e. split; [reflexivity|].
  destruct (JsString.includes _ _); [discriminate | reflexivity].
Qed.

Lemma denied_outcome label status body :
  status = 401 \/ status = 403 ->
  strategyOutcome label (Answered status body) = Throw (Error (accessDenied label)).
Proof. intros [-> | ->]; reflexivity. Qed.

(** A 404 is a reply that falls through, at every strategy. *)
Lemma not_found_falls_through label body : fallsThrough label (Answered 404 body) = true.
Proof.
  unfold fallsThrough.
  change (strategyOutcome label (Answered 404 body))
    with (@Throw json (Error ("Status " ++ JsString.ofNat 404))).
  cbn [err_message Error]. rewrite status_message_not_denied. reflexivity.
Qed.

(** The JSON path stops at a 401 or 403 of any strategy: when the
    strategies before the k-th fell through and the k-th is answered
    with 401 or 403, the call throws the access-denied error that names
    the k-th strategy, after exactly k requests. *)
Lemma fetchWpWithFallback_auth_terminal (k : nat) (w : world) (status : nat) (body : parsed) :
  1 <= k <= 4 ->
  (forall i, 1 <= i < k ->
     fallsThrough (strategyLabel i) (net w (i - 1 + List.length (trace w)) (req i)) = true) ->
  net w (k - 1 + List.length (trace w)) (req k) = Answered status body ->
  status = 401 \/ status = 403 ->
  exists w',
    fetchWpWithFallback btoa site endpointPath options w
    = (Throw (Error (accessDenied (strategyLabel k))), w')
    /\ trace w' = (trace w ++ map (fun i => Fetch (req i)) (seq 1 k))%list.
Proof.
  intros Hk Hfall Hreply Hauth.
  unfold fetchWpWithFallback.
  pose proof (denied_message_is_denied k) as Hden.
  destruct k as [|[|[|[|[|k]]]]]; try lia; cbn [Nat.sub Nat.add] in Hreply.
  - rewrite try_strategy. fold (req 1). rewrite Hreply, (denied_outcome _ _ _ Hauth).
    cbn [err_message Error]. rewrite Hden.
    eexists; split; [reflexivity | reflexivity].
  - destruct (fallsThrough_throws _ _ (Hfall 1 ltac:(lia))) as (e1 & O1 & N1).
    cbn [Nat.sub Nat.add] in O1.
    rewrite try_strategy. fold (req 1). rewrite O1, N1.
    rewrite try_strategy. fold (req 2). rewrite length_trace_record.
    cbn [net record]. rewrite Hreply, (denied_outcome _ _ _ Hauth).
    cbn [err_message Error]. rewrite Hden.
    eexists; split; [reflexivity|].
    cbn [trace record map seq]. rewrite <- app_assoc. reflexivity.
  - destruct (fallsThrough_throws _ _ (Hfall 1 ltac:(lia))) as (e1 & O1 & N1).
    destruct (fallsThrough_throws _ _ (Hfall 2 ltac:(lia))) as (e2 & O2 & N2).
    cbn [Nat.sub Nat.add] in O1, O2.
    rewrite try_strategy. fold (req 1). rewrite O1, N1.
    rewrite try_strategy. fold (req 2). rewrite length_trace_record.
    cbn [net record]. rewrite O2, N2.
    rewrite try_strategy. fold (req 3). rewrite !length_trace_record.
    cbn [net record]. rewrite Hreply, (denied_outcome _ _ _ Hauth).
    cbn [err_message Error]. rewrite Hden.
    eexists; split; [reflexivity|].
    cbn [trace record map seq]. rewrite <- !app_assoc. reflexivity.
  - destruct (fallsThrough_throws _ _ (Hfall 1 ltac:(lia))) as (e1 & O1 & N1).
    destruct (fallsThrough_throws _ _ (Hfall 2 ltac:(lia))) as (e2 & O2 & N2).
    destruct (fallsThrough_throws _ _ (Hfall 3 ltac:(lia))) as (e3 & O3 & N3).
    cbn [Nat.sub Nat.add] in O1, O2, O3.
    rewrite try_strategy. fold (req 1). rewrite O1, N1.
    rewrite try_strategy. fold (req 2). rewrite length_trace_record.
    cbn [net record]. rewrite O2, N2.
    rewrite try_strategy. fold (req 3). rewrite !length_trace_record.
    cbn [net record]. rewrite O3, N3.
    rewrite try_strategy. fold (req 4). rewrite !length_trace_record.
    cbn [net record]. rewrite Hreply, (denied_outcome _ _ _ Hauth).
    cbn [err_message Error]. rewrite Hden.
    eexists; split; [reflexivity|].
    cbn [trace record map seq]. rewrite <- !app_assoc. reflexivity.
Qed.

(** C6. A 404 at the first strategy is not terminal: whatever the later
    replies are, the second request is issued right after the first;
    and when the second strategy is answered with 200 and a JSON body,
    the call returns that body after exactly two requests. *)
Theorem not_found_then_second_strategy (w : world) (body1 : parsed) :
  net w (List.length (trace w)) (req 1) = Answered 404 body1 ->
  (exists r w' rest,
     fetchWpWithFallback btoa site endpointPath options w = (r, w')
     /\ trace w' = (trace w ++ Fetch (req 1) :: Fetch (req 2) :: rest)%list)
  /\ (forall j,
       net w (S (List.length (trace w))) (req 2) = Answered 200 (Parsed j) ->
       exists w',
         fetchWpWithFallback btoa site endpointPath options w = (Ok j, w')
         /\ trace w' = (trace w ++ [Fetch (req 1); Fetch (req 2)])%list).
Proof.
  intros H1.
  destruct (fallsThrough_throws _ _ (not_found_falls_through (strategyLabel 1) body1))
    as (e1 & O1 & N1).
  split.
  - destruct (fetchWpWithFallback btoa site endpointPath options w) as [r w'] eqn:E.
    exists r, w'.
    unfold fetchWpWithFallback in E.
    rewrite try_strategy in E. fold (req 1) in E. rewrite H1, O1, N1 in E.
    rewrite try_strategy in E. fold (req 2) in E.
    clear O1.
    destruct (strategyOutcome _ _) as [j|e2].
    + inversion E; subst. exists []. split; [reflexivity|].
      cbn [trace record]. rewrite <- app_assoc. reflexivity.
    + destruct (JsString.includes "Acesso Negado" (err_message e2)).
      * inversion E; subst. exists []. split; [reflexivity|].
        cbn [trace record]. rewrite <- app_assoc. reflexivity.
      * match type of E with
        | ?m ?w2 = _ => assert (Hm : emits (fun _ => True) m)
        end.
        { repeat first
            [ apply emits_try; [apply tryStrategy_emits; exact I | intros ?]
            | match goal with |- emits _ (if ?c then _ else _) => destruct c end
            | apply emits_throw ]. }
        destruct (Hm _ _ _ E) as (evs & (T & _) & _).
        exists evs. split; [reflexivity|].
        rewrite T. cbn [trace record]. rewrite <- !app_assoc. reflexivity.
  - intros j H2. unfold fetchWpWithFallback.
    rewrite try_strategy. fold (req 1). rewrite H1, O1, N1.
    rewrite try_strategy. fold (req 2). rewrite length_trace_record.
    cbn [net record]. rewrite H2.
    eexists; split; [reflexivity|].
    cbn [trace record]. rewrite <- app_assoc. reflexivity.
Qed.

End Fallback.
End FallbackFacts.

(** ** The media upload *)

Module UploadFacts.
Import Js JsFacts Wordpress Examples.

Section Upload.
Variable btoa : string -> string.

Lemma tryUpload_emits (Q : event -> Prop) site file url useProxy :
  Q (Fetch (uploadRequest btoa site file (proxied useProxy url))) ->
  emits Q (tryUpload btoa site file url useProxy).
Proof.
  intros HQ. unfold tryUpload.
  apply emits_bind; [apply emits_fetch; exact HQ|].
  intros [e | status body]; [apply emits_throw|].
  destruct (negb (ok status)).
  - destruct (Nat.eqb status 401); apply emits_throw.
  - apply emits_json_of.
Qed.

(** Every interaction of [uploadWpMedia] is a [fetch] that carries the
    file. *)
Lemma uploadWpMedia_emits site file :
  emits (fun ev => exists r, ev = Fetch r /\ req_body r = Blob file)
        (uploadWpMedia btoa site file).
Proof.
  unfold uploadWpMedia.
  repeat first
    [ apply emits_try; [|intros ?]
    | apply emits_bind; [apply tryUpload_emits; eexists; split; reflexivity
                        | intros ?; apply emits_prop]
    | match goal with |- emits _ (if ?c then _ else _) => destruct c end
    | apply emits_throw ].
Qed.

(** C3, the JSON path aside: the upload path does not classify as the
    JSON path does.  A 403 of the first strategy is not terminal: the
    second strategy is tried and its result returned.  A 401 of the
    second strategy is not terminal either: the call goes on to the
    third strategy.  Only a 401 of the first strategy stops the call. *)
Theorem uploadWpMedia_auth_not_terminal :
  (let w := scripted [Answered 403 (Parsed JNull)] (created 7) in
   fst (uploadWpMedia btoa exampleSite exampleFile w) = Ok (Some (JNum 7))
   /\ map (fun ev => match ev with Fetch r => req_url r | _ => "" end)
          (trace (snd (uploadWpMedia btoa exampleSite exampleFile w)))
      = ["https://example.com/wp-json/wp/v2/media";
         "https://example.com/?rest_route=/wp/v2/media"])
  /\ (let w := scripted [Answered 500 (Parsed JNull); Answered 401 (Parsed JNull)] (created 7) in
      fst (uploadWpMedia btoa exampleSite exampleFile w) = Ok (Some (JNum 7))
      /\ map (fun ev => match ev with Fetch r => req_url r | _ => "" end)
             (trace (snd (uploadWpMedia btoa exampleSite exampleFile w)))
         = ["https://example.com/wp-json/wp/v2/media";
            "https://example.com/?rest_route=/wp/v2/media";
            "https://corsproxy.io/?https%3A%2F%2Fexample.com%2Fwp-json%2Fwp%2Fv2%2Fmedia"])
  /\ (let w := scripted [Answered 401 (Parsed JNull)] (created 7) in
      fst (uploadWpMedia btoa exampleSite exampleFile w)
      = Throw (Error "Erro de Autenticação ao enviar imagem.")
      /\ List.length (trace (snd (uploadWpMedia btoa exampleSite exampleFile w))) = 1).
Proof.
  repeat split; reflexivity.
Qed.

End Upload.
End UploadFacts.

(** ** Key rotation *)

Module GeminiFacts.
Import Js JsFacts Gemini.





Section Rotation.
Variable prompt : string.


Lemma attempt_run apiKey w :
  attempt apiKey prompt w
  = (match llm w (List.length (trace w)) apiKey prompt with
     | GenThrows e => Throw e
     | GenText text =>
         if String.eqb text "" then Throw (Error "API retornou resposta vazia.") else Ok text
     end, record (Generate apiKey prompt) w).
Proof.
  unfold attempt, bind, generateContent.
  destruct (llm w _ _ _) as [e|text]; [reflexivity|].
  destruct (String.eqb text ""); reflexivity.
Qed.



End Rotation.

End GeminiFacts.

(** ** Publishing a draft *)

Module BulkFacts.
Import Js JsFacts Wordpress Bulk.

Lemma find_updated id (f : BulkPostDraft -> BulkPostDraft) ds d :
  (forall x, d_id (f x) = d_id x) ->
  find (fun x => String.eqb (d_id x) id) ds = Some d ->
  find (fun x => String.eqb (d_id x) id)
       (map (fun x => if String.eqb (d_id x) id then f x else x) ds) = Some (f d).
Proof.
  intros Hf. induction ds as [|x ds IH]; simpl; [discriminate|].
  destruct (String.eqb (d_id x) id) eqn:E.
  - intros H; inversion H; subst. simpl. rewrite Hf, E. reflexivity.
  - intros H. simpl. rewrite E. auto.
Qed.

Lemma map_updated_twice id (f g : BulkPostDraft -> BulkPostDraft) ds :
  (forall x, d_id (f x) = d_id x) ->
  map (fun x => if String.eqb (d_id x) id then g x else x)
      (map (fun x => if String.eqb (d_id x) id then f x else x) ds)
  = map (fun x => if String.eqb (d_id x) id then g (f x) else x) ds.
Proof.
  intros Hf. rewrite map_map. apply map_ext. intros x.
  destruct (String.eqb (d_id x) id) eqn:E; [rewrite Hf, E | rewrite E]; reflexivity.
Qed.

Lemma prop_world k j w : snd (prop k j w) = w.
Proof. destruct j; reflexivity. Qed.

Section Publish.
Variable btoa : string -> string.
Variable invalidCharacter : string.
Variable stringify : json -> string.
Variable markdownToHtml : string -> string.
Variable toNumber : json -> json.

Local Abbreviation createWpPost' :=
  (WordpressClient.createWpPost btoa invalidCharacter stringify markdownToHtml).
Local Abbreviation handlePublish' :=
  (handlePublish btoa invalidCharacter stringify markdownToHtml toNumber).
Local Abbreviation clickPublish' :=
  (clickPublish btoa invalidCharacter stringify markdownToHtml toNumber).

(** the drafts after [handlePublish] has written [f] over the draft *)
Let written (id : string) (f : BulkPostDraft -> BulkPostDraft) (st : state) : state :=
  {| drafts := map (fun x => if String.eqb (d_id x) id then f (nowPublishing x) else x)
                   (drafts st);
     sites := sites st |}.

(** a request that creates a post: one of the four strategies, with the
    JSON text of the post as its body *)
Let postRequest (site : WordpressSite) (params : CreatePostParams) (ev : event) : Prop :=
  exists url,
    ev = Fetch (strategyRequest btoa site (postOptions stringify markdownToHtml params) url).

Lemma createWpPost_emits site params :
  emits (postRequest site params) (createWpPost' site params).
Proof.
  unfold WordpressClient.createWpPost. apply emits_try.
  - unfold WordpressClient.fetchWpWithFallback.
    destruct (WordpressClient.authString btoa invalidCharacter site); [|apply emits_throw].
    apply FallbackFacts.fetchWpWithFallback_emits.
  - intros e. apply emits_throw.
Qed.

Lemma uploadImage_emits site d :
  emits (fun ev => exists img r, image d = Some img /\ ev = Fetch r /\ req_body r = Blob img)
        (uploadImage btoa invalidCharacter site d).
Proof.
  unfold uploadImage. destruct (image d) as [img|].
  - unfold WordpressClient.uploadWpMedia.
    destruct (WordpressClient.authString btoa invalidCharacter site); [|apply emits_throw].
    eapply emits_weaken; [|apply UploadFacts.uploadWpMedia_emits].
    intros ev (r & -> & Hb). eauto.
  - apply emits_ret.
Qed.

(** [handlePublish] in terms of its two service calls *)
Lemma handlePublish_run id st w d site :
  find (fun x => String.eqb (d_id x) id) (drafts st) = Some d ->
  matchedSiteId d <> "" ->
  find (fun s => String.eqb (site_id s) (matchedSiteId d)) (sites st) = Some site ->
  handlePublish' id st w =
  match uploadImage btoa invalidCharacter site d w with
  | (Throw e, w1) => (Ok tt, written id (nowError (err_message e)) st, w1)
  | (Ok mediaId, w1) =>
      match createWpPost' site (publishParams toNumber d mediaId) w1 with
      | (Throw e, w2) => (Ok tt, written id (nowError (err_message e)) st, w2)
      | (Ok result, w2) =>
          match prop "link" result w2 with
          | (Throw e, w3) => (Ok tt, written id (nowError (err_message e)) st, w3)
          | (Ok link, w3) => (Ok tt, written id (nowSuccess link) st, w3)
          end
      end
  end.
Proof.
  intros Hd Hm Hs. unfold handlePublish. rewrite Hd.
  destruct (String.eqb (matchedSiteId d) "") eqn:E;
    [apply String.eqb_eq in E; contradiction|].
  rewrite Hs.
  cbv beta iota delta [bindP tryP updateDraft update publishBody lift written].
  destruct (uploadImage btoa invalidCharacter site d w) as [[mediaId|e] w1];
    [destruct (WordpressClient.createWpPost _ _ _ _ _ _ w1) as [[result|e] w2];
       [destruct (prop "link" result w2) as [[link|e] w3]|]|];
    cbv beta iota delta [drafts sites];
    rewrite map_updated_twice by reflexivity; reflexivity.
Qed.

(** a click on the publish button of a draft in [error] publishes again;
    on a draft in [success] it does nothing *)
Lemma clickPublish_after_error id st d :
  find (fun x => String.eqb (d_id x) id) (drafts st) = Some d ->
  d_status d = error -> matchedSiteId d <> "" ->
  clickPublish' id st = handlePublish' id st.
Proof.
  intros Hd He Hm. unfold clickPublish, publishDisabled. rewrite Hd, He.
  destruct (String.eqb (matchedSiteId d) "") eqn:E;
    [apply String.eqb_eq in E; contradiction | reflexivity].
Qed.

Lemma clickPublish_after_success id st d w :
  find (fun x => String.eqb (d_id x) id) (drafts st) = Some d ->
  d_status d = success ->
  clickPublish' id st w = (Ok tt, st, w).
Proof.
  intros Hd He. unfold clickPublish, publishDisabled. rewrite Hd, He. reflexivity.
Qed.

Lemma found_written id f st d :
  (forall x, d_id (f x) = d_id x) ->
  find (fun x => String.eqb (d_id x) id) (drafts st) = Some d ->
  find (fun x => String.eqb (d_id x) id) (drafts (written id f st)) = Some (f (nowPublishing d)).
Proof.
  intros Hf Hd. unfold written. cbn [drafts].
  apply (find_updated id (fun x => f (nowPublishing x))); [|exact Hd].
  intros x. rewrite Hf. reflexivity.
Qed.

(** the world and the draft after [handlePublish] *)
Lemma handlePublish_result id st w d site :
  find (fun x => String.eqb (d_id x) id) (drafts st) = Some d ->
  matchedSiteId d <> "" ->
  find (fun s => String.eqb (site_id s) (matchedSiteId d)) (sites st) = Some site ->
  exists st' w',
    handlePublish' id st w = (Ok tt, st', w')
    /\ match uploadImage btoa invalidCharacter site d w with
       | (Throw e, w1) =>
           w' = w1
           /\ find (fun x => String.eqb (d_id x) id) (drafts st')
              = Some (nowError (err_message e) (nowPublishing d))
       | (Ok mediaId, w1) =>
           w' = snd (createWpPost' site (publishParams toNumber d mediaId) w1)
           /\ match createWpPost' site (publishParams toNumber d mediaId) w1 with
              | (Throw e, _) =>
                  find (fun x => String.eqb (d_id x) id) (drafts st')
                  = Some (nowError (err_message e) (nowPublishing d))
              | (Ok result, w2) =>
                  match prop "link" result w2 with
                  | (Throw e, _) =>
                      find (fun x => String.eqb (d_id x) id) (drafts st')
                      = Some (nowError (err_message e) (nowPublishing d))
                  | (Ok link, _) =>
                      find (fun x => String.eqb (d_id x) id) (drafts st')
                      = Some (nowSuccess link (nowPublishing d))
                  end
              end
       end.
Proof.
  intros Hd Hm Hs. rewrite (handlePublish_run _ _ _ _ _ Hd Hm Hs).
  destruct (uploadImage btoa invalidCharacter site d w) as [[mediaId|e] w1].
  - destruct (WordpressClient.createWpPost _ _ _ _ _ _ w1) as [[result|e] w2].
    + pose proof (prop_world "link" result w2) as PW.
      destruct (prop "link" result w2) as [[link|e] w3]; cbn [snd] in PW; subst w3;
        eexists; eexists; (split; [reflexivity|]); (split; [reflexivity|]);
        (apply found_written; [reflexivity | exact Hd]).
    + eexists; eexists; (split; [reflexivity|]); (split; [reflexivity|]).
      apply found_written; [reflexivity | exact Hd].
  - eexists; eexists; (split; [reflexivity|]); (split; [reflexivity|]).
    apply found_written; [reflexivity | exact Hd].
Qed.

End Publish.
End BulkFacts.

(** ** The batch worker *)

Module AppFacts.
Import Js JsFacts Gemini App.

Lemma workerFrame_refl st : workerFrame st st.
Proof.
  unfold workerFrame. repeat split. exists []. rewrite app_nil_r. reflexivity.
Qed.

Lemma workerFrame_trans st1 st2 st3 :
  workerFrame st1 st2 -> workerFrame st2 st3 -> workerFrame st1 st3.
Proof.
  unfold workerFrame.
  intros (A1&A2&A3&A4&A5&A6&A7&A8&A9&A10&A11&A12&A13&A14&A15&x&A16)
         (B1&B2&B3&B4&B5&B6&B7&B8&B9&B10&B11&B12&B13&B14&B15&y&B16).
  repeat split; try congruence.
  exists (x ++ y)%list. rewrite B16, A16, app_assoc. reflexivity.
Qed.

Lemma preserves_ret {A} (a : A) : preserves (retP a).
Proof. intros st w r st' w' H. inversion H; subst. apply workerFrame_refl. Qed.

Lemma preserves_throw {A} e : preserves (@throwP state A e).
Proof. intros st w r st' w' H. inversion H; subst. apply workerFrame_refl. Qed.

Lemma preserves_lift {A} (m : M A) : preserves (lift m).
Proof.
  intros st w r st' w' H. unfold lift in H. destruct (m w). inversion H; subst.
  apply workerFrame_refl.
Qed.

Lemma preserves_bind {A B} (m : P state A) (k : A -> P state B) :
  preserves m -> (forall a, preserves (k a)) -> preserves (bindP m k).
Proof.
  intros Hm Hk st w r st' w' H. unfold bindP in H.
  destruct (m st w) as [[[a|e] st1] w1] eqn:E.
  - eapply workerFrame_trans; [eapply Hm; eauto | eapply Hk; eauto].
  - inversion H; subst. eapply Hm; eauto.
Qed.

Lemma preserves_try {A} (m : P state A) (h : error -> P state A) :
  preserves m -> (forall e, preserves (h e)) -> preserves (tryP m h).
Proof.
  intros Hm Hh st w r st' w' H. unfold tryP in H.
  destruct (m st w) as [[[a|e] st1] w1] eqn:E.
  - inversion H; subst. eapply Hm; eauto.
  - eapply workerFrame_trans; [eapply Hm; eauto | eapply Hh; eauto].
Qed.

Lemma preserves_addLog msg : preserves (addLog msg).
Proof.
  intros st w r st' w' H. inversion H; subst.
  unfold workerFrame; cbn. repeat split. eexists; reflexivity.
Qed.

Lemma preserves_setArticles f : preserves (update (setArticles f)).
Proof.
  intros st w r st' w' H. inversion H; subst.
  unfold workerFrame; cbn. repeat split. exists []. rewrite app_nil_r. reflexivity.
Qed.

Section Worker.
Variable stringify : json -> string.
Variable text : json -> string.
Variable promptOf : GuestPostRequest -> string.
Variable convertMarkdownToHtml : string -> string -> string.
Variable titleOf : string -> string -> string.

Let tryBlock' := tryBlock stringify text promptOf convertMarkdownToHtml titleOf.
Let rest' := processNextItem_rest stringify text promptOf convertMarkdownToHtml titleOf.
Let handle' := handle stringify text promptOf convertMarkdownToHtml titleOf.
Let step' := step stringify text promptOf convertMarkdownToHtml titleOf.
Let run' := run stringify text promptOf convertMarkdownToHtml titleOf.

Lemma tryBlock_preserves t : preserves (tryBlock' t).
Proof.
  unfold tryBlock', tryBlock, generateStep, exportStep.
  repeat first
    [ apply preserves_bind; [|intros ?]
    | apply preserves_lift
    | apply preserves_addLog
    | apply preserves_setArticles
    | apply preserves_ret
    | apply preserves_throw
    | match goal with
      | |- preserves (if ?c then _ else _) => destruct c
      | |- preserves (match ?c with Some _ => _ | None => _ end) => destruct c
      end ].
Qed.

Lemma catchBlock_preserves t e : preserves (catchBlock t e).
Proof. apply preserves_addLog. Qed.

(** the [try] and [catch] of the worker never throw, and change no more
    than the history and the end of the log *)
Lemma guarded_run t st w :
  exists st1 w1,
    tryP (tryBlock' t) (catchBlock t) st w = (Ok tt, st1, w1)
    /\ workerFrame st st1
    /\ (forall e st0 w0, tryBlock' t st w = (Throw e, st0, w0) ->
        In (errorLine t e) (logs (batchProgress st1))).
Proof.
  unfold tryP.
  destruct (tryBlock' t st w) as [[[[]|e] st0] w0] eqn:E.
  - exists st0, w0. split; [reflexivity|]. split.
    + eapply tryBlock_preserves; eauto.
    + intros e st0' w0' H. discriminate H.
  - exists (setBatchProgress (fun prev =>
      {| isActive := isActive prev; total := total prev; processed := processed prev;
         currentKeyword := currentKeyword prev;
         logs := (logs prev ++ [errorLine t e])%list |}) st0), w0.
    split; [reflexivity|]. split.
    + eapply workerFrame_trans; [eapply tryBlock_preserves; eauto|].
      eapply (preserves_addLog (errorLine t e) st0 w0). reflexivity.
    + intros e' st0' w0' H. inversion H; subst. cbn.
      apply in_or_app. right. left. reflexivity.
Qed.

(** the [finally] block: the cool-down or not, then the three updates *)
Lemma finallyBlock_run t st w :
  finallyBlock t st w
  = (Ok tt,
     setIsProcessingBatch false
       (setBatchProgress (fun prev =>
          {| isActive := isActive prev; total := total prev; processed := processed prev + 1;
             currentKeyword := currentKeyword prev; logs := logs prev |})
          (setQueue (fun prev => tl prev) st)),
     if negb (t_isDemoMode t) && Nat.ltb 1 (List.length (t_queue t))
     then record (Delay 3000) w else w).
Proof.
  unfold finallyBlock, bindP, update, lift, delay, retP.
  destruct (negb (t_isDemoMode t) && Nat.ltb 1 (List.length (t_queue t))); reflexivity.
Qed.

(** What the rest of [processNextItem] does to the state, whatever the
    world answers: the head of the queue goes, [processed] grows by
    one, the guard is released; an exception of the [try] is logged. *)
Lemma rest_run t st w :
  exists st' w1,
    rest' t st w
    = (Ok tt, st',
       if negb (t_isDemoMode t) && Nat.ltb 1 (List.length (t_queue t))
       then record (Delay 3000) w1 else w1)
    /\ (exists st0, tryP (tryBlock' t) (catchBlock t) st w = (Ok tt, st0, w1))
    /\ queue st' = tl (queue st)
    /\ isProcessingBatch st' = false
    /\ processed (batchProgress st') = processed (batchProgress st) + 1
    /\ total (batchProgress st') = total (batchProgress st)
    /\ isActive (batchProgress st') = isActive (batchProgress st)
    /\ (exists extra, logs (batchProgress st') = (logs (batchProgress st) ++ extra)%list)
    /\ running st' = running st /\ started st' = started st /\ settled st' = settled st
    /\ isDemoMode st' = isDemoMode st /\ batchToken st' = batchToken st
    /\ sources st' = sources st /\ mode st' = mode st
    /\ (forall e st0 w0, tryBlock' t st w = (Throw e, st0, w0) ->
        In (errorLine t e) (logs (batchProgress st'))).
Proof.
  destruct (guarded_run t st w) as (st1 & w1 & G & F & L).
  unfold rest', processNextItem_rest, finallyP. fold tryBlock'. rewrite G.
  rewrite finallyBlock_run.
  destruct F as (A1&A2&A3&A4&A5&A6&A7&A8&A9&A10&A11&A12&A13&A14&A15&x&A16).
  eexists; exists w1. split; [reflexivity|].
  split; [eexists; reflexivity|].
  cbn. repeat split; try congruence; eauto.
Qed.

(** a [Settle] when a call is in flight *)
Lemma settle_run st w t ts :
  running st = t :: ts ->
  exists st' w1,
    handle' Settle (st, w)
    = (st', if negb (t_isDemoMode t) && Nat.ltb 1 (List.length (t_queue t))
            then record (Delay 3000) w1 else w1)
    /\ (exists st0, tryP (tryBlock' t) (catchBlock t) st w = (Ok tt, st0, w1))
    /\ queue st' = tl (queue st)
    /\ isProcessingBatch st' = false
    /\ processed (batchProgress st') = processed (batchProgress st) + 1
    /\ total (batchProgress st') = total (batchProgress st)
    /\ isActive (batchProgress st') = isActive (batchProgress st)
    /\ (exists extra, logs (batchProgress st') = (logs (batchProgress st) ++ extra)%list)
    /\ running st' = ts /\ started st' = started st
    /\ settled st' = (settled st ++ [t_item t])%list
    /\ isDemoMode st' = isDemoMode st /\ batchToken st' = batchToken st
    /\ sources st' = sources st /\ mode st' = mode st
    /\ (forall e st0 w0, tryBlock' t st w = (Throw e, st0, w0) ->
        In (errorLine t e) (logs (batchProgress st'))).
Proof.
  intros R. unfold handle', handle. rewrite R.
  destruct (rest_run t st w)
    as (st1 & w1 & E & T & Q & G & P1 & P2 & P3 & P4 & R1 & R2 & R3 & D & B & S1 & M1 & L).
  fold rest'. rewrite E.
  eexists; exists w1. split; [reflexivity|]. split; [exact T|].
  cbn. rewrite R1, R, R2, R3. repeat split; auto.
Qed.

(** a [Settle] when no call is in flight *)
Lemma settle_idle st w : running st = [] -> handle' Settle (st, w) = (st, w).
Proof. intros R. unfold handle', handle. rewrite R. reflexivity. Qed.

Lemma buildQueue_ok sheet rows index w :
  exists jobs w1, buildQueue sheet rows index w = (Ok jobs, w1) /\ extends w w1 [].
Proof.
  revert index w. induction rows as [|r rows IH]; intros index w.
  - exists [], w. split; [reflexivity | apply extends_refl].
  - cbn [buildQueue]. destruct (cell r 0) as [kw|]; [|apply IH].
    unfold bind, generateId.
    destruct (IH (S index) (tick (tick w))) as (jobs & w1 & E & X).
    rewrite E. eexists; exists w1. split; [reflexivity|].
    exact (extends_trans _ _ _ _ _
             (extends_trans _ _ _ _ _ (extends_tick w) (extends_tick (tick w))) X).
Qed.

(** [handleSheetImport] outside the bulk publish screen, with at least
    one valid row *)
Lemma import_run st w sheet rows token jobs w1 :
  mode st <> BULK_PUBLISH ->
  newQueueOf st sheet rows w = (Ok jobs, w1) ->
  jobs <> [] ->
  exists st',
    handleSheetImport sheet rows token st w = (Ok tt, st', w1)
    /\ queue st' = jobs
    /\ batchToken st' = Some token
    /\ batchProgress st'
       = {| isActive := true; total := List.length jobs; processed := 0;
            currentKeyword := "";
            logs := ["Importado " ++ JsString.ofNat (List.length jobs)
                     ++ " linhas. Iniciando fila..."] |}
    /\ isProcessingBatch st' = isProcessingBatch st
    /\ running st' = running st /\ started st' = started st /\ settled st' = settled st
    /\ isDemoMode st' = isDemoMode st /\ sources st' = sources st
    /\ mode st' = mode st /\ articles st' = articles st.
Proof.
  intros Hm Hq Hj. unfold handleSheetImport.
  assert (E : (newQueue <- lift (newQueueOf st sheet rows) ;;
               if Nat.eqb (List.length newQueue) 0
               then update (setNotification
                      (Some (error_notice "Nenhuma linha válida encontrada para processar.")))
               else
                 update (setBatchToken (Some token)) ;;;
                 update (setQueue (fun _ => newQueue)) ;;;
                 update (setBatchProgress (fun _ =>
                   {| isActive := true; total := List.length newQueue; processed := 0;
                      currentKeyword := "";
                      logs := ["Importado " ++ JsString.ofNat (List.length newQueue)
                               ++ " linhas. Iniciando fila..."] |})) ;;;
                 update (setNotification
                   (Some (success_notice "Processamento iniciado em segundo plano!"))))%component
              st w
            = (Ok tt,
               setNotification (Some (success_notice "Processamento iniciado em segundo plano!"))
                 (setBatchProgress (fun _ =>
                    {| isActive := true; total := List.length jobs; processed := 0;
                       currentKeyword := "";
                       logs := ["Importado " ++ JsString.ofNat (List.length jobs)
                                ++ " linhas. Iniciando fila..."] |})
                    (setQueue (fun _ => jobs) (setBatchToken (Some token) st))), w1)).
  { unfold bindP, lift. rewrite Hq.
    destruct jobs as [|j jobs]; [congruence|]. reflexivity. }
  destruct (mode st) eqn:Em; try congruence;
    (eexists; split; [exact E|]; cbn; repeat split; auto).
Qed.

(** an import touches neither the guard nor the calls in flight *)
Lemma import_keeps_guard st w sheet rows token :
  let st' := snd (fst (handleSheetImport sheet rows token st w)) in
  isProcessingBatch st' = isProcessingBatch st /\ running st' = running st.
Proof.
  destruct (buildQueue_ok sheet (if isDemoMode st then DEMO_ROWS else rows) 0 w)
    as (jobs & w1 & E & _).
  unfold handleSheetImport.
  destruct (mode st); unfold bindP, lift, newQueueOf, update; try rewrite E;
    try destruct (Nat.eqb (List.length jobs) 0); cbn; auto.
Qed.

(** the guard of [processNextItem] *)
Lemma start_noop st :
  queue st = [] \/ isProcessingBatch st = true -> processNextItem_start st = st.
Proof.
  unfold processNextItem_start. intros [H | H]; rewrite H; [reflexivity|].
  destruct (queue st); reflexivity.
Qed.

Lemma start_spawns st item q :
  queue st = item :: q -> isProcessingBatch st = false ->
  let st' := processNextItem_start st in
  isProcessingBatch st' = true
  /\ running st' = (running st ++ [{| t_item := item; t_queue := queue st;
                                      t_isDemoMode := isDemoMode st;
                                      t_batchToken := batchToken st;
                                      t_sources := sources st |}])%list
  /\ started st' = (started st ++ [item])%list
  /\ queue st' = queue st /\ settled st' = settled st
  /\ processed (batchProgress st') = processed (batchProgress st)
  /\ total (batchProgress st') = total (batchProgress st)
  /\ isActive (batchProgress st') = true
  /\ logs (batchProgress st')
     = (logs (batchProgress st) ++ [("Iniciando: " ++ keyword (request item))%string])%list
  /\ isDemoMode st' = isDemoMode st /\ batchToken st' = batchToken st
  /\ sources st' = sources st /\ mode st' = mode st.
Proof.
  intros Hq Hp. unfold processNextItem_start. rewrite Hq, Hp. cbn.
  rewrite Hq. repeat split; reflexivity.
Qed.

Lemma start_logs st :
  exists extra,
    logs (batchProgress (processNextItem_start st)) = (logs (batchProgress st) ++ extra)%list.
Proof.
  destruct (queue st) as [|item q] eqn:Hq.
  - rewrite start_noop by auto. exists []. rewrite app_nil_r. reflexivity.
  - destruct (isProcessingBatch st) eqn:Hp.
    + rewrite start_noop by auto. exists []. rewrite app_nil_r. reflexivity.
    + destruct (start_spawns st item q Hq Hp) as (_&_&_&_&_&_&_&_&L&_).
      rewrite L. eexists; reflexivity.
Qed.

(** The guard and the calls in flight agree, and stay so. *)
Lemma start_guard st :
  List.length (running st) = (if isProcessingBatch st then 1 else 0) ->
  List.length (running (processNextItem_start st))
  = (if isProcessingBatch (processNextItem_start st) then 1 else 0).
Proof.
  intros I. destruct (queue st) as [|item q] eqn:Hq.
  - rewrite start_noop by auto. exact I.
  - destruct (isProcessingBatch st) eqn:Hp.
    + rewrite start_noop by auto. rewrite Hp. exact I.
    + destruct (start_spawns st item q Hq Hp) as (G & R & _).
      rewrite G, R, length_app, I. reflexivity.
Qed.

Lemma handle_guard ev st w :
  List.length (running st) = (if isProcessingBatch st then 1 else 0) ->
  List.length (running (fst (handle' ev (st, w))))
  = (if isProcessingBatch (fst (handle' ev (st, w))) then 1 else 0).
Proof.
  intros I. destruct ev as [sheet rows token | | | m | demo src].
  - pose proof (import_keeps_guard st w sheet rows token) as [G R].
    unfold handle', handle.
    destruct (handleSheetImport sheet rows token st w) as [[r st'] w'].
    cbn in *. rewrite G, R. exact I.
  - destruct (running st) as [|t ts] eqn:R.
    + rewrite settle_idle by exact R. cbn. rewrite R. exact I.
    + destruct (settle_run st w t ts R) as (st' & w1 & E & _ & _ & G & _ & _ & _ & _ & R' & _).
      rewrite E. cbn [fst]. rewrite G, R'.
      destruct (isProcessingBatch st); simpl in I; [|discriminate].
      destruct ts; [reflexivity | discriminate].
  - unfold handle', handle. destruct (closeButtonShown st); exact I.
  - exact I.
  - exact I.
Qed.

Lemma step_guard ev c :
  List.length (running (fst c)) = (if isProcessingBatch (fst c) then 1 else 0) ->
  List.length (running (fst (step' c ev)))
  = (if isProcessingBatch (fst (step' c ev)) then 1 else 0).
Proof.
  destruct c as [st w]. intros I. unfold step', step. fold handle'.
  pose proof (handle_guard ev st w I) as H.
  destruct (handle' ev (st, w)) as [st' w']. cbn [fst] in *.
  apply start_guard. exact H.
Qed.

Lemma run_guard evs c :
  List.length (running (fst c)) = (if isProcessingBatch (fst c) then 1 else 0) ->
  List.length (running (fst (run' evs c)))
  = (if isProcessingBatch (fst (run' evs c)) then 1 else 0).
Proof.
  revert c. induction evs as [|ev evs IH]; intros c I; [exact I|].
  cbn. apply IH. apply step_guard. exact I.
Qed.

(** C2. In every state that the component can reach from its initial
    state, whatever happens and whatever the world answers, at most one
    call of the worker is in flight, and one is in flight exactly when
    the guard [isProcessingBatch] is set.  The worker does nothing when
    the queue is empty or the guard is set; otherwise it sets the guard
    and takes the head of the queue, in the same step. *)
Theorem at_most_one_in_flight (evs : list event) (src : keySources) (w : world) :
  let st := fst (run' evs (initial src, w)) in
  List.length (running st) <= 1
  /\ List.length (running st) = (if isProcessingBatch st then 1 else 0)
  /\ (forall st0, queue st0 = [] \/ isProcessingBatch st0 = true ->
        processNextItem_start st0 = st0)
  /\ (forall st0 item q,
        queue st0 = item :: q -> isProcessingBatch st0 = false ->
        isProcessingBatch (processNextItem_start st0) = true
        /\ running (processNextItem_start st0)
           = (running st0 ++ [{| t_item := item; t_queue := queue st0;
                                 t_isDemoMode := isDemoMode st0;
                                 t_batchToken := batchToken st0;
                                 t_sources := sources st0 |}])%list).
Proof.
  intros st.
  assert (I : List.length (running st) = (if isProcessingBatch st then 1 else 0)).
  { apply run_guard. reflexivity. }
  split; [rewrite I; destruct (isProcessingBatch st); lia|].
  split; [exact I|]. split; [apply start_noop|].
  intros st0 item q Hq Hp.
  destruct (start_spawns st0 item q Hq Hp) as (G & R & _). auto.
Qed.

Lemma run_snoc evs ev c : run' (evs ++ [ev]) c = step' (run' evs c) ev.
Proof. unfold run', run. rewrite fold_left_app. reflexivity. Qed.

Lemma repeat_snoc {A} (x : A) k : repeat x (S k) = (repeat x k ++ [x])%list.
Proof. induction k as [|k IH]; [reflexivity|]. cbn. cbn in IH. rewrite <- IH. reflexivity. Qed.

Lemma tl_skipn {A} k (l : list A) : tl (skipn k l) = skipn (S k) l.
Proof.
  revert l. induction k as [|k IH]; intros [|a l]; try reflexivity.
  change (tl (skipn k l) = skipn (S k) l). apply IH.
Qed.

Lemma firstn_snoc {A} k (l : list A) x r :
  skipn k l = x :: r -> firstn (S k) l = (firstn k l ++ [x])%list.
Proof.
  revert l. induction k as [|k IH]; intros l H.
  - cbn in H. subst l. reflexivity.
  - destruct l as [|a l]; [discriminate|].
    cbn [skipn] in H.
    change (a :: firstn (S k) l = a :: (firstn k l ++ [x]))%list.
    rewrite (IH l H). reflexivity.
Qed.

Lemma skipn_nonempty {A} k (l : list A) : k < List.length l -> skipn k l <> [].
Proof.
  intros H E. apply (f_equal (@List.length A)) in E.
  rewrite length_skipn in E. simpl in E. lia.
Qed.

(** the task of the worker when it takes the head of [q] in a batch
    imported in the state [st] with [token] *)
Let taskOf (st : state) (token : string) (q : list QueueItem) : list task :=
  match q with
  | [] => []
  | item :: _ => [{| t_item := item; t_queue := q; t_isDemoMode := isDemoMode st;
                     t_batchToken := Some token; t_sources := sources st |}]
  end.

(** A batch imported while no call is in flight, after [k] of its jobs
    have settled. *)
Lemma batch_at st w sheet rows token jobs w1 :
  isProcessingBatch st = false -> running st = [] ->
  mode st <> BULK_PUBLISH ->
  newQueueOf st sheet rows w = (Ok jobs, w1) ->
  jobs <> [] ->
  forall k, k <= List.length jobs ->
    let st' := fst (run' (SheetImport sheet rows token :: repeat Settle k) (st, w)) in
    queue st' = skipn k jobs
    /\ processed (batchProgress st') = k
    /\ total (batchProgress st') = List.length jobs
    /\ isActive (batchProgress st') = true
    /\ started st' = (started st ++ firstn (S k) jobs)%list
    /\ settled st' = (settled st ++ firstn k jobs)%list
    /\ isProcessingBatch st' = Nat.ltb k (List.length jobs)
    /\ running st' = taskOf st token (skipn k jobs)
    /\ isDemoMode st' = isDemoMode st /\ batchToken st' = Some token
    /\ sources st' = sources st /\ mode st' = mode st.
Proof.
  intros Hp Hr Hm Hq Hj k. induction k as [|k IH]; intros Hk.
  - unfold run', run. cbn [repeat fold_left]. unfold step, handle.
    destruct (import_run st w sheet rows token jobs w1 Hm Hq Hj)
      as (st1 & E & Q & T & B & P1 & R1 & S1 & S2 & D & K & M & _).
    rewrite E.
    destruct jobs as [|j jobs]; [congruence|].
    destruct (start_spawns st1 j jobs Q ltac:(congruence))
      as (G & R & S3 & Q' & S4 & P2 & T2 & A2 & _ & D2 & B2 & K2 & M2).
    rewrite B in P2, T2. cbn [processed total] in P2, T2.
    rewrite R1, Hr, Q, D, T, K in R.
    cbn [fst skipn firstn taskOf].
    repeat split; try congruence.
    + rewrite S4, S2, app_nil_r. reflexivity.
    + rewrite G. reflexivity.
    + rewrite R. reflexivity.
  - specialize (IH ltac:(lia)).
    rewrite repeat_snoc, app_comm_cons, run_snoc.
    set (c := run' (SheetImport sheet rows token :: repeat Settle k) (st, w)) in *.
    destruct c as [stk wk]. cbn [fst] in IH.
    destruct IH as (Q & P1 & T1 & A1 & S1 & S2 & G & R & D & B & K & M).
    destruct (skipn k jobs) as [|item q] eqn:Sk;
      [exfalso; eapply (skipn_nonempty k jobs); [lia | exact Sk]|].
    cbn [taskOf] in R.
    unfold step', step. fold handle'.
    destruct (settle_run stk wk _ _ R)
      as (st2 & w2 & E & _ & Q2 & G2 & P2 & T2 & A2 & _ & R2 & S3 & S4 & D2 & B2 & K2 & M2 & _).
    rewrite E. cbn [fst]. cbn [t_item] in S4.
    assert (Q3 : queue st2 = skipn (S k) jobs).
    { rewrite Q2, Q, <- Sk. apply tl_skipn. }
    assert (F1 : firstn (S k) jobs = (firstn k jobs ++ [item])%list)
      by (eapply firstn_snoc; eauto).
    destruct (skipn (S k) jobs) as [|item' q'] eqn:Sk'.
    + rewrite start_noop by auto.
      assert (Hn : S k = List.length jobs).
      { apply (f_equal (@List.length QueueItem)) in Sk'.
        rewrite length_skipn in Sk'. simpl in Sk'. lia. }
      cbn [taskOf].
      repeat split; try congruence.
      * lia.
      * rewrite S3, S1. f_equal.
        rewrite (firstn_all2 (n := S (S k))) by lia.
        rewrite (firstn_all2 (n := S k)) by lia. reflexivity.
      * rewrite S4, S2, F1, app_assoc. reflexivity.
      * rewrite G2. symmetry. apply Nat.ltb_ge. lia.
    + destruct (start_spawns st2 item' q' Q3 G2)
        as (G3 & R3 & S5 & Q4 & S6 & P3 & T3 & A3 & _ & D3 & B3 & K3 & M3).
      assert (Hn : S k < List.length jobs).
      { apply (f_equal (@List.length QueueItem)) in Sk'.
        rewrite length_skipn in Sk'. simpl in Sk'. lia. }
      assert (F2 : firstn (S (S k)) jobs = (firstn (S k) jobs ++ [item'])%list)
        by (eapply firstn_snoc; eauto).
      rewrite R2, Q3, D2, D, B2, B, K2, K in R3.
      cbn [taskOf].
      repeat split; try congruence.
      * lia.
      * rewrite S5, S3, S1, F2, app_assoc. reflexivity.
      * rewrite S6, S4, S2, F1, app_assoc. reflexivity.
      * rewrite G3. symmetry. apply Nat.ltb_lt. lia.
      * rewrite R3. reflexivity.
Qed.

(** C1. A batch imported while no call of the worker is in flight, and
    then left to run.  After [k] jobs have settled the queue holds the
    jobs from the k-th on, the worker has taken the first [k+1] jobs in
    the order of the import and settled the first [k], and [processed]
    is [k] while [total] is the number of jobs.  After as many settles
    as there are jobs the queue is empty and [processed = total].  This
    holds whatever the world answers: a job whose [try] block throws is
    logged with its keyword and the message, and counted like any
    other. *)
Theorem batch_processes_every_job
    (st : state) (w : world) (sheet : string) (rows : list row) (token : string)
    (jobs : list QueueItem) (w1 : world) :
  isProcessingBatch st = false -> running st = [] ->
  mode st <> BULK_PUBLISH ->
  newQueueOf st sheet rows w = (Ok jobs, w1) ->
  jobs <> [] ->
  let after := fun k => run' (SheetImport sheet rows token :: repeat Settle k) (st, w) in
  let n := List.length jobs in
  (forall k, k <= n ->
     queue (fst (after k)) = skipn k jobs
     /\ started (fst (after k)) = (started st ++ firstn (S k) jobs)%list
     /\ settled (fst (after k)) = (settled st ++ firstn k jobs)%list
     /\ processed (batchProgress (fst (after k))) = k
     /\ total (batchProgress (fst (after k))) = n
     /\ List.length (running (fst (after k))) = (if Nat.ltb k n then 1 else 0))
  /\ (queue (fst (after n)) = []
      /\ processed (batchProgress (fst (after n))) = total (batchProgress (fst (after n)))
      /\ total (batchProgress (fst (after n))) = n
      /\ started (fst (after n)) = (started st ++ jobs)%list
      /\ settled (fst (after n)) = (settled st ++ jobs)%list
      /\ isProcessingBatch (fst (after n)) = false
      /\ running (fst (after n)) = [])
  /\ (forall k t e st0 w0,
        k < n ->
        running (fst (after k)) = [t] ->
        tryBlock' t (fst (after k)) (snd (after k)) = (Throw e, st0, w0) ->
        In (errorLine t e) (logs (batchProgress (fst (after (S k)))))
        /\ processed (batchProgress (fst (after (S k)))) = S k
        /\ queue (fst (after (S k))) = skipn (S k) jobs).
Proof.
  intros Hp Hr Hm Hq Hj after n. subst n.
  pose proof (batch_at st w sheet rows token jobs w1 Hp Hr Hm Hq Hj) as B.
  split; [|split].
  - intros k Hk. destruct (B k Hk) as (Q & P1 & T1 & _ & S1 & S2 & _ & R & _).
    fold (after k) in Q, P1, T1, S1, S2, R.
    repeat split; auto.
    rewrite R. destruct (Nat.ltb k (List.length jobs)) eqn:E.
    + apply Nat.ltb_lt in E.
      destruct (skipn k jobs) eqn:Sk;
        [exfalso; eapply (skipn_nonempty k jobs); eauto | reflexivity].
    + apply Nat.ltb_ge in E. rewrite skipn_all2 by exact E. reflexivity.
  - destruct (B (List.length jobs) (le_n _)) as (Q & P1 & T1 & _ & S1 & S2 & G & R & _).
    fold (after (List.length jobs)) in Q, P1, T1, S1, S2, G, R.
    rewrite skipn_all in Q, R. rewrite firstn_all in S2.
    rewrite firstn_all2 in S1 by lia.
    rewrite Nat.ltb_irrefl in G.
    repeat split; auto. congruence.
  - intros k t e st0 w0 Hk Rk Et.
    destruct (B (S k) Hk) as (Q & P1 & _).
    fold (after (S k)) in Q, P1.
    split; [|split; assumption].
    unfold after. rewrite repeat_snoc, app_comm_cons, run_snoc.
    fold (after k). destruct (after k) as [stk wk]. cbn [fst snd] in *.
    unfold step', step. fold handle'.
    destruct (settle_run stk wk t [] Rk) as (st2 & w2 & E & X).
    rewrite E. cbn [fst].
    destruct (start_logs st2) as [extra L]. rewrite L.
    apply in_or_app. left.
    repeat (destruct X as [_ X]). eapply X. exact Et.
Qed.

Lemma rotate_emits (Q : Js.event -> Prop) prompt keys lastError :
  (forall k, Q (Generate k prompt)) -> emits Q (rotate prompt keys lastError).
Proof.
  intros HQ. revert lastError. induction keys as [|k keys IH]; intros lastError.
  - apply emits_throw.
  - cbn [rotate]. apply emits_try; [|intros e; apply IH].
    unfold attempt. apply emits_bind; [apply emits_generateContent; apply HQ|].
    intros [e|t]; [apply emits_throw|].
    destruct (String.eqb t ""); [apply emits_throw | apply emits_ret].
Qed.

Lemma generateGuestPostContent_emits (Q : Js.event -> Prop) src req :
  (forall k p, Q (Generate k p)) -> emits Q (generateGuestPostContent promptOf src req).
Proof.
  intros HQ. unfold generateGuestPostContent.
  destruct (Nat.eqb _ 0); [apply emits_throw | apply rotate_emits; intros k; apply HQ].
Qed.

Lemma uploadToDrive_emits (Q : Js.event -> Prop) token title html :
  Q (Fetch (Drive.uploadRequest stringify token title html)) ->
  emits Q (Drive.uploadToDrive stringify text token title html).
Proof.
  intros HQ. unfold Drive.uploadToDrive.
  apply emits_bind; [apply emits_fetch; exact HQ|].
  intros [e|status body]; [apply emits_throw|].
  destruct (negb (ok status)); [|apply emits_json_of].
  apply emits_bind; [apply emits_json_of|]. intros errorData.
  apply emits_bind; [|intros msg; apply emits_throw].
  unfold Drive.errorMessage.
  apply emits_bind; [apply emits_prop|]. intros e.
  apply emits_bind; [|intros m; apply emits_ret].
  destruct e as [[]|]; first [apply emits_ret | apply emits_prop].
Qed.

Lemma updateSheetCell_emits (Q : Js.event -> Prop) token sheet rowIndex value :
  Q (Fetch (Sheets.updateSheetCell_request stringify token sheet rowIndex value "F")) ->
  emits Q (Sheets.updateSheetCell stringify token sheet rowIndex value None).
Proof.
  intros HQ. unfold Sheets.updateSheetCell.
  apply emits_bind; [apply emits_fetch; exact HQ|].
  intros [e|status body]; [apply emits_throw|].
  destruct (ok status); [apply emits_ret | apply emits_throw].
Qed.

(** What the [try] and [catch] of the worker ask of the world for the
    task [t]: the simulated waits of the demo mode, generation requests,
    the upload of the document, and the write of one cell, in the row of
    the item of [t]. *)
Lemma worker_emits (Q : Js.event -> Prop) t :
  Q (Delay 1500) -> Q (Delay 1000) ->
  (forall k p, Q (Generate k p)) ->
  (forall token title html, Q (Fetch (Drive.uploadRequest stringify token title html))) ->
  (forall token value,
     Q (Fetch (Sheets.updateSheetCell_request stringify token
                 (sheetId (t_item t)) (rowIndex (t_item t)) value "F"))) ->
  emitsP Q (tryP (tryBlock' t) (catchBlock t)).
Proof.
  intros Q1 Q2 Q3 Q4 Q5.
  apply emitsP_try; [|intros e; apply emitsP_update].
  unfold tryBlock', tryBlock, generateStep, exportStep, addLog.
  repeat first
    [ apply emitsP_bind; [|intros ?]
    | apply emitsP_update
    | apply emitsP_ret
    | apply emitsP_throw
    | apply emitsP_lift
    | apply emits_delay; assumption
    | apply generateGuestPostContent_emits; assumption
    | apply uploadToDrive_emits; apply Q4
    | apply updateSheetCell_emits; apply Q5
    | apply emits_prop
    | apply emits_generateId
    | apply emits_newDate
    | match goal with
      | |- emitsP _ (if ?c then _ else _) => destruct c
      | |- emitsP _ (match ?c with Some _ => _ | None => _ end) => destruct c
      end ].
Qed.

(** the events of a [Settle]: those of the [try] and [catch], then the
    cool-down if the [finally] block decides so *)
Lemma settle_events (Q : Js.event -> Prop) st w t ts :
  running st = t :: ts ->
  Q (Delay 1500) -> Q (Delay 1000) ->
  (forall k p, Q (Generate k p)) ->
  (forall token title html, Q (Fetch (Drive.uploadRequest stringify token title html))) ->
  (forall token value,
     Q (Fetch (Sheets.updateSheetCell_request stringify token
                 (sheetId (t_item t)) (rowIndex (t_item t)) value "F"))) ->
  exists evs,
    trace (snd (handle' Settle (st, w)))
    = (trace w ++ evs
       ++ (if negb (t_isDemoMode t) && Nat.ltb 1 (List.length (t_queue t))
           then [Delay 3000] else []))%list
    /\ Forall Q evs.
Proof.
  intros R Q1 Q2 Q3 Q4 Q5.
  destruct (settle_run st w t ts R) as (st' & w1 & E & (st0 & T) & _).
  destruct (worker_emits Q t Q1 Q2 Q3 Q4 Q5 _ _ _ _ _ T) as (evs & (X & _) & F).
  exists evs. split; [|exact F].
  rewrite E. cbn [snd].
  destruct (negb (t_isDemoMode t) && Nat.ltb 1 (List.length (t_queue t)));
    cbn [trace record]; rewrite X; [rewrite <- app_assoc | rewrite app_nil_r]; reflexivity.
Qed.

Lemma step_world c ev : snd (step' c ev) = snd (handle' ev c).
Proof.
  unfold step', step. fold handle'. destruct c as [st w].
  destruct (handle' ev (st, w)); reflexivity.
Qed.

Lemma not_in_of_Forall (x : Js.event) evs : Forall (fun ev => ev <> x) evs -> ~ In x evs.
Proof.
  intros F H. rewrite Forall_forall in F. exact (F x H eq_refl).
Qed.

(** The wait of the [finally] block.  When a call of the worker settles,
    the events of its [try] and [catch] contain no wait of 3000 ms, and
    they are followed by one such wait exactly when demo mode was off
    and the queue held more than one job, both as of the render that
    started the call.  In a batch imported while no call was in flight,
    and left alone, this means: after the k-th job the worker waits
    3000 ms, before the next job is taken, exactly when demo mode is
    off and the job was not the last one. *)
Lemma cool_down_of_the_closure
    (st : state) (w : world) (sheet : string) (rows : list row) (token : string)
    (jobs : list QueueItem) (w1 : world) :
  isProcessingBatch st = false -> running st = [] ->
  mode st <> BULK_PUBLISH ->
  newQueueOf st sheet rows w = (Ok jobs, w1) ->
  jobs <> [] ->
  let after := fun k => run' (SheetImport sheet rows token :: repeat Settle k) (st, w) in
  (forall st0 w0 t ts,
     running st0 = t :: ts ->
     exists evs,
       trace (snd (handle' Settle (st0, w0)))
       = (trace w0 ++ evs
          ++ (if negb (t_isDemoMode t) && Nat.ltb 1 (List.length (t_queue t))
              then [Delay 3000] else []))%list
       /\ ~ In (Delay 3000) evs)
  /\ (forall k, k < List.length jobs ->
        exists evs,
          trace (snd (after (S k)))
          = (trace (snd (after k)) ++ evs
             ++ (if negb (isDemoMode st) && Nat.ltb (S k) (List.length jobs)
                 then [Delay 3000] else []))%list
          /\ ~ In (Delay 3000) evs
          /\ queue (fst (after k)) = skipn k jobs
          /\ queue (fst (after (S k))) = skipn (S k) jobs).
Proof.
  intros Hp Hr Hm Hq Hj after.
  assert (G : forall st0 w0 t ts,
     running st0 = t :: ts ->
     exists evs,
       trace (snd (handle' Settle (st0, w0)))
       = (trace w0 ++ evs
          ++ (if negb (t_isDemoMode t) && Nat.ltb 1 (List.length (t_queue t))
              then [Delay 3000] else []))%list
       /\ ~ In (Delay 3000) evs).
  { intros st0 w0 t ts R.
    destruct (settle_events (fun ev => ev <> Delay 3000) st0 w0 t ts R)
      as (evs & T & F); try (intros; discriminate).
    exists evs. split; [exact T | apply not_in_of_Forall; exact F]. }
  split; [exact G|].
  intros k Hk.
  pose proof (batch_at st w sheet rows token jobs w1 Hp Hr Hm Hq Hj) as B.
  destruct (B k ltac:(lia)) as (Q & _ & _ & _ & _ & _ & _ & R & _).
  destruct (B (S k) Hk) as (Q' & _).
  fold (after k) in Q, R. fold (after (S k)) in Q'.
  destruct (skipn k jobs) as [|item q] eqn:Sk;
    [exfalso; eapply (skipn_nonempty k jobs); eauto|].
  cbn [taskOf] in R.
  assert (E : after (S k) = step' (after k) Settle).
  { unfold after. rewrite repeat_snoc, app_comm_cons, run_snoc. reflexivity. }
  destruct (G (fst (after k)) (snd (after k)) _ _ R) as (evs & T & N).
  exists evs. rewrite E, step_world. rewrite <- surjective_pairing in T.
  rewrite T. cbn [t_isDemoMode t_queue].
  replace (Nat.ltb 1 (List.length (item :: q))) with (Nat.ltb (S k) (List.length jobs)).
  - rewrite <- E. repeat split; auto.
  - apply (f_equal (@List.length QueueItem)) in Sk. rewrite length_skipn in Sk.
    destruct (Nat.ltb (S k) (List.length jobs)) eqn:A; symmetry.
    + apply Nat.ltb_lt in A. apply Nat.ltb_lt. lia.
    + apply Nat.ltb_ge in A. apply Nat.ltb_ge. lia.
Qed.

(** C5, as the code has it.  An import with at least one valid row,
    outside the bulk publish screen, makes the new jobs the whole queue
    and restarts the progress record: [total] is the number of new
    jobs, [processed] is 0 and the log is the one line of the import,
    whether or not a job is in flight.  It starts no second call of the
    worker: the guard and the call in flight are left as they are, and
    the worker takes the head of the new queue on this event only when
    the guard is not set. *)
Theorem import_replaces_queue
    (st : state) (w : world) (sheet : string) (rows : list row) (token : string)
    (jobs : list QueueItem) (w1 : world) :
  mode st <> BULK_PUBLISH ->
  newQueueOf st sheet rows w = (Ok jobs, w1) ->
  jobs <> [] ->
  let st' := fst (handle' (SheetImport sheet rows token) (st, w)) in
  let st'' := fst (step' (st, w) (SheetImport sheet rows token)) in
  queue st' = jobs /\ queue st'' = jobs
  /\ total (batchProgress st'') = List.length jobs
  /\ processed (batchProgress st'') = 0
  /\ logs (batchProgress st')
     = ["Importado " ++ JsString.ofNat (List.length jobs) ++ " linhas. Iniciando fila..."]
  /\ isProcessingBatch st' = isProcessingBatch st
  /\ running st' = running st
  /\ (isProcessingBatch st = true -> st'' = st')
  /\ (isProcessingBatch st = false ->
      running st'' = (running st ++ [{| t_item := hd (Build_QueueItem "" (Build_GuestPostRequest "" "" "" "" "" "") 0 "" pending) jobs;
                                        t_queue := jobs; t_isDemoMode := isDemoMode st;
                                        t_batchToken := Some token;
                                        t_sources := sources st |}])%list).
Proof.
  intros Hm Hq Hj st' st''.
  destruct (import_run st w sheet rows token jobs w1 Hm Hq Hj)
    as (st1 & E & Q & T & B & P1 & R1 & S1 & S2 & D & K & M & _).
  assert (E' : st' = st1).
  { unfold st', handle', handle. rewrite E. reflexivity. }
  assert (E'' : st'' = processNextItem_start st1).
  { unfold st'', step', step, handle. rewrite E. reflexivity. }
  rewrite E', E''.
  destruct jobs as [|j jobs]; [congruence|].
  destruct (isProcessingBatch st) eqn:Hp.
  - rewrite start_noop by (right; congruence).
    rewrite B. cbn. repeat split; auto. discriminate.
  - destruct (start_spawns st1 j jobs Q ltac:(congruence))
      as (G & R & S3 & Q' & S4 & P2 & T2 & A2 & _ & D2 & B2 & K2 & M2).
    rewrite Q', P2, T2, R, B, Q, R1, D, T, K. cbn.
    repeat split; auto. discriminate.
Qed.

(** every item of an import carries the index of the row it was made
    from, rows without a keyword being skipped and not counted out *)
Lemma buildQueue_rows sheet rows index w jobs w1 :
  buildQueue sheet rows index w = (Ok jobs, w1) ->
  forall item, In item jobs ->
    index <= rowIndex item
    /\ sheetId item = sheet
    /\ exists r, nth_error rows (rowIndex item - index) = Some r
                 /\ cell r 0 = Some (keyword (request item)).
Proof.
  revert index w jobs w1. induction rows as [|r rows IH]; intros index w jobs w1 H item Hin.
  - inversion H; subst. destruct Hin.
  - cbn [buildQueue] in H. destruct (cell r 0) as [kw|] eqn:C.
    + unfold bind, generateId in H.
      destruct (buildQueue_ok sheet rows (S index) (tick (tick w))) as (js & w2 & E & _).
      rewrite E in H. inversion H; subst. destruct Hin as [<- | Hin].
      * cbn. rewrite Nat.sub_diag. repeat split; auto. exists r. auto.
      * destruct (IH _ _ _ _ E item Hin) as (L & Hs & r' & N & C').
        repeat split; [lia | exact Hs|]. exists r'. split; [|exact C'].
        replace (rowIndex item - index) with (S (rowIndex item - S index)) by lia.
        exact N.
    + destruct (IH _ _ _ _ H item Hin) as (L & Hs & r' & N & C').
      repeat split; [lia | exact Hs|]. exists r'. split; [|exact C'].
      replace (rowIndex item - index) with (S (rowIndex item - S index)) by lia.
      exact N.
Qed.

(** but for an import, no event puts an item into the queue or changes
    one: the queue only loses its head *)
Lemma queue_only_shrinks c ev :
  (forall sheet rows token, ev <> SheetImport sheet rows token) ->
  queue (fst (step' c ev)) = queue (fst c) \/ queue (fst (step' c ev)) = tl (queue (fst c)).
Proof.
  intros Hev. destruct c as [st w]. unfold step', step. fold handle'.
  assert (Hs : forall st0, queue (processNextItem_start st0) = queue st0).
  { intros st0. destruct (queue st0) as [|item q] eqn:Hq.
    - rewrite start_noop by auto. exact Hq.
    - destruct (isProcessingBatch st0) eqn:Hp.
      + rewrite start_noop by auto. exact Hq.
      + destruct (start_spawns st0 item q Hq Hp) as (_&_&_&Q&_). congruence. }
  destruct ev as [sheet rows token | | | m | demo src].
  - exfalso. eapply Hev. reflexivity.
  - destruct (running st) as [|t ts] eqn:R.
    + rewrite settle_idle by exact R. left. apply Hs.
    + destruct (settle_run st w t ts R) as (st' & w1 & E & _ & Q & _).
      rewrite E. right. cbn [fst]. rewrite Hs. exact Q.
  - left. unfold handle', handle. destruct (closeButtonShown st); cbn; rewrite Hs; reflexivity.
  - left. cbn. rewrite Hs. reflexivity.
  - left. cbn. rewrite Hs. reflexivity.
Qed.

(** C10. The cell written for a job is in the row the job was made
    from.  [updateSheetCell] writes the column (F when none is given) at
    row [rowIndex + 2]: row 2 for index 0, row 7 for index 5.  An import
    gives every job the index of its row in the sheet data, rows
    without keyword included in the count; the worker's only [PUT] for
    a job is that write, with the sheet and the index of the job and
    column F; and no event other than an import changes the items of
    the queue, which only loses its head. *)
Theorem writeback_targets_source_row :
  (Sheets.range 0 "F" = "F2" /\ Sheets.range 5 "F" = "F7")
  /\ (forall token sheet rowIndex value column w,
        let letter := match column with Some c => c | None => "F" end in
        let r := Sheets.updateSheetCell_request stringify token sheet rowIndex value letter in
        trace (snd (Sheets.updateSheetCell stringify token sheet rowIndex value column w))
        = (trace w ++ [Fetch r])%list
        /\ req_method r = "PUT"
        /\ req_url r = "https://sheets.googleapis.com/v4/spreadsheets/" ++ sheet
                       ++ "/values/" ++ (letter ++ JsString.ofNat (rowIndex + 2))
                       ++ "?valueInputOption=USER_ENTERED")
  /\ (forall sheet rows w jobs w1 item,
        buildQueue sheet rows 0 w = (Ok jobs, w1) -> In item jobs ->
        sheetId item = sheet
        /\ exists r, nth_error rows (rowIndex item) = Some r
                     /\ cell r 0 = Some (keyword (request item)))
  /\ (forall st w t ts,
        running st = t :: ts ->
        exists evs,
          trace (snd (handle' Settle (st, w))) = (trace w ++ evs)%list
          /\ Forall (fun ev => forall r, ev = Fetch r -> req_method r = "PUT" ->
                       exists token value,
                         r = Sheets.updateSheetCell_request stringify token
                               (sheetId (t_item t)) (rowIndex (t_item t)) value "F") evs)
  /\ (forall c ev,
        (forall sheet rows token, ev <> SheetImport sheet rows token) ->
        queue (fst (step' c ev)) = queue (fst c)
        \/ queue (fst (step' c ev)) = tl (queue (fst c))).
Proof.
  split; [split; reflexivity|]. split; [|split; [|split]].
  - intros token sheet rowIndex value column w letter r.
    split; [|split; reflexivity].
    unfold Sheets.updateSheetCell, bind, fetch. fold letter. fold r.
    destruct (net w _ r) as [e|status body]; [reflexivity|].
    destruct (ok status); reflexivity.
  - intros sheet rows w jobs w1 item H Hin.
    destruct (buildQueue_rows sheet rows 0 w jobs w1 H item Hin) as (_ & Hs & r & N & C).
    rewrite Nat.sub_0_r in N. eauto.
  - intros st w t ts R.
    destruct (settle_events
                (fun ev => forall r, ev = Fetch r -> req_method r = "PUT" ->
                   exists token value,
                     r = Sheets.updateSheetCell_request stringify token
                           (sheetId (t_item t)) (rowIndex (t_item t)) value "F")
                st w t ts R) as (evs & T & F);
      try (intros; discriminate).
    + intros token title html r E M. inversion E; subst. discriminate M.
    + intros token value r E M. inversion E; subst. eauto.
    + eexists. split; [exact T|].
      apply Forall_app. split; [exact F|].
      destruct (_ && _); repeat constructor. intros r E. discriminate E.
  - apply queue_only_shrinks.
Qed.

End Worker.
End AppFacts.

(** ** The cool-down after an import during a job *)

Module CoolDownFacts.
Import Js JsFacts App AppFacts Examples MoreExamples.

(** C8.  The [finally] block of the worker decides on the wait of
    3000 ms with the queue and the demo flag of the render that started
    the call, not with the queue that the job leaves behind: the events
    of a call that settles end with the wait exactly when that render
    had demo mode off and more than one job.  So the wait and the jobs
    that remain come apart when a sheet is imported while a job is in
    flight.  First run: the sheet with the one row A is imported, then,
    while A is in flight, the sheet with the rows C and D; demo mode is
    off.  When A settles, D remains in the queue and is taken at once:
    there is no wait.  Second run: the sheet with the rows A and B is
    imported, then, while A is in flight, the sheet with the one row C.
    When A settles the worker waits 3000 ms, though no job remains. *)
Theorem cool_down_reads_stale_queue :
  let run := App.run plain plain keywordPrompt contentOnly keywordTitle in
  let step := App.step plain plain keywordPrompt contentOnly keywordTitle in
  let start := (App.initial exampleSources, exampleWorld) in
  (forall stringify text promptOf convertMarkdownToHtml titleOf st w t ts,
     running st = t :: ts ->
     exists evs,
       trace (snd (handle stringify text promptOf convertMarkdownToHtml titleOf Settle (st, w)))
       = (trace w ++ evs
          ++ (if negb (t_isDemoMode t) && Nat.ltb 1 (List.length (t_queue t))
              then [Delay 3000] else []))%list
       /\ ~ In (Delay 3000) evs)
  /\ (let c1 := run [SheetImport "sheet" [["A"]] "tok";
                     SheetImport "sheet-2" secondRows "tok"] start in
      let c2 := step c1 Settle in
      isDemoMode (fst c1) = false
      /\ inFlight c1 = ["A"] /\ queued c1 = ["C"; "D"]
      /\ queued c2 = ["D"] /\ inFlight c2 = ["D"]
      /\ existsb isCoolDown (eventsSince c1 c2) = false)
  /\ (let c1 := run [SheetImport "sheet" exampleRows "tok";
                     SheetImport "sheet-2" [["C"]] "tok"] start in
      let c2 := step c1 Settle in
      isDemoMode (fst c1) = false
      /\ inFlight c1 = ["A"] /\ queued c1 = ["C"]
      /\ queued c2 = [] /\ inFlight c2 = []
      /\ existsb isCoolDown (eventsSince c1 c2) = true).
Proof.
  intros run step start. split; [|split].
  - intros stringify text promptOf convertMarkdownToHtml titleOf st w t ts R.
    destruct (settle_events stringify text promptOf convertMarkdownToHtml titleOf
                (fun ev => ev <> Delay 3000) st w t ts R)
      as (evs & T & F); try (intros; discriminate).
    exists evs. split; [exact T | apply not_in_of_Forall; exact F].
  - repeat split; vm_compute; reflexivity.
  - repeat split; vm_compute; reflexivity.
Qed.

End CoolDownFacts.

(** ** The statements at concrete inputs *)

Module Checks.
Import Js Wordpress Examples.

(** C6 at a site whose first strategy is answered with 404 and whose
    second with 200: the body of the second is returned. *)
Lemma not_found_then_second_strategy_witness :
  let w := scripted [Answered 404 (Parsed JNull)] (Answered 200 (Parsed (JNum 1))) in
  net w (List.length (trace w))
      (strategyRequest sameText exampleSite exampleOptions
         (strategyUrl (cleanWpUrl (site_url exampleSite)) "/posts" 1))
  = Answered 404 (Parsed JNull)
  /\ exists w',
       fetchWpWithFallback sameText exampleSite "/posts" exampleOptions w = (Ok (JNum 1), w')
       /\ List.length (trace w') = 2.
Proof.
  intros w. split; [reflexivity|].
  destruct (FallbackFacts.not_found_then_second_strategy
              sameText exampleSite "/posts" exampleOptions w (Parsed JNull) eq_refl)
    as [_ H].
  destruct (H (JNum 1) eq_refl) as (w' & E & T).
  exists w'. split; [exact E|]. rewrite T. reflexivity.
Defined.

(** C1 at a sheet of two rows, imported into the initial state: after
    two settles the queue is empty and [processed = total]. *)
Lemma batch_processes_every_job_witness :
  let st := App.initial exampleSources in
  let jobs := exampleJobs in
    App.isProcessingBatch st = false /\ App.running st = []
    /\ App.mode st <> App.BULK_PUBLISH
    /\ App.newQueueOf st "sheet" exampleRows exampleWorld = (Ok jobs, exampleWorldAfterImport)
    /\ jobs <> []
    /\ let c := App.run plain plain keywordPrompt contentOnly keywordTitle
                  (App.SheetImport "sheet" exampleRows "tok"
                   :: repeat App.Settle (List.length jobs)) (st, exampleWorld) in
       App.queue (fst c) = []
       /\ App.processed (App.batchProgress (fst c)) = App.total (App.batchProgress (fst c)).
Proof.
  intros st jobs.
  split; [reflexivity|]. split; [reflexivity|]. split; [discriminate|].
  split; [reflexivity|]. split; [discriminate|].
  destruct (AppFacts.batch_processes_every_job plain plain keywordPrompt contentOnly
              keywordTitle st exampleWorld "sheet" exampleRows "tok" jobs
              exampleWorldAfterImport
              eq_refl eq_refl ltac:(discriminate) eq_refl ltac:(discriminate))
    as (_ & (Q & P & _) & _).
  split; [exact Q | exact P].
Defined.

(** the wait at the same sheet, demo mode off and the batch left alone:
    the first job is followed by the wait, the second and last one is
    not *)
Example cool_down_in_a_batch_left_alone :
  let st := App.initial exampleSources in
  let after := fun k =>
    App.run plain plain keywordPrompt contentOnly keywordTitle
      (App.SheetImport "sheet" exampleRows "tok" :: repeat App.Settle k) (st, exampleWorld) in
  let jobs := exampleJobs in
    App.isProcessingBatch st = false /\ App.running st = []
    /\ App.mode st <> App.BULK_PUBLISH
    /\ App.newQueueOf st "sheet" exampleRows exampleWorld = (Ok jobs, exampleWorldAfterImport)
    /\ jobs <> []
    /\ (exists evs, trace (snd (after 1))
                    = (trace (snd (after 0)) ++ evs ++ [Delay 3000])%list
                    /\ ~ In (Delay 3000) evs)
    /\ (exists evs, trace (snd (after 2))
                    = (trace (snd (after 1)) ++ evs ++ [])%list
                    /\ ~ In (Delay 3000) evs).
Proof.
  intros st after jobs.
  split; [reflexivity|]. split; [reflexivity|]. split; [discriminate|].
  split; [reflexivity|]. split; [discriminate|].
  destruct (AppFacts.cool_down_of_the_closure plain plain keywordPrompt contentOnly
              keywordTitle st exampleWorld "sheet" exampleRows "tok" jobs
              exampleWorldAfterImport
              eq_refl eq_refl ltac:(discriminate) eq_refl ltac:(discriminate))
    as (_ & H).
  split.
  - destruct (H 0 ltac:(cbn; lia)) as (evs & T & N & _). exists evs. split; [exact T | exact N].
  - destruct (H 1 ltac:(cbn; lia)) as (evs & T & N & _). exists evs. split; [exact T | exact N].
Defined.

(** C5, as the code has it, at the same sheet imported into the initial
    state *)
Lemma import_replaces_queue_witness :
  let st := App.initial exampleSources in
  let jobs := exampleJobs in
    App.mode st <> App.BULK_PUBLISH
    /\ App.newQueueOf st "sheet" exampleRows exampleWorld = (Ok jobs, exampleWorldAfterImport)
    /\ jobs <> []
    /\ App.queue (fst (App.handle plain plain keywordPrompt contentOnly keywordTitle
                         (App.SheetImport "sheet" exampleRows "tok") (st, exampleWorld)))
       = jobs.
Proof.
  intros st jobs.
  split; [discriminate|]. split; [reflexivity|]. split; [discriminate|].
  destruct (AppFacts.import_replaces_queue plain plain keywordPrompt contentOnly
              keywordTitle st exampleWorld "sheet" exampleRows "tok" jobs
              exampleWorldAfterImport
              ltac:(discriminate) eq_refl ltac:(discriminate))
    as (Q & _).
  exact Q.
Defined.

(** C5 as the specification has it fails.  A sheet with the rows A and
    B is imported and A settles: B is in flight, [total] is 2 and
    [processed] is 1.  A sheet with the one row C is imported now.  The
    queue is C alone, not B followed by C; [total] is 1, not 3;
    [processed] is 0 and the log is one line, though a batch was
    active. *)
Lemma import_while_active_counterexample :
  let run := App.run plain plain keywordPrompt contentOnly keywordTitle in
  let step := App.step plain plain keywordPrompt contentOnly keywordTitle in
  let c1 := run [App.SheetImport "sheet" exampleRows "tok"; App.Settle]
                (App.initial exampleSources, exampleWorld) in
  let c2 := step c1 (App.SheetImport "sheet-2" [["C"]] "tok") in
  let keywords := map (fun i => Gemini.keyword (App.request i)) in
  (App.isProcessingBatch (fst c1) = true
   /\ keywords (App.queue (fst c1)) = ["B"]
   /\ App.total (App.batchProgress (fst c1)) = 2
   /\ App.processed (App.batchProgress (fst c1)) = 1)
  /\ (keywords (App.queue (fst c2)) = ["C"]
      /\ App.total (App.batchProgress (fst c2)) = 1
      /\ App.processed (App.batchProgress (fst c2)) = 0
      /\ List.length (App.logs (App.batchProgress (fst c2))) = 1
      /\ List.length (App.running (fst c2)) = 1)
  /\ ~ (exists new,
          App.queue (fst c2) = (App.queue (fst c1) ++ new)%list
          /\ App.total (App.batchProgress (fst c2))
             = App.total (App.batchProgress (fst c1)) + List.length new
          /\ App.processed (App.batchProgress (fst c2))
             = App.processed (App.batchProgress (fst c1))).
Proof.
  intros run step c1 c2 keywords.
  assert (P1 : App.processed (App.batchProgress (fst c1)) = 1) by (vm_compute; reflexivity).
  assert (P2 : App.processed (App.batchProgress (fst c2)) = 0) by (vm_compute; reflexivity).
  split; [repeat split; vm_compute; reflexivity|].
  split; [repeat split; vm_compute; reflexivity|].
  intros (new & _ & _ & H). rewrite P1, P2 in H. discriminate H.
Qed.

(** the JSON path at a 401 of the first strategy and at a 403 of the
    third: the error names the strategy, and no later request is made *)
Example json_path_stops_at_auth_error :
  (let w := scripted [] (Answered 401 (Parsed JNull)) in
   fst (fetchWpWithFallback sameText exampleSite "/posts" exampleOptions w)
   = Throw (Error "Erro 401/403: Acesso Negado em Strategy 1 (Direct Standard). Verifique Usuário e Senha.")
   /\ List.length (trace (snd (fetchWpWithFallback sameText exampleSite "/posts" exampleOptions w))) = 1)
  /\ (let w := scripted [Answered 404 (Parsed JNull); Rejected (TypeError "Failed to fetch")]
                        (Answered 403 (Parsed JNull)) in
      fst (fetchWpWithFallback sameText exampleSite "/posts" exampleOptions w)
      = Throw (Error "Erro 401/403: Acesso Negado em Strategy 3 (Proxy Standard). Verifique Usuário e Senha.")
      /\ List.length (trace (snd (fetchWpWithFallback sameText exampleSite "/posts" exampleOptions w))) = 3).
Proof. repeat split; vm_compute; reflexivity. Qed.

(** three keys, the first two refused: the text of the third, after
    three attempts in the order of the list *)
Example rotation_reaches_third_key :
  Gemini.getAvailableApiKeys threeKeys = ["key-1"; "key-2"; "key-3"]
  /\ fst (Gemini.generateGuestPostContent keywordPrompt threeKeys exampleRequest quotaWorld)
     = Ok "# ok"
  /\ trace (snd (Gemini.generateGuestPostContent keywordPrompt threeKeys exampleRequest quotaWorld))
     = [Generate "key-1" "yoga"; Generate "key-2" "yoga"; Generate "key-3" "yoga"].
Proof. repeat split; vm_compute; reflexivity. Qed.

(** the examples of the specification for the written range and for the
    normalized URL of a site *)
Example written_ranges :
  Sheets.range 0 "F" = "F2" /\ Sheets.range 5 "F" = "F7" /\ Sheets.range 98 "G" = "G100".
Proof. repeat split; reflexivity. Qed.

Example cleaned_urls :
  cleanWpUrl "example.com/wp-admin/" = "https://example.com"
  /\ cleanWpUrl "http://blog.example.com/wp-json/wp/v2/posts" = "http://blog.example.com"
  /\ cleanWpUrl " https://Example.com/ " = "https://Example.com".
Proof. repeat split; reflexivity. Qed.

End Checks.

(* ================================================================== *)
(** * Further properties *)
(* ================================================================== *)

(** ** The credentials of a site *)

Module CredentialFacts.
Import Js JsFacts Wordpress.

Section Client.
Variable btoa : string -> string.
Variable invalidCharacter : string.

Lemma authString_run (site : WordpressSite) :
  WordpressClient.authString btoa invalidCharacter site
  = if WordpressClient.hasLoneSurrogate (WordpressClient.credentials site)
    then Throw (mkError "InvalidCharacterError" invalidCharacter)
    else Ok (encodeBasicAuth btoa (site_username site) (site_appPassword site)).
Proof. reflexivity. Qed.

Lemma fetchWpWithFallback_run (site : WordpressSite) (endpointPath : string)
    (options : RequestInit) (w : world) :
  WordpressClient.fetchWpWithFallback btoa invalidCharacter site endpointPath options w
  = if WordpressClient.hasLoneSurrogate (WordpressClient.credentials site)
    then (Throw (mkError "InvalidCharacterError" invalidCharacter), w)
    else fetchWpWithFallback btoa site endpointPath options w.
Proof.
  unfold WordpressClient.fetchWpWithFallback. rewrite authString_run.
  destruct (WordpressClient.hasLoneSurrogate _); reflexivity.
Qed.

Lemma uploadWpMedia_run (site : WordpressSite) (file : Js.file) (w : world) :
  WordpressClient.uploadWpMedia btoa invalidCharacter site file w
  = if WordpressClient.hasLoneSurrogate (WordpressClient.credentials site)
    then (Throw (mkError "InvalidCharacterError" invalidCharacter), w)
    else uploadWpMedia btoa site file w.
Proof.
  unfold WordpressClient.uploadWpMedia. rewrite authString_run.
  destruct (WordpressClient.hasLoneSurrogate _); reflexivity.
Qed.

(** [createWpPost] makes the requests of its [fetchWpWithFallback] *)
Lemma createWpPost_world (stringify : json -> string) (markdownToHtml : string -> string)
    (site : WordpressSite) (params : CreatePostParams) (w : world) :
  snd (WordpressClient.createWpPost btoa invalidCharacter stringify markdownToHtml site params w)
  = snd (WordpressClient.fetchWpWithFallback btoa invalidCharacter site "/posts"
           (postOptions stringify markdownToHtml params) w).
Proof.
  unfold WordpressClient.createWpPost, try.
  destruct (WordpressClient.fetchWpWithFallback _ _ _ _ _ w) as [[j|e] w1]; reflexivity.
Qed.

End Client.
End CredentialFacts.

(** ** The strategies of the WordPress client, in general *)

Module StrategyFacts.
Import Js JsFacts Wordpress WordpressExtra FallbackFacts.

Section Fallback.
Variable btoa : string -> string.
Variable invalidCharacter : string.
Variable site : WordpressSite.
Variable endpointPath : string.
Variable options : RequestInit.

Let req (k : nat) : request :=
  strategyRequest btoa site options (strategyUrl (cleanWpUrl (site_url site)) endpointPath k).

(** X1. The first strategy that is answered with a 2xx status and a JSON
    body wins: when the strategies before the k-th fell through and the
    k-th is so answered, the call returns that body after exactly k
    requests, those of the strategies 1 to k in order. *)
Theorem first_success_wins (k : nat) (w : world) (status : nat) (j : json) :
  1 <= k <= 4 ->
  (forall i, 1 <= i < k ->
     fallsThrough (strategyLabel i) (net w (i - 1 + List.length (trace w)) (req i)) = true) ->
  net w (k - 1 + List.length (trace w)) (req k) = Answered status (Parsed j) ->
  ok status = true ->
  exists w',
    fetchWpWithFallback btoa site endpointPath options w = (Ok j, w')
    /\ trace w' = (trace w ++ map (fun i => Fetch (req i)) (seq 1 k))%list.
Proof.
  intros Hk Hfall Hreply Hok.
  assert (O : forall label, strategyOutcome label (Answered status (Parsed j)) = Ok j).
  { intros label. unfold strategyOutcome. rewrite Hok. reflexivity. }
  unfold fetchWpWithFallback.
  destruct k as [|[|[|[|[|k]]]]]; try lia; cbn [Nat.sub Nat.add] in Hreply.
  - rewrite try_strategy. fold (req 1). rewrite Hreply, O.
    eexists; split; reflexivity.
  - destruct (fallsThrough_throws _ _ (Hfall 1 ltac:(lia))) as (e1 & O1 & N1).
    cbn [Nat.sub Nat.add] in O1.
    rewrite try_strategy. fold (req 1). rewrite O1, N1.
    rewrite try_strategy. fold (req 2). rewrite length_trace_record.
    cbn [net record]. rewrite Hreply, O.
    eexists; split; [reflexivity|].
    cbn [trace record map seq]. rewrite <- app_assoc. reflexivity.
  - destruct (fallsThrough_throws _ _ (Hfall 1 ltac:(lia))) as (e1 & O1 & N1).
    destruct (fallsThrough_throws _ _ (Hfall 2 ltac:(lia))) as (e2 & O2 & N2).
    cbn [Nat.sub Nat.add] in O1, O2.
    rewrite try_strategy. fold (req 1). rewrite O1, N1.
    rewrite try_strategy. fold (req 2). rewrite length_trace_record.
    cbn [net record]. rewrite O2, N2.
    rewrite try_strategy. fold (req 3). rewrite !length_trace_record.
    cbn [net record]. rewrite Hreply, O.
    eexists; split; [reflexivity|].
    cbn [trace record map seq]. rewrite <- !app_assoc. reflexivity.
  - destruct (fallsThrough_throws _ _ (Hfall 1 ltac:(lia))) as (e1 & O1 & N1).
    destruct (fallsThrough_throws _ _ (Hfall 2 ltac:(lia))) as (e2 & O2 & N2).
    destruct (fallsThrough_throws _ _ (Hfall 3 ltac:(lia))) as (e3 & O3 & N3).
    cbn [Nat.sub Nat.add] in O1, O2, O3.
    rewrite try_strategy. fold (req 1). rewrite O1, N1.
    rewrite try_strategy. fold (req 2). rewrite length_trace_record.
    cbn [net record]. rewrite O2, N2.
    rewrite try_strategy. fold (req 3). rewrite !length_trace_record.
    cbn [net record]. rewrite O3, N3.
    rewrite try_strategy. fold (req 4). rewrite !length_trace_record.
    cbn [net record]. rewrite Hreply, O.
    eexists; split; [reflexivity|].
    cbn [trace record map seq]. rewrite <- !app_assoc. reflexivity.
Qed.

(** the requests of a call whose credentials were encoded *)
Lemma strategies_prefix (w : world) :
  exists k,
    1 <= k <= 4
    /\ trace (snd (fetchWpWithFallback btoa site endpointPath options w))
       = (trace w ++ map (fun i => Fetch (req i)) (seq 1 k))%list.
Proof.
  unfold fetchWpWithFallback.
  rewrite try_strategy. fold (req 1).
  destruct (strategyOutcome _ _) as [j|e1];
    [exists 1; split; [lia | reflexivity]|].
  destruct (JsString.includes _ (err_message e1));
    [exists 1; split; [lia | reflexivity]|].
  rewrite try_strategy. fold (req 2).
  destruct (strategyOutcome _ _) as [j|e2];
    [exists 2; split; [lia | unfold throw; cbn [snd trace record map seq];
                             rewrite <- ?app_assoc; reflexivity]|].
  destruct (JsString.includes _ (err_message e2));
    [exists 2; split; [lia | unfold throw; cbn [snd trace record map seq];
                             rewrite <- ?app_assoc; reflexivity]|].
  rewrite try_strategy. fold (req 3).
  destruct (strategyOutcome _ _) as [j|e3];
    [exists 3; split; [lia | unfold throw; cbn [snd trace record map seq];
                             rewrite <- ?app_assoc; reflexivity]|].
  destruct (JsString.includes _ (err_message e3));
    [exists 3; split; [lia | unfold throw; cbn [snd trace record map seq];
                             rewrite <- ?app_assoc; reflexivity]|].
  rewrite try_strategy. fold (req 4).
  exists 4. split; [lia|].
  destruct (strategyOutcome _ _) as [j|e4];
    [unfold throw; cbn [snd trace record map seq]; rewrite <- ?app_assoc; reflexivity|].
  destruct (JsString.includes _ (err_message e4));
    unfold throw; cbn [snd trace record map seq]; rewrite <- ?app_assoc; reflexivity.
Qed.

(** X2. Whatever the world answers, the requests of a call are those of
    the strategies 1 to k in order, for some k from 0 to 4: never more
    than four, never out of order, never one twice.  There is none
    exactly when the credentials of the site hold a lone surrogate:
    then [encodeBasicAuth] throws before the first strategy, and the
    call throws its [InvalidCharacterError]. *)
Theorem requests_are_a_prefix (w : world) :
  let call := WordpressClient.fetchWpWithFallback btoa invalidCharacter site endpointPath options in
  let illFormed := WordpressClient.hasLoneSurrogate (WordpressClient.credentials site) in
  exists k,
    k <= 4
    /\ trace (snd (call w)) = (trace w ++ map (fun i => Fetch (req i)) (seq 1 k))%list
    /\ (k = 0 <-> illFormed = true)
    /\ (illFormed = true ->
        call w = (Throw (mkError "InvalidCharacterError" invalidCharacter), w)).
Proof.
  intros call illFormed. subst call illFormed.
  rewrite CredentialFacts.fetchWpWithFallback_run.
  destruct (WordpressClient.hasLoneSurrogate _).
  - exists 0. split; [lia|]. split; [cbn; rewrite app_nil_r; reflexivity|].
    split; [split; reflexivity | reflexivity].
  - destruct (strategies_prefix w) as (k & Hk & T).
    exists k. split; [lia|]. split; [exact T|].
    split; [split; [lia | discriminate] | discriminate].
Qed.


End Fallback.
End StrategyFacts.

(** ** The image upload of the WordPress client, in general *)

Module UploadOrderFacts.
Import Js JsFacts Wordpress WordpressExtra.

Section Upload.
Variable btoa : string -> string.
Variable invalidCharacter : string.
Variable site : WordpressSite.
Variable file : Js.file.

Let req (k : nat) : request :=
  uploadRequest btoa site file (uploadUrl (cleanWpUrl (site_url site)) k).

Lemma upload_step url useProxy (h : error -> M (option json)) w :
  try (data <- tryUpload btoa site file url useProxy ;; prop "id" data)%js h w
  = let r := uploadRequest btoa site file (proxied useProxy url) in
    match uploadOutcome (net w (List.length (trace w)) r) with
    | Ok v => (Ok v, record (Fetch r) w)
    | Throw e => h e (record (Fetch r) w)
    end.
Proof.
  unfold uploadOutcome.
  cbv beta iota zeta delta [try bind tryUpload fetch].
  destruct (net w _ _) as [e | status body]; [reflexivity|].
  destruct (negb (ok status)).
  - destruct (Nat.eqb status 401); reflexivity.
  - destruct body as [[| | | | |]|e]; reflexivity.
Qed.

Ltac name_requests :=
  cbv zeta;
  repeat match goal with
    | |- context [uploadRequest btoa site file (proxied ?p (?b ++ ?r))] =>
        first
          [ change (uploadRequest btoa site file (proxied p (b ++ r))) with (req 1)
          | change (uploadRequest btoa site file (proxied p (b ++ r))) with (req 2)
          | change (uploadRequest btoa site file (proxied p (b ++ r))) with (req 3)
          | change (uploadRequest btoa site file (proxied p (b ++ r))) with (req 4) ]
    end.

(** the requests of an upload whose credentials were encoded *)
Lemma upload_prefix (w : world) :
  exists k,
    1 <= k <= 4
    /\ trace (snd (uploadWpMedia btoa site file w))
       = (trace w ++ map (fun i => Fetch (req i)) (seq 1 k))%list.
Proof.
  unfold uploadWpMedia. cbv zeta.
  rewrite upload_step. name_requests.
  destruct (uploadOutcome _) as [v|e1];
    [exists 1; split; [lia | reflexivity]|].
  destruct (String.eqb (err_message e1) "AUTH_ERROR");
    [exists 1; split; [lia | reflexivity]|].
  rewrite upload_step. name_requests.
  destruct (uploadOutcome _) as [v|e2];
    [exists 2; split; [lia | cbn [snd trace record map seq];
                             rewrite <- ?app_assoc; reflexivity]|].
  rewrite upload_step. name_requests.
  destruct (uploadOutcome _) as [v|e3];
    [exists 3; split; [lia | cbn [snd trace record map seq];
                             rewrite <- ?app_assoc; reflexivity]|].
  rewrite upload_step. name_requests.
  exists 4. split; [lia|].
  destruct (uploadOutcome _) as [v|e4];
    unfold throw; cbn [snd trace record map seq]; rewrite <- ?app_assoc; reflexivity.
Qed.


(** X4. Whatever the world answers, the requests of an upload are those of
    the attempts 1 to k in order, for some k from 0 to 4: the direct
    standard route, the direct fallback route, then the same two through
    the proxy; each is a POST that carries the file.  There is none
    exactly when the credentials of the site hold a lone surrogate:
    then [encodeBasicAuth] throws before the first attempt, and the
    upload throws its [InvalidCharacterError]. *)
Theorem upload_requests_are_a_prefix (w : world) :
  let call := WordpressClient.uploadWpMedia btoa invalidCharacter site file in
  let illFormed := WordpressClient.hasLoneSurrogate (WordpressClient.credentials site) in
  exists k,
    k <= 4
    /\ trace (snd (call w)) = (trace w ++ map (fun i => Fetch (req i)) (seq 1 k))%list
    /\ (k = 0 <-> illFormed = true)
    /\ (illFormed = true ->
        call w = (Throw (mkError "InvalidCharacterError" invalidCharacter), w))
    /\ Forall (fun ev => exists r, ev = Fetch r /\ req_method r = "POST"
                                  /\ req_body r = Blob file)
              (map (fun i => Fetch (req i)) (seq 1 k)).
Proof.
  intros call illFormed. subst call illFormed.
  rewrite CredentialFacts.uploadWpMedia_run.
  destruct (WordpressClient.hasLoneSurrogate _).
  - exists 0. split; [lia|]. split; [cbn; rewrite app_nil_r; reflexivity|].
    split; [split; reflexivity|]. split; [reflexivity | constructor].
  - destruct (upload_prefix w) as (k & Hk & T).
    exists k. split; [lia|]. split; [exact T|].
    split; [split; [lia | discriminate]|]. split; [discriminate|].
    apply Forall_forall. intros ev Hin. apply in_map_iff in Hin.
    destruct Hin as (i & <- & _). exists (req i). repeat split.
Qed.


(** X6. The first attempt that is answered with a 2xx status and a JSON
    object wins: when the attempts before the k-th failed, the first of
    them not with the marker of a 401, and the k-th is so answered, the
    upload returns
    the [id] of that object, which is [undefined] when the object has
    none, after exactly k requests. *)
Theorem upload_first_success (k : nat) (w : world) (status : nat) (fields : list (string * json)) :
  1 <= k <= 4 ->
  (forall i, 1 <= i < k ->
     exists e, uploadOutcome (net w (i - 1 + List.length (trace w)) (req i)) = Throw e
               /\ (i = 1 -> err_message e <> "AUTH_ERROR")) ->
  net w (k - 1 + List.length (trace w)) (req k) = Answered status (Parsed (JObj fields)) ->
  ok status = true ->
  exists w',
    uploadWpMedia btoa site file w = (Ok (lookup "id" fields), w')
    /\ trace w' = (trace w ++ map (fun i => Fetch (req i)) (seq 1 k))%list.
Proof.
  intros Hk Hfail Hreply Hok.
  assert (O : uploadOutcome (Answered status (Parsed (JObj fields))) = Ok (lookup "id" fields)).
  { unfold uploadOutcome. rewrite Hok. reflexivity. }
  assert (H1 : 1 < k ->
               exists e, uploadOutcome (net w (List.length (trace w)) (req 1)) = Throw e
                         /\ String.eqb (err_message e) "AUTH_ERROR" = false).
  { intros L. destruct (Hfail 1 ltac:(lia)) as (e & E & N). exists e. split; [exact E|].
    apply String.eqb_neq. auto. }
  unfold uploadWpMedia. cbv zeta.
  rewrite upload_step. name_requests.
  destruct k as [|[|[|[|[|k]]]]]; try lia; cbn [Nat.sub Nat.add] in Hreply.
  - rewrite Hreply, O. eexists; split; reflexivity.
  - destruct (H1 ltac:(lia)) as (e1 & O1 & N1). rewrite O1, N1.
    rewrite upload_step. cbv zeta. rewrite length_trace_record. cbn [net record].
    name_requests.
    rewrite Hreply, O. eexists; split; [reflexivity|].
    cbn [trace record map seq]. rewrite <- ?app_assoc. reflexivity.
  - destruct (H1 ltac:(lia)) as (e1 & O1 & N1). rewrite O1, N1.
    destruct (Hfail 2 ltac:(lia)) as (e2 & O2 & _). cbn [Nat.sub Nat.add] in O2.
    rewrite upload_step. cbv zeta. rewrite length_trace_record. cbn [net record].
    name_requests. rewrite O2.
    rewrite upload_step. cbv zeta. rewrite !length_trace_record. cbn [net record].
    name_requests.
    rewrite Hreply, O. eexists; split; [reflexivity|].
    cbn [trace record map seq]. rewrite <- ?app_assoc. reflexivity.
  - destruct (H1 ltac:(lia)) as (e1 & O1 & N1). rewrite O1, N1.
    destruct (Hfail 2 ltac:(lia)) as (e2 & O2 & _). cbn [Nat.sub Nat.add] in O2.
    destruct (Hfail 3 ltac:(lia)) as (e3 & O3 & _). cbn [Nat.sub Nat.add] in O3.
    rewrite upload_step. cbv zeta. rewrite length_trace_record. cbn [net record].
    name_requests. rewrite O2.
    rewrite upload_step. cbv zeta. rewrite !length_trace_record. cbn [net record].
    name_requests. rewrite O3.
    rewrite upload_step. cbv zeta. rewrite !length_trace_record. cbn [net record].
    name_requests.
    rewrite Hreply, O. eexists; split; [reflexivity|].
    cbn [trace record map seq]. rewrite <- ?app_assoc. reflexivity.
Qed.

End Upload.
End UploadOrderFacts.

(** ** Publishing a draft: the upload, then the post *)

Module PublishOrderFacts.
Import Js JsFacts Wordpress WordpressExtra Bulk BulkFacts.

Section Publish.
Variable btoa : string -> string.
Variable invalidCharacter : string.
Variable stringify : json -> string.
Variable markdownToHtml : string -> string.
Variable toNumber : json -> json.

Local Abbreviation handlePublish' :=
  (handlePublish btoa invalidCharacter stringify markdownToHtml toNumber).
Local Abbreviation clickPublish' :=
  (clickPublish btoa invalidCharacter stringify markdownToHtml toNumber).

(** the requests of [createWpPost] are those of the strategies 1 to n of
    the endpoint [/posts] *)
Lemma createWpPost_requests (site : WordpressSite) (params : CreatePostParams) (w : world) :
  exists n,
    n <= 4
    /\ (n = 0 <-> WordpressClient.hasLoneSurrogate (WordpressClient.credentials site) = true)
    /\ trace (snd (WordpressClient.createWpPost btoa invalidCharacter stringify markdownToHtml
                     site params w))
       = (trace w
          ++ map (fun i => Fetch (strategyRequest btoa site
                                    (postOptions stringify markdownToHtml params)
                                    (strategyUrl (cleanWpUrl (site_url site)) "/posts" i)))
                 (seq 1 n))%list.
Proof.
  rewrite CredentialFacts.createWpPost_world, CredentialFacts.fetchWpWithFallback_run.
  destruct (WordpressClient.hasLoneSurrogate _).
  - exists 0. split; [lia|]. split; [split; reflexivity|].
    cbn. rewrite app_nil_r. reflexivity.
  - destruct (StrategyFacts.strategies_prefix btoa site "/posts"
                (postOptions stringify markdownToHtml params) w) as (n & Hn & T).
    exists n. split; [lia|]. split; [split; [lia | discriminate]|]. exact T.
Qed.

(** C7. Publishing a draft that has a site.  With an image attached the
    call begins with the upload: its requests, the attempts 1 to k of
    [uploadWpMedia] with that image, come first, and there is at least
    one unless the credentials of the site hold a lone surrogate, in
    which case the upload throws at once.  When the upload throws,
    nothing else is requested and the draft is in [error] with the
    message of the upload error.  When it returns, the requests that
    create the post follow, the strategies 1 to n of [createWpPost] with
    the fields of the draft and the identifier that the upload returned
    (none without an image, where they are the only requests); when the
    creation of the post, or the reading of its link, throws, the draft
    is in [error] with the message of that error; otherwise the draft
    is in [success] with the [link] of the created post.  A draft in
    [error] keeps its content and its publish button stays enabled, and
    a click publishes again; the button of a draft in [success] is
    disabled. *)
Theorem handlePublish_outcomes (id : string) (st : state) (w : world)
    (d : BulkPostDraft) (site : WordpressSite) :
  find (fun x => String.eqb (d_id x) id) (drafts st) = Some d ->
  matchedSiteId d <> "" ->
  find (fun s => String.eqb (site_id s) (matchedSiteId d)) (sites st) = Some site ->
  let illFormed := WordpressClient.hasLoneSurrogate (WordpressClient.credentials site) in
  let base := cleanWpUrl (site_url site) in
  let upload := WordpressClient.uploadWpMedia btoa invalidCharacter site in
  let create := fun mediaId =>
    WordpressClient.createWpPost btoa invalidCharacter stringify markdownToHtml site
      (publishParams toNumber d mediaId) in
  let uploadEvent := fun img i => Fetch (uploadRequest btoa site img (uploadUrl base i)) in
  let postEvent := fun mediaId i =>
    Fetch (strategyRequest btoa site
             (postOptions stringify markdownToHtml (publishParams toNumber d mediaId))
             (strategyUrl base "/posts" i)) in
  let found := fun st' => find (fun x => String.eqb (d_id x) id) (drafts st') in
  let inError := fun e st' => found st' = Some (nowError (err_message e) (nowPublishing d)) in
  let created := fun mediaId w1 st' w' =>
    exists n,
      n <= 4
      /\ (n = 0 <-> illFormed = true)
      /\ trace w' = (trace w1 ++ map (postEvent mediaId) (seq 1 n))%list
      /\ match create mediaId w1 with
         | (Throw e, _) => inError e st'
         | (Ok result, w2) =>
             match prop "link" result w2 with
             | (Throw e, _) => inError e st'
             | (Ok link, _) => found st' = Some (nowSuccess link (nowPublishing d))
             end
         end in
  exists st' w',
    handlePublish' id st w = (Ok tt, st', w')
    /\ (forall img,
          image d = Some img ->
          exists k,
            k <= 4
            /\ (k = 0 <-> illFormed = true)
            /\ trace (snd (upload img w))
               = (trace w ++ map (uploadEvent img) (seq 1 k))%list
            /\ match upload img w with
               | (Throw e, w1) => w' = w1 /\ inError e st'
               | (Ok mediaId, w1) => 1 <= k /\ created mediaId w1 st' w'
               end)
    /\ (image d = None -> created None w st' w')
    /\ (forall msg,
          let d' := nowError msg (nowPublishing d) in
          d_status d' = error /\ errorMsg d' = Some msg /\ publishDisabled d' = false
          /\ d_title d' = d_title d /\ d_content d' = d_content d /\ image d' = image d
          /\ forall st2,
               find (fun x => String.eqb (d_id x) id) (drafts st2) = Some d' ->
               clickPublish' id st2 = handlePublish' id st2)
    /\ (forall link,
          let d' := nowSuccess link (nowPublishing d) in
          d_status d' = success /\ publishedLink d' = link /\ publishDisabled d' = true
          /\ forall st2 w2,
               find (fun x => String.eqb (d_id x) id) (drafts st2) = Some d' ->
               clickPublish' id st2 w2 = (Ok tt, st2, w2)).
Proof.
  intros Hd Hm Hs illFormed base upload create uploadEvent postEvent found inError created.
  assert (Herr : forall msg,
            let d' := nowError msg (nowPublishing d) in
            d_status d' = error /\ errorMsg d' = Some msg /\ publishDisabled d' = false
            /\ d_title d' = d_title d /\ d_content d' = d_content d /\ image d' = image d
            /\ forall st2,
                 find (fun x => String.eqb (d_id x) id) (drafts st2) = Some d' ->
                 clickPublish' id st2 = handlePublish' id st2).
  { intros msg d'. repeat split.
    - unfold publishDisabled. cbn.
      destruct (String.eqb (matchedSiteId d) "") eqn:E;
        [apply String.eqb_eq in E; contradiction | reflexivity].
    - intros st2 H2.
      apply (clickPublish_after_error btoa invalidCharacter stringify markdownToHtml toNumber
               id st2 d'); [exact H2 | reflexivity | exact Hm]. }
  assert (Hsuc : forall link,
            let d' := nowSuccess link (nowPublishing d) in
            d_status d' = success /\ publishedLink d' = link /\ publishDisabled d' = true
            /\ forall st2 w2,
                 find (fun x => String.eqb (d_id x) id) (drafts st2) = Some d' ->
                 clickPublish' id st2 w2 = (Ok tt, st2, w2)).
  { intros link d'. repeat split.
    intros st2 w2 H2.
    apply (clickPublish_after_success btoa invalidCharacter stringify markdownToHtml toNumber
             id st2 d'); [exact H2 | reflexivity]. }
  assert (Hcreated : forall mediaId w1 st' w',
            w' = snd (create mediaId w1) ->
            match create mediaId w1 with
            | (Throw e, _) => inError e st'
            | (Ok result, w2) =>
                match prop "link" result w2 with
                | (Throw e, _) => inError e st'
                | (Ok link, _) => found st' = Some (nowSuccess link (nowPublishing d))
                end
            end ->
            created mediaId w1 st' w').
  { intros mediaId w1 st' w' -> R.
    destruct (createWpPost_requests site (publishParams toNumber d mediaId) w1)
      as (n & Hn & Z & T).
    exists n. split; [exact Hn|]. split; [exact Z|]. split; [exact T | exact R]. }
  destruct (handlePublish_result btoa invalidCharacter stringify markdownToHtml toNumber
              id st w d site Hd Hm Hs) as (st' & w' & E & R).
  exists st', w'. split; [exact E|].
  split; [|split; [|split; assumption]].
  - intros img Hi. unfold uploadImage in R. rewrite Hi in R.
    fold (upload img) in R.
    assert (U : exists k,
              k <= 4 /\ (k = 0 <-> illFormed = true)
              /\ trace (snd (upload img w))
                 = (trace w ++ map (uploadEvent img) (seq 1 k))%list
              /\ (forall v w1, upload img w = (Ok v, w1) -> 1 <= k)).
    { unfold upload, illFormed. rewrite CredentialFacts.uploadWpMedia_run.
      destruct (WordpressClient.hasLoneSurrogate _).
      - exists 0. split; [lia|]. split; [split; reflexivity|].
        split; [cbn; rewrite app_nil_r; reflexivity | discriminate].
      - destruct (UploadOrderFacts.upload_prefix btoa site img w) as (k & Hk & T).
        exists k. split; [lia|]. split; [split; [lia | discriminate]|].
        split; [exact T | intros; lia]. }
    destruct U as (k & Hk & Z & T & P).
    exists k. split; [exact Hk|]. split; [exact Z|]. split; [exact T|].
    destruct (upload img w) as [[mediaId|e] w1].
    + destruct R as (W & R). split; [apply (P mediaId w1); reflexivity|].
      apply Hcreated; assumption.
    + exact R.
  - intros Hn. unfold uploadImage in R. rewrite Hn in R. cbn in R.
    destruct R as (W & R). apply Hcreated; assumption.
Qed.

End Publish.
End PublishOrderFacts.

(** ** [trim] *)

Module TrimFacts.
Import JsString JsStringFacts.

Lemma startsWith_nil t : startsWith t EmptyString = true -> t = EmptyString.
Proof. destruct t; [reflexivity | discriminate]. Qed.

Lemma leading_nil toks :
  Forall (fun t => t <> EmptyString) toks -> leading toks EmptyString = None.
Proof.
  induction 1 as [|t toks Ht _ IH]; [reflexivity|].
  cbn [leading]. destruct (startsWith t EmptyString) eqn:E; [|exact IH].
  apply startsWith_nil in E. contradiction.
Qed.

Lemma leading_In toks s t : leading toks s = Some t -> In t toks /\ startsWith t s = true.
Proof.
  induction toks as [|t' toks IH]; [discriminate|].
  cbn [leading]. destruct (startsWith t' s) eqn:E.
  - intros [= <-]. split; [left; reflexivity | exact E].
  - intros H. destruct (IH H). split; [right|]; assumption.
Qed.

Lemma startsWith_split t s : startsWith t s = true -> s = t ++ drop (String.length t) s.
Proof.
  revert s. induction t as [|a t IH]; intros s H; [reflexivity|].
  destruct s as [|b s]; [discriminate|].
  cbn [startsWith] in H. apply andb_prop in H. destruct H as [Hab H].
  apply Ascii.eqb_eq in Hab. subst b.
  cbn [String.length drop append]. f_equal. apply IH. exact H.
Qed.

Lemma length_append (a b : string) :
  String.length (a ++ b) = String.length a + String.length b.
Proof. induction a; simpl; congruence. Qed.

Lemma trimStartWith_fixed toks fuel s :
  leading toks s = None -> trimStartWith toks fuel s = s.
Proof. intros H. destruct fuel; [reflexivity|]. cbn [trimStartWith]. rewrite H. reflexivity. Qed.

Lemma trimStartWith_done toks fuel s :
  Forall (fun t => t <> EmptyString) toks ->
  String.length s <= fuel ->
  leading toks (trimStartWith toks fuel s) = None.
Proof.
  intros Ht. revert s. induction fuel as [|fuel IH]; intros s Hs.
  - destruct s; [|simpl in Hs; lia]. apply leading_nil. exact Ht.
  - cbn [trimStartWith]. destruct (leading toks s) as [t|] eqn:E; [|exact E].
    apply IH. destruct (leading_In _ _ _ E) as [Hin Hst].
    pose proof (startsWith_split _ _ Hst) as Hsplit.
    assert (Hl : String.length s = String.length t + String.length (drop (String.length t) s)).
    { rewrite Hsplit at 1. apply length_append. }
    assert (t <> EmptyString) by (rewrite Forall_forall in Ht; auto).
    destruct t; [contradiction|]. simpl in Hl. simpl. lia.
Qed.

Lemma trimStartWith_suffix toks fuel s : exists p, s = p ++ trimStartWith toks fuel s.
Proof.
  revert s. induction fuel as [|fuel IH]; intros s; [exists EmptyString; reflexivity|].
  cbn [trimStartWith]. destruct (leading toks s) as [t|] eqn:E;
    [|exists EmptyString; reflexivity].
  destruct (leading_In _ _ _ E) as [_ Hst].
  destruct (IH (drop (String.length t) s)) as [p Hp].
  exists (t ++ p). rewrite append_assoc, <- Hp. apply startsWith_split. exact Hst.
Qed.

Lemma revString_app acc s : revString acc s = revString EmptyString s ++ acc.
Proof.
  revert acc. induction s as [|c s IH]; intros acc; [reflexivity|].
  cbn [revString]. rewrite (IH (String c acc)), (IH (String c EmptyString)).
  rewrite append_assoc. reflexivity.
Qed.

Lemma rev_cons c s : rev (String c s) = rev s ++ String c EmptyString.
Proof. unfold rev. cbn [revString]. apply revString_app. Qed.

Lemma append_nil_r (s : string) : s ++ EmptyString = s.
Proof. induction s; simpl; congruence. Qed.

Lemma rev_app a b : rev (a ++ b) = rev b ++ rev a.
Proof.
  induction a as [|c a IH].
  - cbn [append]. change (rev EmptyString) with EmptyString. rewrite append_nil_r. reflexivity.
  - change (String c a ++ b) with (String c (a ++ b)).
    rewrite !rev_cons, IH, append_assoc. reflexivity.
Qed.

Lemma rev_involutive s : rev (rev s) = s.
Proof.
  induction s as [|c s IH]; [reflexivity|].
  rewrite rev_cons, rev_app, IH. reflexivity.
Qed.

Lemma length_rev s : String.length (rev s) = String.length s.
Proof.
  induction s as [|c s IH]; [reflexivity|].
  rewrite rev_cons, length_append, IH. simpl. lia.
Qed.

Lemma trimmed_nonempty : Forall (fun t => t <> EmptyString) trimmed.
Proof. repeat constructor; discriminate. Qed.

Lemma rev_trimmed_nonempty : Forall (fun t => t <> EmptyString) (map rev trimmed).
Proof. repeat constructor; discriminate. Qed.

(** what is left by [trim] has nothing more to trim *)
Lemma trim_idempotent s : trim (trim s) = trim s.
Proof.
  unfold trim.
  set (a := trimStart s).
  assert (La : leading trimmed a = None).
  { apply trimStartWith_done; [apply trimmed_nonempty | lia]. }
  set (b := trimEnd a).
  assert (Lrb : leading (map rev trimmed) (rev b) = None).
  { unfold b, trimEnd. rewrite rev_involutive.
    apply trimStartWith_done; [apply rev_trimmed_nonempty | rewrite length_rev; lia]. }
  assert (Pb : exists q, a = b ++ q).
  { unfold b, trimEnd.
    destruct (trimStartWith_suffix (map rev trimmed) (String.length a) (rev a)) as [p Hp].
    exists (rev p). rewrite <- rev_app, <- Hp, rev_involutive. reflexivity. }
  assert (Lb : leading trimmed b = None).
  { destruct Pb as [q Hq]. destruct (leading trimmed b) as [t|] eqn:E; [|reflexivity].
    exfalso. apply (leading_app _ _ q _ E). rewrite <- Hq. exact La. }
  assert (Sb : trimStart b = b) by (apply trimStartWith_fixed; exact Lb).
  rewrite Sb. unfold trimEnd at 1.
  rewrite trimStartWith_fixed by exact Lrb. apply rev_involutive.
Qed.

End TrimFacts.

(** ** The key list: settings screen and generation client together *)

Module KeyFacts.
Import Js JsFacts Gemini TrimFacts SettingsExtra.

Lemma length_pos (s : string) : Nat.ltb 0 (String.length s) = negb (String.eqb s "").
Proof. destruct s; reflexivity. Qed.

Lemma eqb_false_iff (a b : string) : negb (String.eqb a b) = true <-> a <> b.
Proof.
  destruct (String.eqb a b) eqn:E; simpl.
  - apply String.eqb_eq in E. split; [discriminate | contradiction].
  - apply String.eqb_neq in E. split; auto.
Qed.

Lemma existsb_eqb k (keys : list string) : existsb (String.eqb k) keys = true <-> In k keys.
Proof.
  rewrite existsb_exists. split.
  - intros (x & Hx & E). apply String.eqb_eq in E. subst x. exact Hx.
  - intros H. exists k. split; [exact H | apply String.eqb_refl].
Qed.

Lemma addGeminiKey_clean k keys :
  Forall clean keys -> Forall clean (Settings.addGeminiKey k keys).
Proof.
  intros H. unfold Settings.addGeminiKey.
  destruct (negb (String.eqb (JsString.trim k) "")) eqn:E; simpl; [|exact H].
  destruct (existsb _ keys); simpl; [exact H|].
  apply Forall_app. split; [exact H|]. constructor; [|constructor].
  split; [apply eqb_false_iff; exact E | apply trim_idempotent].
Qed.

Lemma removeGeminiKey_clean k keys :
  Forall clean keys -> Forall clean (Settings.removeGeminiKey k keys).
Proof.
  intros H. unfold Settings.removeGeminiKey. rewrite Forall_forall in *.
  intros x Hx. apply filter_In in Hx. apply H, Hx.
Qed.

Lemma edited_clean es : Forall clean (Settings.edited es).
Proof.
  unfold Settings.edited.
  assert (G : forall keys, Forall clean keys -> Forall clean (fold_left Settings.apply es keys)).
  { induction es as [|e es IH]; intros keys H; [exact H|].
    simpl. apply IH. destruct e; [apply addGeminiKey_clean | apply removeGeminiKey_clean]; exact H. }
  apply G. constructor.
Qed.

Lemma filter_clean (keys : list string) :
  Forall clean keys ->
  filter (fun k => negb (String.eqb k "") && Nat.ltb 0 (String.length (JsString.trim k))) keys
  = keys.
Proof.
  induction 1 as [|k keys [Hk Ht] _ IH]; [reflexivity|].
  cbn [filter]. rewrite Ht, length_pos.
  apply eqb_false_iff in Hk. rewrite Hk, IH. reflexivity.
Qed.

(** X7. The candidate keys of a call are exactly the keys of the stored
    list and the environment key that are not blank: a key that is
    empty or only white space is never tried, and no key that is not
    blank is left out. *)
Theorem candidates_are_the_nonblank_keys (src : keySources) (k : string) :
  In k (getAvailableApiKeys src)
  <-> (k <> "" /\ JsString.trim k <> ""
       /\ ((exists l, stored src = Some l /\ In k l) \/ envKey src = Some k)).
Proof.
  unfold getAvailableApiKeys. rewrite filter_In, andb_true_iff, eqb_false_iff.
  rewrite length_pos, eqb_false_iff.
  set (l0 := match stored src with Some parsed => parsed | None => [] end).
  assert (H0 : In k l0 <-> exists l, stored src = Some l /\ In k l).
  { unfold l0. destruct (stored src) as [l|].
    - split; [intros H; exists l; auto | intros (l' & [= <-] & H); exact H].
    - split; [intros [] | intros (l' & [=] & _)]. }
  split.
  - intros (Hin & Hk & Ht). repeat split; [exact Hk | exact Ht |].
    destruct (envKey src) as [e|]; [|left; apply H0; exact Hin].
    destruct (negb (String.eqb e "") && negb (existsb (String.eqb e) l0));
      [|left; apply H0; exact Hin].
    apply in_app_or in Hin. destruct Hin as [Hin | [<- | []]];
      [left; apply H0; exact Hin | right; reflexivity].
  - intros (Hk & Ht & Hsrc). repeat split; [| exact Hk | exact Ht].
    destruct Hsrc as [Hs | He].
    + apply H0 in Hs. destruct (envKey src) as [e|]; [|exact Hs].
      destruct (_ && _); [apply in_or_app; left|]; exact Hs.
    + rewrite He.
      destruct (existsb (String.eqb k) l0) eqn:Ex.
      * apply existsb_eqb in Ex. rewrite andb_false_r. exact Ex.
      * apply eqb_false_iff in Hk. rewrite Hk. simpl.
        apply in_or_app. right. left. reflexivity.
Qed.

(** X8. The keys that the settings screen can hold are all offered to the
    generation client, first and in the order of the screen; the
    environment key, if it is offered, comes after them. *)
Theorem settings_keys_are_candidates (es : list Settings.edit) (env : option string) :
  exists tail,
    getAvailableApiKeys {| stored := Some (Settings.edited es); envKey := env |}
    = (Settings.edited es ++ tail)%list
    /\ (tail = [] \/ exists k, env = Some k /\ tail = [k])
    /\ (env = None -> tail = []).
Proof.
  unfold getAvailableApiKeys. cbn [stored envKey].
  pose proof (edited_clean es) as C.
  destruct env as [k|].
  - destruct (negb (String.eqb k "") && negb (existsb (String.eqb k) (Settings.edited es))).
    + rewrite filter_app, (filter_clean _ C). cbn [filter].
      destruct (_ && _).
      * exists [k]. split; [reflexivity|]. split; [right; exists k; auto | discriminate].
      * exists []. split; [reflexivity|]. split; [left; reflexivity | discriminate].
    + exists []. rewrite (filter_clean _ C), app_nil_r.
      split; [reflexivity|]. split; [left; reflexivity | discriminate].
  - exists []. rewrite (filter_clean _ C), app_nil_r.
    split; [reflexivity|]. split; [left|]; reflexivity.
Qed.

(** X9. Editing the key list: a key added twice is there once; a removed
    key is gone and every other key stays; and removing a key just
    added gives the list back. *)
Theorem key_list_edits (newKey : string) (keys : list string) :
  Settings.addGeminiKey newKey (Settings.addGeminiKey newKey keys)
  = Settings.addGeminiKey newKey keys
  /\ ~ In newKey (Settings.removeGeminiKey newKey keys)
  /\ (forall k, In k (Settings.removeGeminiKey newKey keys) <-> In k keys /\ k <> newKey)
  /\ (~ In (JsString.trim newKey) keys ->
      Settings.removeGeminiKey (JsString.trim newKey) (Settings.addGeminiKey newKey keys) = keys).
Proof.
  split; [|split; [|split]].
  - unfold Settings.addGeminiKey.
    destruct (negb (String.eqb (JsString.trim newKey) "")) eqn:E; cbn [andb]; [|reflexivity].
    destruct (existsb (String.eqb (JsString.trim newKey)) keys) eqn:X; cbn [negb].
    + rewrite X. reflexivity.
    + rewrite existsb_app. cbn [existsb]. rewrite String.eqb_refl, orb_true_r. reflexivity.
  - unfold Settings.removeGeminiKey. intros H. apply filter_In in H. destruct H as [_ H].
    rewrite String.eqb_refl in H. discriminate.
  - intros k. unfold Settings.removeGeminiKey. rewrite filter_In, eqb_false_iff. tauto.
  - intros Hn.
    assert (F : Settings.removeGeminiKey (JsString.trim newKey) keys = keys).
    { unfold Settings.removeGeminiKey. induction keys as [|x keys IH]; [reflexivity|].
      cbn [filter]. destruct (String.eqb x (JsString.trim newKey)) eqn:Ex.
      - apply String.eqb_eq in Ex. exfalso. apply Hn. left. exact Ex.
      - cbn [negb]. rewrite IH; [reflexivity|]. intros H. apply Hn. right. exact H. }
    unfold Settings.addGeminiKey.
    destruct (negb (String.eqb (JsString.trim newKey) "") && _); [|exact F].
    unfold Settings.removeGeminiKey in *. rewrite filter_app, F. cbn [filter].
    rewrite String.eqb_refl. cbn [negb]. apply app_nil_r.
Qed.

Section Generation.
Variable promptOf : GuestPostRequest -> string.

Lemma rotate_attempts prompt keys lastError w :
  exists m,
    m <= List.length keys
    /\ (keys <> [] -> 1 <= m)
    /\ trace (snd (rotate prompt keys lastError w))
       = (trace w ++ map (fun k => Generate k prompt) (firstn m keys))%list
    /\ (forall text, fst (rotate prompt keys lastError w) = Ok text -> text <> "")
    /\ (forall e, fst (rotate prompt keys lastError w) = Throw e -> m = List.length keys).
Proof.
  revert lastError w. induction keys as [|k keys IH]; intros lastError w.
  - exists 0. split; [simpl; lia|]. split; [congruence|].
    split; [cbn; rewrite app_nil_r; reflexivity|].
    split; [cbn; discriminate | intros; reflexivity].
  - cbn [rotate]. unfold try. rewrite GeminiFacts.attempt_run.
    destruct (llm w _ k prompt) as [e|text].
    + destruct (IH (Some e) (record (Generate k prompt) w)) as (m & Hm & _ & T & Hok & Hth).
      exists (S m). split; [simpl; lia|]. split; [lia|]. split; [|split; [exact Hok|]].
      * rewrite T. cbn [trace record firstn map]. rewrite <- app_assoc. reflexivity.
      * intros e' He'. simpl. f_equal. eapply Hth. exact He'.
    + destruct (String.eqb text "") eqn:Et.
      * destruct (IH (Some (Error "API retornou resposta vazia.")) (record (Generate k prompt) w))
          as (m & Hm & _ & T & Hok & Hth).
        exists (S m). split; [simpl; lia|]. split; [lia|]. split; [|split; [exact Hok|]].
        -- rewrite T. cbn [trace record firstn map]. rewrite <- app_assoc. reflexivity.
        -- intros e' He'. simpl. f_equal. eapply Hth. exact He'.
      * exists 1. split; [simpl; lia|]. split; [lia|]. split; [|split; [|discriminate]].
        -- cbn [snd trace record firstn map]. reflexivity.
        -- cbn [fst]. intros t [= <-]. apply String.eqb_neq. exact Et.
Qed.

(** X10. Whatever the provider answers, a call tries the candidate keys in
    the order of the list, each at most once and all with the same
    prompt, and stops at the first answer: it never returns an empty
    text, and it fails only after it has tried every key. *)
Theorem attempts_follow_the_key_list (src : keySources) (req : GuestPostRequest) (w : world) :
  let keys := getAvailableApiKeys src in
  let r := generateGuestPostContent promptOf src req w in
  exists m,
    m <= List.length keys
    /\ trace (snd r)
       = (trace w ++ map (fun k => Generate k (promptOf req)) (firstn m keys))%list
    /\ (forall text, fst r = Ok text -> text <> "" /\ 1 <= m)
    /\ (forall e, fst r = Throw e -> m = List.length keys).
Proof.
  intros keys r. unfold r, generateGuestPostContent. fold keys.
  destruct keys as [|k keys'] eqn:E.
  - exists 0. cbn. rewrite app_nil_r.
    split; [lia|]. split; [reflexivity|].
    split; [intros ?; discriminate | intros; reflexivity].
  - cbn [List.length Nat.eqb].
    destruct (rotate_attempts (promptOf req) (k :: keys') None w) as (m & Hm & H1 & T & Hok & Hth).
    exists m. split; [exact Hm|]. split; [exact T|]. split; [|exact Hth].
    intros text Ht. split; [eapply Hok; exact Ht | apply H1; discriminate].
Qed.

End Generation.
End KeyFacts.

(** ** The rotation of the generation client over its keys *)

Module RotationFacts.
Import Js JsFacts Gemini GeminiFacts TrimFacts KeyFacts.




Section Generation.
Variable promptOf : GuestPostRequest -> string.


End Generation.
End RotationFacts.

(** ** The batch worker, when it is disturbed *)

Module WorkerFacts.
Import Js JsFacts Gemini App AppExtra AppFacts.

Section Worker.
Variable stringify : json -> string.
Variable text : json -> string.
Variable promptOf : GuestPostRequest -> string.
Variable convertMarkdownToHtml : string -> string -> string.
Variable titleOf : string -> string -> string.

Let tryBlock' := tryBlock stringify text promptOf convertMarkdownToHtml titleOf.
Let rest' := processNextItem_rest stringify text promptOf convertMarkdownToHtml titleOf.
Let handle' := handle stringify text promptOf convertMarkdownToHtml titleOf.
Let step' := step stringify text promptOf convertMarkdownToHtml titleOf.
Let run' := run stringify text promptOf convertMarkdownToHtml titleOf.

Lemma run_app evs1 evs2 c : run' (evs1 ++ evs2) c = run' evs2 (run' evs1 c).
Proof. unfold run', run. apply fold_left_app. Qed.

(** A call in flight and a queue [j :: q] behind it, whatever [j] is:
    when the call settles [j] leaves the queue, and the jobs of [q]
    are then taken one after the other. *)
Lemma drain_at st w t j q :
  isProcessingBatch st = true -> running st = [t] -> queue st = j :: q ->
  forall k, k <= List.length q ->
    let st' := fst (run' (repeat Settle (S k)) (st, w)) in
    queue st' = skipn k q
    /\ processed (batchProgress st') = processed (batchProgress st) + S k
    /\ total (batchProgress st') = total (batchProgress st)
    /\ started st' = (started st ++ firstn (S k) q)%list
    /\ settled st' = (settled st ++ t_item t :: firstn k q)%list
    /\ isProcessingBatch st' = Nat.ltb k (List.length q)
    /\ running st' = nextTask st (skipn k q)
    /\ isDemoMode st' = isDemoMode st /\ batchToken st' = batchToken st
    /\ sources st' = sources st /\ mode st' = mode st
    /\ isActive (batchProgress st')
       = (isActive (batchProgress st) || negb (Nat.eqb (List.length q) 0)).
Proof.
  intros Hg Hr Hq k. induction k as [|k IH]; intros Hk.
  - unfold run', run. cbn [repeat fold_left]. unfold step. fold handle'.
    destruct (settle_run stringify text promptOf convertMarkdownToHtml titleOf st w _ _ Hr)
      as (st2 & w2 & E & _ & Q2 & G2 & P2 & T2 & A2 & _ & R2 & S3 & S4 & D2 & B2 & K2 & M2 & _).
    fold handle' in E. rewrite E. cbn [fst skipn firstn].
    rewrite Hq in Q2. cbn [tl] in Q2.
    destruct q as [|item q'].
    + rewrite start_noop by auto. cbn [nextTask List.length Nat.eqb negb].
      rewrite orb_false_r, app_nil_r.
      repeat split; try congruence. exact G2.
    + destruct (start_spawns st2 item q' Q2 G2)
        as (G3 & R3 & S5 & Q4 & S6 & P3 & T3 & A3 & _ & D3 & B3 & K3 & M3).
      rewrite R2, Q2, D2, B2, K2 in R3.
      cbn [nextTask List.length Nat.eqb negb]. rewrite orb_true_r.
      repeat split; try congruence.
      * rewrite G3. reflexivity.
      * rewrite R3. reflexivity.
  - specialize (IH ltac:(lia)).
    rewrite repeat_snoc.
    unfold run'. rewrite (run_snoc stringify text promptOf convertMarkdownToHtml titleOf).
    fold run'. fold step'.
    set (c := run' (repeat Settle (S k)) (st, w)) in *.
    destruct c as [stk wk]. cbn [fst] in IH.
    destruct IH as (Q & P1 & T1 & S1 & S2 & G & R & D & B & K & M & A1).
    destruct (skipn k q) as [|item q1] eqn:Sk;
      [exfalso; eapply (skipn_nonempty k q); [lia | exact Sk]|].
    cbn [nextTask] in R.
    unfold step', step. fold handle'.
    destruct (settle_run stringify text promptOf convertMarkdownToHtml titleOf stk wk _ _ R)
      as (st2 & w2 & E & _ & Q2 & G2 & P2 & T2 & A2 & _ & R2 & S3 & S4 & D2 & B2 & K2 & M2 & _).
    fold handle' in E. rewrite E. cbn [fst]. cbn [t_item] in S4.
    assert (Q3 : queue st2 = skipn (S k) q).
    { rewrite Q2, Q, <- Sk. apply tl_skipn. }
    assert (F1 : firstn (S k) q = (firstn k q ++ [item])%list)
      by (eapply firstn_snoc; eauto).
    assert (Hne : negb (Nat.eqb (List.length q) 0) = true)
      by (destruct q; [simpl in Hk; lia | reflexivity]).
    rewrite Hne, orb_true_r in A1. rewrite Hne, orb_true_r.
    destruct (skipn (S k) q) as [|item' q'] eqn:Sk'.
    + rewrite start_noop by auto.
      assert (Hn : S k = List.length q).
      { apply (f_equal (@List.length QueueItem)) in Sk'.
        rewrite length_skipn in Sk'. simpl in Sk'. lia. }
      cbn [nextTask].
      repeat split; try congruence.
      * lia.
      * rewrite S3, S1. f_equal.
        rewrite (firstn_all2 (n := S (S k))) by lia.
        rewrite (firstn_all2 (n := S k)) by lia. reflexivity.
      * rewrite S4, S2, F1, <- app_assoc. reflexivity.
      * rewrite G2. symmetry. apply Nat.ltb_ge. lia.
    + destruct (start_spawns st2 item' q' Q3 G2)
        as (G3 & R3 & S5 & Q4 & S6 & P3 & T3 & A3 & _ & D3 & B3 & K3 & M3).
      assert (Hn : S k < List.length q).
      { apply (f_equal (@List.length QueueItem)) in Sk'.
        rewrite length_skipn in Sk'. simpl in Sk'. lia. }
      assert (F2 : firstn (S (S k)) q = (firstn (S k) q ++ [item'])%list)
        by (eapply firstn_snoc; eauto).
      rewrite R2, Q3, D2, D, B2, B, K2, K in R3.
      cbn [nextTask].
      repeat split; try congruence.
      * lia.
      * rewrite S5, S3, S1, F2, app_assoc. reflexivity.
      * rewrite S6, S4, S2, F1, <- app_assoc. reflexivity.
      * rewrite G3. symmetry. apply Nat.ltb_lt. lia.
      * rewrite R3. reflexivity.
Qed.

Lemma run_cons ev evs c : run' (ev :: evs) c = run' evs (step' c ev).
Proof. reflexivity. Qed.

(** X11. An import made while a call of the worker is in flight loses its
    first job.  The new jobs [j :: js] become the queue and the call in
    flight goes on; when it settles, its [finally] block removes the
    head of the queue, which is now [j]; the worker then takes the jobs
    of [js] one after the other.  So [j] is never started, and yet the
    counters end at [processed = total], the number of imported jobs. *)
Theorem import_in_flight_loses_first_job
    (st : state) (w : world) (t : task) (sheet : string) (rows : list row) (token : string)
    (j : QueueItem) (js : list QueueItem) (w1 : world) :
  isProcessingBatch st = true -> running st = [t] ->
  mode st <> BULK_PUBLISH ->
  newQueueOf st sheet rows w = (Ok (j :: js), w1) ->
  let after := fun k => fst (run' (SheetImport sheet rows token :: repeat Settle k) (st, w)) in
  let n := S (List.length js) in
  (queue (after 0) = j :: js /\ running (after 0) = [t] /\ started (after 0) = started st)
  /\ queue (after 1) = js
  /\ (forall k, k <= List.length js ->
        started (after (S k)) = (started st ++ firstn (S k) js)%list
        /\ settled (after (S k)) = (settled st ++ t_item t :: firstn k js)%list)
  /\ (queue (after n) = [] /\ running (after n) = []
      /\ started (after n) = (started st ++ js)%list
      /\ settled (after n) = (settled st ++ t_item t :: js)%list
      /\ processed (batchProgress (after n)) = n
      /\ total (batchProgress (after n)) = n).
Proof.
  intros Hg Hr Hm Hq after n.
  destruct (import_run st w sheet rows token (j :: js) w1 Hm Hq ltac:(discriminate))
    as (st1 & E & Q & T & B & P1 & R1 & S1 & S2 & D & K & M & _).
  assert (Hstep : step' (st, w) (SheetImport sheet rows token) = (st1, w1)).
  { unfold step', step, handle. rewrite E. rewrite start_noop; [reflexivity|].
    right. congruence. }
  assert (Hafter : forall k, after k = fst (run' (repeat Settle k) (st1, w1))).
  { intros k. unfold after. rewrite run_cons, Hstep. reflexivity. }
  assert (G1 : isProcessingBatch st1 = true) by congruence.
  assert (R1' : running st1 = [t]) by congruence.
  pose proof (drain_at st1 w1 t j js G1 R1' Q) as Dr.
  split; [|split; [|split]].
  - rewrite Hafter. cbn. repeat split; congruence.
  - rewrite Hafter. destruct (Dr 0 ltac:(lia)) as (Q0 & _). exact Q0.
  - intros k Hk. rewrite Hafter.
    destruct (Dr k Hk) as (_ & _ & _ & S3 & S4 & _). split; congruence.
  - unfold n. rewrite Hafter.
    destruct (Dr (List.length js) ltac:(lia)) as (Q0 & P0 & T0 & S3 & S4 & _ & R0 & _).
    rewrite skipn_all in Q0, R0.
    rewrite (firstn_all2 (n := S (List.length js))) in S3 by lia.
    rewrite firstn_all in S4.
    rewrite B in P0, T0. cbn [processed total List.length Nat.add] in P0, T0.
    cbn [nextTask] in R0.
    repeat split; try congruence.
Qed.

(** X12. The status panel cannot be closed while a batch runs.  In a
    batch of n jobs imported while no call was in flight and left alone,
    the close button of the panel is rendered after k jobs have settled
    exactly when k is n; before that a [ClosePanel] has nothing to
    click, and changes neither the component nor the world: the
    counters, the log, the queue and the job in flight stay as they
    are. *)
Theorem panel_closes_only_when_complete
    (st : state) (w : world) (sheet : string) (rows : list row) (token : string)
    (jobs : list QueueItem) (w1 : world) (k : nat) :
  isProcessingBatch st = false -> running st = [] ->
  mode st <> BULK_PUBLISH ->
  newQueueOf st sheet rows w = (Ok jobs, w1) ->
  jobs <> [] ->
  k <= List.length jobs ->
  let c := run' (SheetImport sheet rows token :: repeat Settle k) (st, w) in
  closeButtonShown (fst c) = Nat.eqb k (List.length jobs)
  /\ (k < List.length jobs -> step' c ClosePanel = c).
Proof.
  intros Hp Hr Hm Hq Hj Hk c.
  pose proof (batch_at stringify text promptOf convertMarkdownToHtml titleOf
                st w sheet rows token jobs w1 Hp Hr Hm Hq Hj k Hk) as Bk.
  fold run' in Bk. cbv zeta in Bk. fold c in Bk.
  destruct c as [stk wk]. cbn [fst] in *.
  destruct Bk as (Q & P1 & T1 & A1 & _ & _ & G & _).
  assert (Hn : Nat.ltb 0 (List.length jobs) = true).
  { apply Nat.ltb_lt. destruct jobs; [congruence | simpl; lia]. }
  assert (Hb : closeButtonShown stk = Nat.eqb k (List.length jobs)).
  { unfold closeButtonShown. cbv zeta. rewrite A1, P1, T1, Hn. cbn [negb andb].
    apply andb_true_r. }
  split; [exact Hb|].
  intros Hlt. unfold step', step, handle. rewrite Hb.
  replace (Nat.eqb k (List.length jobs)) with false by (symmetry; apply Nat.eqb_neq; lia).
  rewrite start_noop; [reflexivity|]. right. rewrite G. apply Nat.ltb_lt. exact Hlt.
Qed.

Lemma keeps_ret {A} (a : A) : keepsArticles (retP a).
Proof. intros st w r st' w' H. inversion H; reflexivity. Qed.

Lemma keeps_throw {A} e : keepsArticles (@throwP state A e).
Proof. intros st w r st' w' H. inversion H; reflexivity. Qed.

Lemma keeps_lift {A} (m : M A) : keepsArticles (lift m).
Proof.
  intros st w r st' w' H. unfold lift in H. destruct (m w). inversion H; reflexivity.
Qed.

Lemma keeps_addLog msg : keepsArticles (addLog msg).
Proof. intros st w r st' w' H. inversion H; reflexivity. Qed.

Lemma keeps_bind {A B} (m : P state A) (k : A -> P state B) :
  keepsArticles m -> (forall a, keepsArticles (k a)) -> keepsArticles (bindP m k).
Proof.
  intros Hm Hk st w r st' w' H. unfold bindP in H.
  destruct (m st w) as [[[a|e] st1] w1] eqn:E.
  - rewrite (Hk _ _ _ _ _ _ H). eapply Hm; eauto.
  - inversion H; subst. eapply Hm; eauto.
Qed.

Ltac keeps :=
  repeat first
    [ apply keeps_bind; [|intros ?]
    | apply keeps_lift
    | apply keeps_addLog
    | apply keeps_ret
    | apply keeps_throw
    | match goal with
      | |- keepsArticles (if ?c then _ else _) => destruct c
      | |- keepsArticles (match ?c with Some _ => _ | None => _ end) => destruct c
      end ].

Lemma generateStep_keeps t : keepsArticles (generateStep promptOf titleOf t).
Proof. unfold generateStep. keeps. Qed.

Lemma exportStep_keeps t content title :
  keepsArticles (exportStep stringify text convertMarkdownToHtml t content title).
Proof. unfold exportStep. keeps. Qed.

(** the [try] block puts one article at the head of the history when
    it comes to its end, and none when it throws *)
Lemma tryBlock_history t st w :
  match tryBlock' t st w with
  | (Ok _, st', _) =>
      exists a, articles st' = a :: articles st
                /\ requestId a = r_id (request (t_item t))
                /\ a_status a = completed
  | (Throw _, st', _) => articles st' = articles st
  end.
Proof.
  unfold tryBlock', tryBlock. cbv zeta.
  unfold bindP at 1.
  destruct (generateStep promptOf titleOf t st w) as [[[ct|e] s1] w1] eqn:E1;
    [|eapply generateStep_keeps; exact E1].
  pose proof (generateStep_keeps _ _ _ _ _ _ E1) as K1.
  unfold bindP at 1. unfold addLog at 1. unfold update at 1.
  set (s2 := setBatchProgress _ s1).
  assert (K2 : articles s2 = articles st) by exact K1.
  unfold bindP at 1.
  destruct (exportStep stringify text convertMarkdownToHtml t (fst ct) (snd ct) s2 w1)
    as [[[drive|e] s3] w3] eqn:E3;
    [|rewrite (exportStep_keeps _ _ _ _ _ _ _ _ E3); exact K2].
  pose proof (exportStep_keeps _ _ _ _ _ _ _ _ E3) as K3.
  cbv beta iota delta [bindP lift generateId newDate update addLog].
  eexists. cbn [articles setArticles setBatchProgress].
  rewrite K3, K2. split; [reflexivity|]. split; reflexivity.
Qed.

(** X13. The article history and the worker.  When a call of the worker
    settles, the history has gained exactly one article, at its head,
    if the [try] block of the call came to its end: the article of the
    job, marked completed.  If the block threw, the history is as it
    was and the log has the line of the error: a failed job leaves no
    article. *)
Theorem settle_history (st : state) (w : world) (t : task) (ts : list task) :
  running st = t :: ts ->
  let st' := fst (handle' Settle (st, w)) in
  match fst (fst (tryBlock' t st w)) with
  | Ok _ =>
      exists a, articles st' = a :: articles st
                /\ requestId a = r_id (request (t_item t))
                /\ a_status a = completed
  | Throw e =>
      articles st' = articles st
      /\ In (errorLine t e) (logs (batchProgress st'))
  end.
Proof.
  intros R st'.
  pose proof (tryBlock_history t st w) as H.
  assert (A : articles st' = articles (snd (fst (tryBlock' t st w)))).
  { unfold st', handle', handle. rewrite R.
    unfold processNextItem_rest, finallyP, tryP. fold tryBlock'.
    destruct (tryBlock' t st w) as [[[[]|e] s1] w1]; cbn [fst snd].
    - rewrite finallyBlock_run. reflexivity.
    - unfold catchBlock, addLog, update. rewrite finallyBlock_run. reflexivity. }
  destruct (tryBlock' t st w) as [[[[]|e] s1] w1] eqn:E; cbn [fst snd] in *.
  - destruct H as (a & H1 & H2 & H3). exists a. rewrite A. auto.
  - split; [congruence|].
    destruct (settle_run stringify text promptOf convertMarkdownToHtml titleOf st w t ts R)
      as (st2 & w2 & E2 & _ & _ & _ & _ & _ & _ & _ & _ & _ & _ & _ & _ & _ & _ & L).
    unfold st'. fold handle' in E2. rewrite E2. cbn [fst].
    eapply L. exact E.
Qed.

Lemma start_articles st : articles (processNextItem_start st) = articles st.
Proof.
  unfold processNextItem_start. destruct (queue st); [reflexivity|].
  destruct (isProcessingBatch st); reflexivity.
Qed.

(** a call of the worker made in demo mode, when it settles *)
Lemma demo_settle st w t ts :
  running st = t :: ts -> t_isDemoMode t = true ->
  let c := handle' Settle (st, w) in
  trace (snd c) = (trace w ++ [Delay 1500; Delay 1000])%list
  /\ exists a,
       articles (fst c) = a :: articles st
       /\ requestId a = r_id (request (t_item t))
       /\ a_title a = keyword (request (t_item t))
       /\ a_content a = "# " ++ keyword (request (t_item t)) ++ " (Demo)" ++ lf ++ lf
                        ++ "Conteúdo gerado automaticamente..."
       /\ driveUrl a = Some (JStr "https://docs.google.com/demo-link")
       /\ driveId a = Some (JStr "demo-id")
       /\ a_status a = completed.
Proof.
  intros R Hd c. unfold c, handle', handle. rewrite R.
  unfold processNextItem_rest, finallyP, tryP, tryBlock, generateStep, exportStep, finallyBlock.
  rewrite Hd.
  cbv beta iota zeta delta [bindP lift delay retP update addLog generateId newDate negb andb
                            fst snd].
  split.
  - cbn [snd trace record tick]. rewrite <- app_assoc. reflexivity.
  - eexists. cbn. repeat split; reflexivity.
Qed.

(** X14. Demo mode asks nothing of the services.  An import in demo mode
    does not look at the rows it is given: its jobs are those of the
    three demonstration rows, with the row indices 0, 1 and 2.  Each of
    them then only waits, 1500 ms and 1000 ms, with no request to the
    provider, to Drive or to the sheet and no cool-down, and always
    succeeds: its article enters the history with the demonstration
    link. *)
Theorem demo_mode_uses_no_service
    (st : state) (w : world) (sheet : string) (rows : list row) (token : string) :
  isDemoMode st = true ->
  isProcessingBatch st = false -> running st = [] ->
  mode st <> BULK_PUBLISH ->
  let after := fun k => run' (SheetImport sheet rows token :: repeat Settle k) (st, w) in
  exists jobs w1,
    newQueueOf st sheet rows w = (Ok jobs, w1)
    /\ map (fun i => (rowIndex i, keyword (request i))) jobs
       = [(0, "Importância do Yoga no Trabalho");
          (1, "Estratégias de Marketing Digital 2024");
          (2, "Dicas de Alimentação Saudável")]
    /\ trace (snd (after 0)) = trace w
    /\ forall k, k < 3 ->
         trace (snd (after (S k)))
         = (trace (snd (after k)) ++ [Delay 1500; Delay 1000])%list
         /\ exists a,
              articles (fst (after (S k))) = a :: articles (fst (after k))
              /\ driveUrl a = Some (JStr "https://docs.google.com/demo-link").
Proof.
  intros Hd Hp Hr Hm after.
  destruct (buildQueue_ok sheet DEMO_ROWS 0 w) as (jobs & w1 & Hq & (T & _)).
  assert (Hq' : newQueueOf st sheet rows w = (Ok jobs, w1)).
  { unfold newQueueOf. rewrite Hd. exact Hq. }
  assert (Hjobs : map (fun i => (rowIndex i, keyword (request i))) jobs
                  = [(0, "Importância do Yoga no Trabalho");
                     (1, "Estratégias de Marketing Digital 2024");
                     (2, "Dicas de Alimentação Saudável")]).
  { cbv in Hq. inversion Hq; subst. reflexivity. }
  assert (Hlen : List.length jobs = 3).
  { apply (f_equal (@List.length _)) in Hjobs. rewrite length_map in Hjobs. exact Hjobs. }
  assert (Hj : jobs <> []) by (destruct jobs; [discriminate | discriminate]).
  exists jobs, w1. split; [exact Hq'|]. split; [exact Hjobs|]. split.
  - unfold after. cbn [repeat]. rewrite run_cons.
    change (run' [] ?c) with c. unfold step'. rewrite step_world.
    unfold handle. destruct (import_run st w sheet rows token jobs w1 Hm Hq' Hj) as (st1 & E & _).
    rewrite E. cbn [snd]. rewrite T, app_nil_r. reflexivity.
  - intros k Hk.
    pose proof (batch_at stringify text promptOf convertMarkdownToHtml titleOf
                  st w sheet rows token jobs w1 Hp Hr Hm Hq' Hj k ltac:(lia)) as Bk.
    fold run' in Bk. cbv zeta in Bk. fold (after k) in Bk.
    assert (Hstep : after (S k) = step' (after k) Settle).
    { unfold after. rewrite repeat_snoc, app_comm_cons.
      unfold run'. rewrite (run_snoc stringify text promptOf convertMarkdownToHtml titleOf).
      reflexivity. }
    rewrite Hstep. destruct (after k) as [stk wk]. cbn [fst snd] in *.
    destruct Bk as (Q & _ & _ & _ & _ & _ & _ & R & _).
    destruct (skipn k jobs) as [|item q1] eqn:Sk;
      [exfalso; eapply (skipn_nonempty k jobs); [lia | exact Sk]|].
    destruct (demo_settle stk wk _ _ R Hd) as (Tr & a & A1 & _ & _ & _ & A2 & _).
    unfold step'. rewrite step_world. fold handle'. split; [exact Tr|].
    exists a. split; [|exact A2].
    unfold step. fold handle'. destruct (handle' Settle (stk, wk)) as [s2 w2].
    cbn [fst] in *. rewrite start_articles. exact A1.
Qed.

Lemma keywordCells_cons r rows index :
  keywordCells (r :: rows) index
  = (match cell r 0 with Some kw => [(index, kw)] | None => [] end
     ++ keywordCells rows (S index))%list.
Proof. reflexivity. Qed.

(** X15. The jobs of an import follow the rows.  There is one job for every
    row whose first cell is not empty, in the order of the rows, with
    the index of its row in the sheet data, rows without keyword
    counted, and with the keyword of that row; the other four cells of
    the row fill the request, an empty or missing cell giving the fixed
    default. *)
Theorem jobs_follow_the_rows
    (sheet : string) (rows : list row) (w : world) (jobs : list QueueItem) (w1 : world) :
  buildQueue sheet rows 0 w = (Ok jobs, w1) ->
  map (fun i => (rowIndex i, keyword (request i))) jobs = keywordCells rows 0
  /\ Forall (fun i =>
       sheetId i = sheet /\ q_status i = pending
       /\ exists r,
            nth_error rows (rowIndex i) = Some r
            /\ hostNiche (request i) = cellOr r 1 "Geral"
            /\ targetLink (request i) = cellOr r 2 "#"
            /\ anchorText (request i) = cellOr r 3 "link"
            /\ targetNiche (request i) = cellOr r 4 "Geral") jobs.
Proof.
  assert (G : forall rows index w jobs w1,
             buildQueue sheet rows index w = (Ok jobs, w1) ->
             map (fun i => (rowIndex i, keyword (request i))) jobs = keywordCells rows index
             /\ Forall (fun i =>
                  sheetId i = sheet /\ q_status i = pending /\ index <= rowIndex i
                  /\ exists r,
                       nth_error rows (rowIndex i - index) = Some r
                       /\ hostNiche (request i) = cellOr r 1 "Geral"
                       /\ targetLink (request i) = cellOr r 2 "#"
                       /\ anchorText (request i) = cellOr r 3 "link"
                       /\ targetNiche (request i) = cellOr r 4 "Geral") jobs).
  { clear. intros rows. induction rows as [|r rows IH]; intros index w jobs w1 H.
    - inversion H; subst. split; [reflexivity | constructor].
    - rewrite keywordCells_cons. cbn [buildQueue] in H.
      assert (Shift : forall items,
                Forall (fun i =>
                  sheetId i = sheet /\ q_status i = pending /\ S index <= rowIndex i
                  /\ exists r0,
                       nth_error rows (rowIndex i - S index) = Some r0
                       /\ hostNiche (request i) = cellOr r0 1 "Geral"
                       /\ targetLink (request i) = cellOr r0 2 "#"
                       /\ anchorText (request i) = cellOr r0 3 "link"
                       /\ targetNiche (request i) = cellOr r0 4 "Geral") items ->
                Forall (fun i =>
                  sheetId i = sheet /\ q_status i = pending /\ index <= rowIndex i
                  /\ exists r0,
                       nth_error (r :: rows) (rowIndex i - index) = Some r0
                       /\ hostNiche (request i) = cellOr r0 1 "Geral"
                       /\ targetLink (request i) = cellOr r0 2 "#"
                       /\ anchorText (request i) = cellOr r0 3 "link"
                       /\ targetNiche (request i) = cellOr r0 4 "Geral") items).
      { intros items F. eapply Forall_impl; [|exact F].
        intros i (A & B & C & r0 & N & Rest).
        split; [exact A|]. split; [exact B|]. split; [lia|].
        exists r0. split; [|exact Rest].
        replace (rowIndex i - index) with (S (rowIndex i - S index)) by lia. exact N. }
      destruct (cell r 0) as [kw|] eqn:C.
      + unfold bind, generateId, ret in H.
        destruct (buildQueue sheet rows (S index) (tick (tick w))) as [[items|e] w2] eqn:E;
          [|discriminate].
        inversion H; subst. destruct (IH _ _ _ _ E) as [M F].
        split.
        * cbn [map app rowIndex request keyword]. rewrite M. reflexivity.
        * constructor; [|apply Shift; exact F].
          cbn. split; [reflexivity|]. split; [reflexivity|]. split; [lia|].
          exists r. rewrite Nat.sub_diag. repeat split; reflexivity.
      + destruct (IH _ _ _ _ H) as [M F]. split; [exact M | apply Shift; exact F]. }
  intros H. destruct (G rows 0 w jobs w1 H) as [M F]. split; [exact M|].
  eapply Forall_impl; [|exact F].
  intros i (A & B & _ & r & N & Rest). rewrite Nat.sub_0_r in N.
  split; [exact A|]. split; [exact B|]. exists r. split; assumption.
Qed.

Lemma buildQueue_nothing sheet rows index w :
  Forall (fun r => cell r 0 = None) rows -> buildQueue sheet rows index w = (Ok [], w).
Proof.
  intros F. revert index. induction F as [|r rows Hr _ IH]; intros index; [reflexivity|].
  cbn [buildQueue]. rewrite Hr. apply IH.
Qed.

(** X16. An import that makes no job changes nothing but the notice.  In
    the bulk publish screen the data are handed to that screen and the
    queue is not touched; elsewhere, when no row has a keyword, only
    the error notice is set.  In both cases the queue, the token, the
    progress record and the guard stay as they were, no identifier is
    drawn, and a batch that is running goes on undisturbed. *)
Theorem import_without_jobs
    (st : state) (w : world) (sheet : string) (rows : list row) (token : string) :
  (mode st = BULK_PUBLISH ->
   handleSheetImport sheet rows token st w
   = (Ok tt,
      setNotification (Some (success_notice "Dados importados! Revisando..."))
        (setBulkImportData (Some (sheet, rows, token)) st), w))
  /\ (mode st <> BULK_PUBLISH -> isDemoMode st = false ->
      Forall (fun r => cell r 0 = None) rows ->
      handleSheetImport sheet rows token st w
      = (Ok tt,
         setNotification (Some (error_notice "Nenhuma linha válida encontrada para processar."))
           st, w))
  /\ ((mode st = BULK_PUBLISH
       \/ (isDemoMode st = false /\ Forall (fun r => cell r 0 = None) rows)) ->
      let st' := snd (fst (handleSheetImport sheet rows token st w)) in
      queue st' = queue st /\ batchToken st' = batchToken st
      /\ batchProgress st' = batchProgress st
      /\ isProcessingBatch st' = isProcessingBatch st /\ running st' = running st
      /\ articles st' = articles st).
Proof.
  assert (A : mode st = BULK_PUBLISH ->
              handleSheetImport sheet rows token st w
              = (Ok tt,
                 setNotification (Some (success_notice "Dados importados! Revisando..."))
                   (setBulkImportData (Some (sheet, rows, token)) st), w)).
  { intros Hm. unfold handleSheetImport. rewrite Hm. reflexivity. }
  assert (B : mode st <> BULK_PUBLISH -> isDemoMode st = false ->
              Forall (fun r => cell r 0 = None) rows ->
              handleSheetImport sheet rows token st w
              = (Ok tt,
                 setNotification
                   (Some (error_notice "Nenhuma linha válida encontrada para processar."))
                   st, w)).
  { intros Hm Hd F. unfold handleSheetImport.
    assert (E : forall k : list QueueItem -> P state unit,
              bindP (lift (newQueueOf st sheet rows)) k st w = k [] st w).
    { intros k. unfold bindP, lift, newQueueOf. rewrite Hd, buildQueue_nothing by exact F.
      reflexivity. }
    destruct (mode st); try congruence; rewrite E; reflexivity. }
  split; [exact A|]. split; [exact B|].
  intros H st'. unfold st'.
  destruct (mode st) eqn:Em;
    try (destruct H as [H | [Hd F]]; [discriminate|];
         rewrite B by (try congruence; assumption); cbn; repeat split; reflexivity).
  rewrite A by reflexivity. cbn. repeat split; reflexivity.
Qed.

(** X17. The status panel and a batch.  In a batch imported while no call
    was in flight the panel is shown from the import on, and it reports
    the batch as complete exactly when the last job has settled; the
    close button then hides it. *)
Theorem panel_reports_completion
    (st : state) (w : world) (sheet : string) (rows : list row) (token : string)
    (jobs : list QueueItem) (w1 : world) :
  isProcessingBatch st = false -> running st = [] ->
  mode st <> BULK_PUBLISH ->
  newQueueOf st sheet rows w = (Ok jobs, w1) ->
  jobs <> [] ->
  let n := List.length jobs in
  let after := fun k => fst (run' (SheetImport sheet rows token :: repeat Settle k) (st, w)) in
  (forall k, k <= n ->
     panelHidden (batchProgress (after k)) = false
     /\ isComplete (batchProgress (after k)) = Nat.eqb k n)
  /\ panelHidden
       (batchProgress
          (fst (run' (SheetImport sheet rows token :: repeat Settle n ++ [ClosePanel]) (st, w))))
     = true.
Proof.
  intros Hp Hr Hm Hq Hj n after.
  assert (Hn : 0 < n) by (unfold n; destruct jobs; [congruence | simpl; lia]).
  split.
  - intros k Hk.
    destruct (batch_at stringify text promptOf convertMarkdownToHtml titleOf
                st w sheet rows token jobs w1 Hp Hr Hm Hq Hj k Hk)
      as (_ & P1 & T1 & A1 & _).
    fold run' in P1, T1, A1. fold (after k) in P1, T1, A1.
    unfold panelHidden, isComplete. rewrite P1, T1, A1. fold n. split; [reflexivity|].
    replace (Nat.ltb 0 n) with true by (symmetry; apply Nat.ltb_lt; exact Hn).
    apply andb_true_r.
  - rewrite app_comm_cons, run_app.
    destruct (batch_at stringify text promptOf convertMarkdownToHtml titleOf
                st w sheet rows token jobs w1 Hp Hr Hm Hq Hj n ltac:(lia))
      as (Q & P1 & T1 & A1 & _).
    fold run' in Q, P1, T1, A1. unfold n in Q at 2. rewrite skipn_all in Q. fold n in Q.
    destruct (run' (SheetImport sheet rows token :: repeat Settle n) (st, w)) as [stn wn].
    cbn [fst] in Q, P1, T1, A1.
    assert (Hb : closeButtonShown stn = true).
    { unfold closeButtonShown. cbv zeta. rewrite A1, P1, T1. fold n.
      rewrite Nat.eqb_refl. cbn [negb andb]. apply Nat.ltb_lt. exact Hn. }
    unfold run', run. cbn [fold_left]. unfold step, handle. rewrite Hb.
    unfold closePanel, update.
    rewrite start_noop by (left; exact Q). reflexivity.
Qed.

End Worker.
End WorkerFacts.

(** ** The bulk publish screen: drafts and sites *)

Module DraftFacts.
Import Js JsFacts Wordpress Bulk BulkExtra BulkFacts.

Lemma Forall2_map_same {A} (R : A -> A -> Prop) (g : A -> A) (l : list A) :
  (forall x, R x (g x)) -> Forall2 R l (map g l).
Proof. intros H. induction l; simpl; constructor; auto. Qed.

Section Publish.
Variable btoa : string -> string.
Variable invalidCharacter : string.
Variable stringify : json -> string.
Variable markdownToHtml : string -> string.
Variable toNumber : json -> json.

Let handlePublish' := handlePublish btoa invalidCharacter stringify markdownToHtml toNumber.

(** the calls of [handlePublish] that return at once *)
Lemma handlePublish_idle (id : string) (st : state) (w : world) :
  (find (fun d => String.eqb (d_id d) id) (drafts st) = None ->
   handlePublish' id st w = (Ok tt, st, w))
  /\ (forall d,
        find (fun d => String.eqb (d_id d) id) (drafts st) = Some d ->
        matchedSiteId d = "" ->
        handlePublish' id st w = (Ok tt, st, record (Alert "Selecione um site primeiro.") w))
  /\ (forall d,
        find (fun d => String.eqb (d_id d) id) (drafts st) = Some d ->
        matchedSiteId d <> "" ->
        find (fun s => String.eqb (site_id s) (matchedSiteId d)) (sites st) = None ->
        handlePublish' id st w = (Ok tt, st, w)).
Proof.
  unfold handlePublish', handlePublish. repeat split.
  - intros H. rewrite H. reflexivity.
  - intros d H E. rewrite H, E. reflexivity.
  - intros d H E N. rewrite H, N.
    apply String.eqb_neq in E. rewrite E. reflexivity.
Qed.

(** X18. Publishing needs a draft and its site.  A call for an
    identifier that no draft has, or for a draft whose site is no
    longer in the list of sites, does nothing at all; a call for a
    draft that has no site only shows the alert.  In the three cases no
    request is made and the drafts are left as they are.  A click on a
    publish button that is disabled (the draft has no site, is loading
    its document, is being published or is published) does not even
    call the handler. *)
Theorem publish_needs_draft_and_site (id : string) (st : state) (w : world) :
  (find (fun d => String.eqb (d_id d) id) (drafts st) = None ->
   handlePublish' id st w = (Ok tt, st, w))
  /\ (forall d,
        find (fun d => String.eqb (d_id d) id) (drafts st) = Some d ->
        matchedSiteId d = "" ->
        handlePublish' id st w = (Ok tt, st, record (Alert "Selecione um site primeiro.") w))
  /\ (forall d,
        find (fun d => String.eqb (d_id d) id) (drafts st) = Some d ->
        matchedSiteId d <> "" ->
        find (fun s => String.eqb (site_id s) (matchedSiteId d)) (sites st) = None ->
        handlePublish' id st w = (Ok tt, st, w))
  /\ (forall d,
        find (fun d => String.eqb (d_id d) id) (drafts st) = Some d ->
        matchedSiteId d = "" \/ d_status d = loading_doc
        \/ d_status d = publishing \/ d_status d = success ->
        clickPublish btoa invalidCharacter stringify markdownToHtml toNumber id st w = (Ok tt, st, w)).
Proof.
  destruct (handlePublish_idle id st w) as (N1 & N2 & N3).
  split; [exact N1|]. split; [exact N2|]. split; [exact N3|].
  intros d Hd H. unfold clickPublish, publishDisabled. rewrite Hd.
  destruct H as [H | [H | [H | H]]]; rewrite H; try reflexivity.
  destruct (d_status d); reflexivity.
Qed.

(** X19. What publishing a draft can change.  Whatever the services answer,
    [handlePublish] does not throw and leaves the sites alone; the
    drafts after the call are the drafts before it, one for one and in
    the same order, every draft with another identifier exactly as it
    was, and the draft itself with its title, content, slug, site,
    image and category untouched: only its status, its error message
    and its published link are written. *)
Theorem handlePublish_frame (id : string) (st : state) (w : world) :
  exists st' w',
    handlePublish' id st w = (Ok tt, st', w')
    /\ sites st' = sites st
    /\ Forall2 (fun d d' =>
         d_id d' = d_id d /\ d_title d' = d_title d /\ d_content d' = d_content d
         /\ d_slug d' = d_slug d /\ matchedSiteId d' = matchedSiteId d
         /\ image d' = image d /\ categoryId d' = categoryId d
         /\ metaDesc d' = metaDesc d
         /\ (d_id d <> id -> d' = d))
       (drafts st) (drafts st').
Proof.
  assert (Same : Forall2 (fun d d' =>
            d_id d' = d_id d /\ d_title d' = d_title d /\ d_content d' = d_content d
            /\ d_slug d' = d_slug d /\ matchedSiteId d' = matchedSiteId d
            /\ image d' = image d /\ categoryId d' = categoryId d
            /\ metaDesc d' = metaDesc d
            /\ (d_id d <> id -> d' = d)) (drafts st) (drafts st)).
  { rewrite <- (map_id (drafts st)) at 2. apply Forall2_map_same.
    intros x. repeat split; reflexivity. }
  assert (Written : forall f : BulkPostDraft -> BulkPostDraft,
            (forall x, d_id (f x) = d_id x /\ d_title (f x) = d_title x
                       /\ d_content (f x) = d_content x /\ d_slug (f x) = d_slug x
                       /\ matchedSiteId (f x) = matchedSiteId x /\ image (f x) = image x
                       /\ categoryId (f x) = categoryId x /\ metaDesc (f x) = metaDesc x) ->
            Forall2 (fun d d' =>
              d_id d' = d_id d /\ d_title d' = d_title d /\ d_content d' = d_content d
              /\ d_slug d' = d_slug d /\ matchedSiteId d' = matchedSiteId d
              /\ image d' = image d /\ categoryId d' = categoryId d
              /\ metaDesc d' = metaDesc d
              /\ (d_id d <> id -> d' = d))
              (drafts st)
              (map (fun x => if String.eqb (d_id x) id then f (nowPublishing x) else x)
                   (drafts st))).
  { intros f Hf. apply Forall2_map_same. intros x.
    destruct (String.eqb (d_id x) id) eqn:E.
    - destruct (Hf (nowPublishing x)) as (A1 & A2 & A3 & A4 & A5 & A6 & A7 & A8).
      apply String.eqb_eq in E.
      repeat split; try assumption. intros N. contradiction.
    - repeat split; reflexivity. }
  destruct (handlePublish_idle id st w) as (N1 & N2 & N3).
  destruct (find (fun d => String.eqb (d_id d) id) (drafts st)) as [d|] eqn:Hd.
  2:{ exists st, w. split; [|split; [reflexivity | exact Same]].
      apply N1. reflexivity. }
  destruct (String.eqb (matchedSiteId d) "") eqn:Em.
  { apply String.eqb_eq in Em. eexists st, _.
    split; [|split; [reflexivity | exact Same]].
    apply (N2 d); [reflexivity | exact Em]. }
  apply String.eqb_neq in Em.
  destruct (find (fun s => String.eqb (site_id s) (matchedSiteId d)) (sites st))
    as [site|] eqn:Hs.
  2:{ exists st, w. split; [|split; [reflexivity | exact Same]].
      apply (N3 d); [reflexivity | exact Em | exact Hs]. }
  unfold handlePublish'. rewrite (handlePublish_run _ _ _ _ _ _ _ _ _ _ Hd Em Hs).
  destruct (uploadImage btoa invalidCharacter site d w) as [[mediaId|e] w1];
    [destruct (WordpressClient.createWpPost _ _ _ _ _ _ w1) as [[result|e] w2];
       [destruct (prop "link" result w2) as [[link|e] w3]|]|];
    (eexists; eexists; split; [reflexivity|]; split; [reflexivity|];
     apply Written; intros x; repeat split; reflexivity).
Qed.

(** X20. Removing a draft.  After [handleRemoveDraft] no draft has the
    identifier, the other drafts are there in their order, the sites
    are untouched, and publishing the removed identifier does nothing:
    no request is made. *)
Theorem removed_draft_cannot_be_published (id : string) (st : state) (w : world) :
  exists st',
    handleRemoveDraft id st w = (Ok tt, st', w)
    /\ find (fun d => String.eqb (d_id d) id) (drafts st') = None
    /\ drafts st' = filter (fun d => negb (String.eqb (d_id d) id)) (drafts st)
    /\ (forall d, In d (drafts st) -> d_id d <> id -> In d (drafts st'))
    /\ sites st' = sites st
    /\ forall w2, handlePublish' id st' w2 = (Ok tt, st', w2).
Proof.
  eexists. split; [reflexivity|]. cbn [drafts sites].
  assert (F : find (fun d => String.eqb (d_id d) id)
                (filter (fun d => negb (String.eqb (d_id d) id)) (drafts st)) = None).
  { induction (drafts st) as [|x l IH]; [reflexivity|].
    cbn [filter]. destruct (String.eqb (d_id x) id) eqn:E; cbn [negb]; [exact IH|].
    cbn [find]. rewrite E. exact IH. }
  split; [exact F|]. split; [reflexivity|]. split; [|split; [reflexivity|]].
  - intros d Hin Hne. apply filter_In. split; [exact Hin|].
    apply String.eqb_neq in Hne. rewrite Hne. reflexivity.
  - intros w2.
    exact (proj1 (handlePublish_idle id
                    {| drafts := filter (fun d => negb (String.eqb (d_id d) id)) (drafts st);
                       sites := sites st |} w2) F).
Qed.

End Publish.

Lemma stripTrailingSlash_same h :
  JsString.endsWithSlash h = false -> JsString.stripTrailingSlash h = h.
Proof. intros H. unfold JsString.stripTrailingSlash. rewrite H. reflexivity. Qed.

Lemma stripTrailingSlash_slash h :
  JsString.endsWithSlash h = false -> JsString.stripTrailingSlash (h ++ "/") = h.
Proof.
  intros H. unfold JsString.stripTrailingSlash.
  assert (E : JsString.endsWithSlash (h ++ "/") = true
              /\ JsString.removeLast (h ++ "/") = h).
  { clear H. induction h as [|c h [IH1 IH2]]; [split; reflexivity|].
    change (String c h ++ "/") with (String c (h ++ "/")).
    destruct (h ++ "/") as [|c' r] eqn:Hr; [destruct h; discriminate|].
    change (JsString.endsWithSlash (String c (String c' r)))
      with (JsString.endsWithSlash (String c' r)).
    change (JsString.removeLast (String c (String c' r)))
      with (String c (JsString.removeLast (String c' r))).
    rewrite IH2. split; [exact IH1 | reflexivity]. }
  destruct E as [E1 E2]. rewrite E1. exact E2.
Qed.

Lemma normalizeUrl_host h s t :
  JsString.endsWithSlash h = false ->
  In s ["http://"; "https://"] -> In t [""; "/"] ->
  normalizeUrl (s ++ h ++ t) = h.
Proof.
  intros H Hs Ht. unfold normalizeUrl.
  assert (P : stripProtocol (s ++ h ++ t) = h ++ t).
  { destruct Hs as [<- | [<- | []]]; reflexivity. }
  rewrite P. destruct Ht as [<- | [<- | []]].
  - rewrite TrimFacts.append_nil_r. apply stripTrailingSlash_same. exact H.
  - apply stripTrailingSlash_slash. exact H.
Qed.

(** X21. Sites are matched up to the scheme and one final slash.  The site
    of a row is the first site whose URL, without a leading [http://]
    or [https://] and without one final slash, equals the site URL of
    the row treated in the same way: so [https://h/] in the sheet finds
    a site saved as [http://h], whatever sites come after it in the
    list. *)
Theorem sites_match_up_to_scheme_and_slash
    (h s1 t1 s2 t2 : string) (site : WordpressSite) (others : list WordpressSite) :
  JsString.endsWithSlash h = false ->
  In s1 ["http://"; "https://"] -> In t1 [""; "/"] ->
  In s2 ["http://"; "https://"] -> In t2 [""; "/"] ->
  site_url site = s1 ++ h ++ t1 ->
  normalizeUrl (site_url site) = normalizeUrl (s2 ++ h ++ t2)
  /\ matchSite (site :: others) (s2 ++ h ++ t2) = Some site.
Proof.
  intros H Hs1 Ht1 Hs2 Ht2 E.
  assert (N : normalizeUrl (site_url site) = normalizeUrl (s2 ++ h ++ t2)).
  { rewrite E, !normalizeUrl_host by assumption. reflexivity. }
  split; [exact N|].
  unfold matchSite. cbn [find]. rewrite N, String.eqb_refl.
  destruct Hs2 as [<- | [<- | []]]; reflexivity.
Qed.

(** X22. Adding a site from the bulk publish screen.  With a field of the
    dialogue empty the call does nothing.  Otherwise the new site goes
    last in the list, with the time as its identifier and its URL
    without one final slash, the same list is written to local storage,
    the dialogue is cleared and closed, and the drafts stay one for one
    in their order: a draft that has a site keeps it, and a draft
    without site takes the new one exactly when its sheet URL matches
    the URL of the new site up to the scheme and one final slash. *)
Theorem handleAddSite_appends_and_matches (m : manager) (w : world) :
  let f := newSite m in
  (f_name f = "" \/ f_url f = "" \/ f_username f = "" \/ f_appPassword f = "" ->
   handleAddSite m w = (Ok tt, m, w))
  /\ (f_name f <> "" -> f_url f <> "" -> f_username f <> "" -> f_appPassword f <> "" ->
      exists m' site,
        handleAddSite m w = (Ok tt, m', tick w)
        /\ site = {| site_id := JsString.ofNat (clock w (ticks w));
                     site_name := f_name f;
                     site_url := JsString.stripTrailingSlash (f_url f);
                     site_username := f_username f;
                     site_appPassword := f_appPassword f |}
        /\ sites (core m') = (sites (core m) ++ [site])%list
        /\ storedSites m' = Some (sites (core m'))
        /\ isAddSiteModalOpen m' = false
        /\ newSite m' = {| f_name := ""; f_url := ""; f_username := ""; f_appPassword := "" |}
        /\ Forall2 (fun d d' =>
             (matchedSiteId d <> "" -> d' = d)
             /\ (normalizeUrl (siteUrlFromSheet d) <> normalizeUrl (site_url site) -> d' = d)
             /\ (matchedSiteId d = "" ->
                 normalizeUrl (siteUrlFromSheet d) = normalizeUrl (site_url site) ->
                 d' = withSite (site_id site) d))
           (drafts (core m)) (drafts (core m'))).
Proof.
  intros f. split.
  - intros H. unfold handleAddSite. fold f.
    assert (E : String.eqb (f_name f) "" || String.eqb (f_url f) ""
                || String.eqb (f_username f) "" || String.eqb (f_appPassword f) "" = true).
    { destruct H as [H | [H | [H | H]]]; rewrite H; cbn [String.eqb];
        rewrite ?orb_true_r; reflexivity. }
    rewrite E. reflexivity.
  - intros H1 H2 H3 H4. unfold handleAddSite. fold f.
    apply String.eqb_neq in H1, H2, H3, H4. rewrite H1, H2, H3, H4. cbn [orb].
    eexists. eexists. split; [reflexivity|]. split; [reflexivity|].
    cbn [core sites storedSites isAddSiteModalOpen newSite drafts].
    repeat split.
    apply Forall2_map_same. intros d. unfold autoMatch. cbv zeta.
    destruct (String.eqb (normalizeUrl _) (normalizeUrl (siteUrlFromSheet d))) eqn:Eu;
      [apply String.eqb_eq in Eu | apply String.eqb_neq in Eu];
      (destruct (String.eqb (matchedSiteId d) "") eqn:Em;
       [apply String.eqb_eq in Em | apply String.eqb_neq in Em]);
      cbn [andb]; cbn [site_url] in Eu; cbn [site_url site_id];
      repeat split; intros; try reflexivity; try congruence.
Qed.

End DraftFacts.

(** ** The sheet client: identifiers, rows and cells *)

Module SheetFacts.
Import Js JsFacts JsString JsStringFacts SheetsExtra.

Lemma idPrefix_all id rest :
  forallb idChar (list_ascii_of_string id) = true ->
  match rest with EmptyString => True | String c _ => idChar c = false end ->
  idPrefix (id ++ rest) = id.
Proof.
  intros H R. induction id as [|c id IH].
  - destruct rest as [|c r]; [reflexivity|]. cbn [append idPrefix]. rewrite R. reflexivity.
  - cbn [list_ascii_of_string forallb] in H. apply andb_prop in H. destruct H as [Hc H].
    cbn [append idPrefix]. rewrite Hc, IH by exact H. reflexivity.
Qed.

Lemma idPrefix_chars s : forallb idChar (list_ascii_of_string (idPrefix s)) = true.
Proof.
  induction s as [|c s IH]; [reflexivity|].
  cbn [idPrefix]. destruct (idChar c) eqn:E; [|reflexivity].
  cbn [list_ascii_of_string forallb]. rewrite E, IH. reflexivity.
Qed.

Lemma idPrefix_prefix s : exists r, s = idPrefix s ++ r.
Proof.
  induction s as [|c s [r IH]]; [exists EmptyString; reflexivity|].
  cbn [idPrefix]. destruct (idChar c).
  - exists r. cbn [append]. rewrite <- IH. reflexivity.
  - exists (String c s). reflexivity.
Qed.

Lemma matchId_cons c s :
  matchId (String c s)
  = let here := if startsWith "/d/" (String c s)
                then idPrefix (drop 3 (String c s)) else EmptyString in
    if negb (String.eqb here EmptyString) then Some here else matchId s.
Proof. reflexivity. Qed.

Lemma startsWith_app_long p a b :
  String.length p <= String.length a -> startsWith p (a ++ b) = startsWith p a.
Proof.
  revert a. induction p as [|c p IH]; intros a H; [reflexivity|].
  destruct a as [|d a]; [simpl in H; lia|].
  cbn [append startsWith]. rewrite IH by (simpl in H; lia). reflexivity.
Qed.

Lemma matchId_skip pre x :
  includes "/d/" (pre ++ "/d") = false ->
  matchId (pre ++ "/d/" ++ x) = matchId ("/d/" ++ x).
Proof.
  intros H. induction pre as [|c pre IH]; [reflexivity|].
  change (String c pre ++ "/d/" ++ x) with (String c (pre ++ "/d/" ++ x)).
  change (String c pre ++ "/d") with (String c (pre ++ "/d")) in H.
  cbn [includes] in H. apply orb_false_elim in H. destruct H as [H0 H].
  rewrite matchId_cons. cbv zeta.
  assert (N : startsWith "/d/" (String c (pre ++ "/d/" ++ x)) = false).
  { replace (String c (pre ++ "/d/" ++ x)) with (String c (pre ++ "/d") ++ ("/" ++ x)).
    - rewrite startsWith_app_long; [exact H0|].
      cbn [String.length]. rewrite TrimFacts.length_append. cbn [String.length]. lia.
    - cbn [append]. f_equal. rewrite append_assoc. reflexivity. }
  rewrite N. cbn [String.eqb negb]. apply IH. exact H.
Qed.

(** X23. The identifier is read from the path of a document URL.  For a
    text [pre ++ "/d/" ++ id ++ rest], where this [/d/] is the first of
    the text, [id] is a run of letters, digits, hyphens and underscores
    that is not empty, and [rest] is empty or starts with another
    character, the result is [id]: what precedes [/d/] and what follows
    the identifier, such as [/edit], is dropped. *)
Theorem extractSheetId_of_document_url (pre id rest : string) :
  includes "/d/" (pre ++ "/d") = false ->
  id <> EmptyString ->
  forallb idChar (list_ascii_of_string id) = true ->
  match rest with EmptyString => True | String c _ => idChar c = false end ->
  extractSheetId (pre ++ "/d/" ++ id ++ rest) = Some id.
Proof.
  intros Hpre Hid Hchars Hrest. unfold extractSheetId.
  rewrite matchId_skip by exact Hpre.
  change ("/d/" ++ id ++ rest) with (String "/" (String "d" (String "/" (id ++ rest)))).
  rewrite matchId_cons. cbv zeta.
  change (startsWith "/d/" (String "/" (String "d" (String "/" (id ++ rest))))) with true.
  change (drop 3 (String "/" (String "d" (String "/" (id ++ rest))))) with (id ++ rest).
  cbv iota. rewrite idPrefix_all by assumption.
  destruct id; [congruence | reflexivity].
Qed.

Lemma matchId_found s r :
  matchId s = Some r ->
  r <> EmptyString /\ forallb idChar (list_ascii_of_string r) = true
  /\ exists pre rest, s = pre ++ "/d/" ++ r ++ rest.
Proof.
  induction s as [|c s IH].
  - cbn. discriminate.
  - rewrite matchId_cons. cbv zeta.
    destruct (startsWith "/d/" (String c s)) eqn:E.
    + destruct (String.eqb (idPrefix (drop 3 (String c s))) EmptyString) eqn:Z; cbn [negb].
      * intros H. destruct (IH H) as (A & B & pre & rest & C).
        split; [exact A|]. split; [exact B|].
        exists (String c pre), rest. cbn [append]. rewrite C. reflexivity.
      * pose proof (TrimFacts.startsWith_split _ _ E) as Sp.
        change (String.length "/d/") with 3 in Sp.
        set (t := drop 3 (String c s)) in *.
        intros [= <-]. apply String.eqb_neq in Z. split; [exact Z|].
        split; [apply idPrefix_chars|].
        destruct (idPrefix_prefix t) as [rest Hr].
        exists EmptyString, rest.
        change (EmptyString ++ "/d/" ++ idPrefix t ++ rest) with ("/d/" ++ (idPrefix t ++ rest)).
        rewrite <- Hr. exact Sp.
    + cbn [String.eqb negb]. intros H. destruct (IH H) as (A & B & pre & rest & C).
      split; [exact A|]. split; [exact B|].
      exists (String c pre), rest. cbn [append]. rewrite C. reflexivity.
Qed.

(** X24. What [extractSheetId] can return.  A result is never the empty
    text.  It is either a run of letters, digits, hyphens and
    underscores that follows a [/d/] of the input, or, when the input
    has no such place, the whole input, and this only if the input is
    longer than 20 characters; a shorter input without such a place is
    rejected. *)
Theorem extractSheetId_results (s : string) :
  match extractSheetId s with
  | Some r =>
      r <> EmptyString
      /\ ((forallb idChar (list_ascii_of_string r) = true
           /\ exists pre rest, s = pre ++ "/d/" ++ r ++ rest)
          \/ (r = s /\ matchId s = None /\ 20 < utf16Length s))
  | None => matchId s = None /\ utf16Length s <= 20
  end.
Proof.
  unfold extractSheetId. destruct (matchId s) as [r|] eqn:E.
  - destruct (matchId_found _ _ E) as (A & B & C). split; [exact A|]. left. split; assumption.
  - destruct (Nat.ltb 20 (utf16Length s)) eqn:L.
    + apply Nat.ltb_lt in L. split.
      * intros ->. simpl in L. lia.
      * right. repeat split. exact L.
    + apply Nat.ltb_ge in L. split; [reflexivity | exact L].
Qed.

Lemma append_inv_head (x y z : string) : x ++ y = x ++ z -> y = z.
Proof. induction x as [|c x IH]; cbn [append]; intros H; [exact H | inversion H; auto]. Qed.

Lemma append_inv_tail (x y z : string) : x ++ z = y ++ z -> x = y.
Proof.
  revert y. induction x as [|c x IH]; intros y H.
  - destruct y as [|d y]; [reflexivity|]. exfalso.
    apply (f_equal String.length) in H. cbn [append String.length] in H.
    rewrite TrimFacts.length_append in H. lia.
  - destruct y as [|d y].
    + exfalso. apply (f_equal String.length) in H. cbn [append String.length] in H.
      rewrite TrimFacts.length_append in H. lia.
    + cbn [append] in H. inversion H; subst. f_equal. apply IH. assumption.
Qed.

Lemma ofNat_inj a b : ofNat a = ofNat b -> a = b.
Proof.
  unfold ofNat. intros H. apply DecimalNat.Unsigned.to_uint_inj.
  apply (f_equal NilEmpty.uint_of_string) in H. rewrite !NilEmpty.usu in H.
  inversion H. reflexivity.
Qed.

Lemma buildQueue_indices sheet rows index w jobs w1 :
  App.buildQueue sheet rows index w = (Ok jobs, w1) ->
  NoDup (map App.rowIndex jobs) /\ Forall (fun i => index <= App.rowIndex i) jobs.
Proof.
  revert index w jobs w1. induction rows as [|r rows IH]; intros index w jobs w1 H.
  - inversion H; subst. split; constructor.
  - cbn [App.buildQueue] in H. destruct (App.cell r 0) as [kw|].
    + unfold bind, generateId, ret in H.
      destruct (App.buildQueue sheet rows (S index) (tick (tick w))) as [[items|e] w2] eqn:E;
        [|discriminate].
      inversion H; subst. destruct (IH _ _ _ _ E) as [N F]. split.
      * cbn [map App.rowIndex]. constructor; [|exact N].
        intros Hin. apply in_map_iff in Hin. destruct Hin as (x & Hx & Hin).
        rewrite Forall_forall in F. specialize (F x Hin). lia.
      * constructor; [cbn; lia|]. eapply Forall_impl; [|exact F]. cbn. intros; lia.
    + destruct (IH _ _ _ _ H) as [N F]. split; [exact N|].
      eapply Forall_impl; [|exact F]. cbn. intros; lia.
Qed.

Section WithStringify.
Variable stringify : json -> string.

(** X25. Different rows are written to different cells.  Two writes to the
    same sheet and column address the same URL only if they are for the
    same row index; and the jobs of one import all have different row
    indices, so that no two of them write their link to the same
    cell. *)
Theorem rows_are_written_to_distinct_cells :
  (forall token1 token2 sheet column r1 r2 v1 v2,
     req_url (Sheets.updateSheetCell_request stringify token1 sheet r1 v1 column)
     = req_url (Sheets.updateSheetCell_request stringify token2 sheet r2 v2 column) ->
     r1 = r2)
  /\ (forall sheet rows w jobs w1 token value,
        App.buildQueue sheet rows 0 w = (Ok jobs, w1) ->
        NoDup (map (fun i => req_url (Sheets.updateSheetCell_request stringify token
                                        (App.sheetId i) (App.rowIndex i) value "F")) jobs)).
Proof.
  assert (Inj : forall token1 token2 sheet column r1 r2 v1 v2,
     req_url (Sheets.updateSheetCell_request stringify token1 sheet r1 v1 column)
     = req_url (Sheets.updateSheetCell_request stringify token2 sheet r2 v2 column) ->
     r1 = r2).
  { intros token1 token2 sheet column r1 r2 v1 v2 H.
    cbn [req_url Sheets.updateSheetCell_request] in H. unfold Sheets.range in H. cbv zeta in H.
    apply append_inv_head in H. apply append_inv_head in H. apply append_inv_head in H.
    apply append_inv_tail in H. apply append_inv_head in H. apply ofNat_inj in H. lia. }
  split; [exact Inj|].
  intros sheet rows w jobs w1 token value H.
  destruct (buildQueue_indices _ _ _ _ _ _ H) as [N _].
  assert (Hs : forall i, In i jobs -> App.sheetId i = sheet).
  { intros i Hi. destruct (AppFacts.buildQueue_rows _ _ _ _ _ _ H i Hi) as (_ & S & _). exact S. }
  clear H. induction jobs as [|j jobs IH]; [constructor|].
  cbn [map] in *. inversion N; subst. constructor.
  - intros Hin. apply in_map_iff in Hin. destruct Hin as (x & Hx & Hin).
    rewrite (Hs x) in Hx by (right; exact Hin). rewrite (Hs j) in Hx by (left; reflexivity).
    apply Inj in Hx. apply H1. apply in_map_iff. exists x. split; [exact Hx | exact Hin].
  - apply IH; [assumption|]. intros i Hi. apply Hs. right. exact Hi.
Qed.

End WithStringify.

Section WithText.
Variable text : json -> string.

(** X26. Reading a sheet.  Whatever the answer, [fetchSheetRows] makes one
    request, a GET of the range [A2:E] of the sheet with the bearer
    token.  An answer with a 2xx status and a JSON object gives the
    [values] of that object; when the object has no [values], as for a
    sheet without data rows, the result is the empty array, not an
    error. *)
Theorem fetchSheetRows_reads_once (token sheet : string) (w : world) :
  let r := fetchSheetRows_request token sheet in
  trace (snd (fetchSheetRows text token sheet w)) = (trace w ++ [Fetch r])%list
  /\ req_method r = "GET" /\ req_body r = NoBody
  /\ req_url r = "https://sheets.googleapis.com/v4/spreadsheets/" ++ sheet ++ "/values/A2:E"
  /\ (forall status fields,
        net w (List.length (trace w)) r = Answered status (Parsed (JObj fields)) ->
        ok status = true ->
        fst (fetchSheetRows text token sheet w)
        = Ok (if truthy (lookup "values" fields)
              then match lookup "values" fields with Some v => v | None => JArr [] end
              else JArr [])
        /\ (lookup "values" fields = None ->
            fst (fetchSheetRows text token sheet w) = Ok (JArr []))).
Proof.
  intros r. split; [|split; [reflexivity|split; [reflexivity|split; [reflexivity|]]]].
  - unfold fetchSheetRows, bind, fetch. fold r.
    destruct (net w _ r) as [e|status body]; [reflexivity|].
    destruct (negb (ok status)).
    + destruct body as [j|e]; [|reflexivity]. cbn [json_of ret].
      unfold Drive.errorMessage, bind.
      destruct (prop "error" j (record (Fetch r) w)) as [[o|e] w2] eqn:E1.
      * pose proof (BulkFacts.prop_world "error" j (record (Fetch r) w)) as W.
        rewrite E1 in W. cbn [snd] in W. subst w2.
        destruct o as [[| | | | |]|]; try reflexivity;
          match goal with
          | |- context [prop "message" ?v ?w0] =>
              pose proof (BulkFacts.prop_world "message" v w0) as W2;
              destruct (prop "message" v w0) as [[?|?] ?]; cbn [snd] in W2; subst; reflexivity
          end.
      * pose proof (BulkFacts.prop_world "error" j (record (Fetch r) w)) as W.
        rewrite E1 in W. cbn [snd] in W. subst w2. reflexivity.
    + destruct body as [j|e]; [|reflexivity]. cbn [json_of ret].
      pose proof (BulkFacts.prop_world "values" j (record (Fetch r) w)) as W.
      destruct (prop "values" j (record (Fetch r) w)) as [[?|?] ?]; cbn [snd] in W; subst;
        reflexivity.
  - intros status fields Hn Hok.
    assert (E : fst (fetchSheetRows text token sheet w)
                = Ok (if truthy (lookup "values" fields)
                      then match lookup "values" fields with Some v => v | None => JArr [] end
                      else JArr [])).
    { unfold fetchSheetRows, bind, fetch. fold r. rewrite Hn, Hok. reflexivity. }
    split; [exact E|]. intros N. rewrite E, N. reflexivity.
Qed.

End WithText.
End SheetFacts.

(** ** The single post editor *)

Module PublisherFacts.
Import Js JsFacts Wordpress Publisher.

Section Publish.
Variable btoa : string -> string.
Variable invalidCharacter : string.
Variable stringify : json -> string.
Variable markdownToHtml : string -> string.
Variable toNumber : json -> json.

Let handlePublish' := handlePublish btoa invalidCharacter stringify markdownToHtml toNumber.

(** what [handlePublish] never writes *)
Let sameInput (st st' : state) : Prop :=
  title st' = title st /\ content st' = content st /\ slug st' = slug st
  /\ metaDesc st' = metaDesc st /\ imageFile st' = imageFile st /\ sites st' = sites st
  /\ selectedSiteId st' = selectedSiteId st /\ selectedCategoryId st' = selectedCategoryId st.

(** the editor after a publication stopped by the error [e] *)
Let failed (e : Js.error) (st' : state) : Prop :=
  error st' = err_message e /\ successMsg st' = None /\ publishedData st' = None.

(** X27. Publishing from the editor.  The call first clears the error and
    the two success records.  Without a selected site in the list, or
    with a title or a content that is empty or only white space, it
    sets the error of the case and makes no request.  Otherwise it
    never throws and ends with the status [idle].  With an image it
    calls [uploadWpMedia] first, and an error of the upload ends the
    call: the editor shows the message of that error and [createWpPost]
    is not called.  Then it calls [createWpPost] with the fields of the
    editor and the identifier that the upload returned (none without an
    image); an error of that call, or of the reading of the [link] of
    its result, ends the call with the message of that error.
    Otherwise the editor shows the success message of the status with
    the [link] of the result, and the persistent record holds that link
    and the title exactly when the post was published, not saved as a
    draft.  The title, the content and the other inputs are never
    written. *)
Theorem editor_publish_outcomes (status : post_status) (st : state) (w : world) :
  exists st' w',
    handlePublish' status st w = (Ok tt, st', w')
    /\ sameInput st st'
    /\ match getSelectedSite st with
       | None =>
           w' = w /\ error st' = "Selecione um site para publicar."
           /\ successMsg st' = None /\ publishedData st' = None
           /\ publishingStatus st' = publishingStatus st
       | Some site =>
           if String.eqb (JsString.trim (title st)) ""
              || String.eqb (JsString.trim (content st)) ""
           then
             w' = w /\ error st' = "Título e conteúdo são obrigatórios."
             /\ successMsg st' = None /\ publishedData st' = None
             /\ publishingStatus st' = publishingStatus st
           else
             publishingStatus st' = idle
             /\ match match imageFile st with
                      | Some f => WordpressClient.uploadWpMedia btoa invalidCharacter site f w
                      | None => (Ok None, w)
                      end with
                | (Throw e, w1) => w' = w1 /\ failed e st'
                | (Ok featuredMediaId, w1) =>
                    match WordpressClient.createWpPost btoa invalidCharacter stringify
                            markdownToHtml site
                            (publishParams toNumber st status featuredMediaId) w1 with
                    | (Throw e, w2) => w' = w2 /\ failed e st'
                    | (Ok result, w2) =>
                        match prop "link" result w2 with
                        | (Throw e, w3) => w' = w3 /\ failed e st'
                        | (Ok link, w3) =>
                            w' = w3
                            /\ error st' = ""
                            /\ successMsg st' = Some (successText status, link)
                            /\ publishedData st'
                               = match status with
                                 | publish => Some (link, title st)
                                 | draft => None
                                 end
                        end
                    end
                end
       end.
Proof.
  unfold handlePublish', handlePublish, failed.
  cbv beta iota delta [bindP update].
  destruct (getSelectedSite st) as [site|].
  2:{ eexists; eexists. split; [reflexivity|]. split; [repeat split|].
      cbn. repeat split. }
  destruct (String.eqb (JsString.trim (title st)) ""
            || String.eqb (JsString.trim (content st)) "").
  { eexists; eexists. split; [reflexivity|]. split; [repeat split|].
    cbn. repeat split. }
  unfold finallyP, tryP, publishBody.
  cbv beta iota delta [bindP update lift retP].
  destruct (imageFile st) as [f|].
  - cbv beta iota delta [bindP update lift retP].
    destruct (WordpressClient.uploadWpMedia btoa invalidCharacter site f w) as [[mediaId|e] w1].
    + destruct (WordpressClient.createWpPost _ _ _ _ _ _ w1) as [[result|e] w2].
      * destruct (prop "link" result w2) as [[link|e] w3].
        -- destruct status;
             (eexists; eexists; split; [reflexivity|]; split; [repeat split|];
              cbn; repeat split).
        -- eexists; eexists; split; [reflexivity|]; split; [repeat split|].
           cbn. repeat split.
      * eexists; eexists; split; [reflexivity|]; split; [repeat split|].
        cbn. repeat split.
    + eexists; eexists; split; [reflexivity|]; split; [repeat split|].
      cbn. repeat split.
  - destruct (WordpressClient.createWpPost _ _ _ _ _ _ w) as [[result|e] w2].
    + destruct (prop "link" result w2) as [[link|e] w3].
      * destruct status;
          (eexists; eexists; split; [reflexivity|]; split; [repeat split|];
           cbn; repeat split).
      * eexists; eexists; split; [reflexivity|]; split; [repeat split|].
        cbn. repeat split.
    + eexists; eexists; split; [reflexivity|]; split; [repeat split|].
      cbn. repeat split.
Qed.

End Publish.
End PublisherFacts.

(** ** The site list of the settings screen *)

Module SiteListFacts.
Import Js JsFacts Wordpress SettingsExtra.

Lemma find_none_not_in id (l : list WordpressSite) :
  find (fun s => String.eqb (site_id s) id) l = None -> ~ In id (map site_id l).
Proof.
  induction l as [|x l IH]; [intros _ []|].
  cbn [find map]. destruct (String.eqb (site_id x) id) eqn:E; [discriminate|].
  intros H [Hx | Hin]; [|exact (IH H Hin)].
  apply String.eqb_neq in E. contradiction.
Qed.

Lemma map_id_replace site (l : list WordpressSite) :
  map site_id (map (fun s => if String.eqb (site_id s) (site_id site) then site else s) l)
  = map site_id l.
Proof.
  rewrite map_map. apply map_ext. intros s.
  destruct (String.eqb (site_id s) (site_id site)) eqn:E; [|reflexivity].
  apply String.eqb_eq in E. congruence.
Qed.

Lemma find_replaced site (l : list WordpressSite) x :
  find (fun s => String.eqb (site_id s) (site_id site)) l = Some x ->
  find (fun s => String.eqb (site_id s) (site_id site))
       (map (fun s => if String.eqb (site_id s) (site_id site) then site else s) l) = Some site.
Proof.
  induction l as [|y l IH]; [discriminate|].
  cbn [find map]. destruct (String.eqb (site_id y) (site_id site)) eqn:E.
  - intros _. cbn [find]. rewrite String.eqb_refl. reflexivity.
  - intros H. rewrite E. exact (IH H).
Qed.

Lemma find_appended site (l : list WordpressSite) :
  find (fun s => String.eqb (site_id s) (site_id site)) l = None ->
  find (fun s => String.eqb (site_id s) (site_id site)) (l ++ [site]) = Some site.
Proof.
  induction l as [|y l IH]; cbn [find app].
  - intros _. rewrite String.eqb_refl. reflexivity.
  - destruct (String.eqb (site_id y) (site_id site)); [discriminate | exact IH].
Qed.

(** X28. Saving and deleting sites in the settings screen.  A save with a
    complete form never throws; afterwards the site saved is the one
    found under its identifier, the list written to local storage is
    the list shown, and the dialogue is closed.  A site with a new
    identifier goes last; a site with a known identifier takes the
    place of the old record, the identifiers and their order staying
    as they were.  A confirmed delete removes every site with the
    identifier, so that none is found under it, and keeps the others in
    their order; a delete that is not confirmed changes nothing.  Both
    keep a list without repeated identifiers free of them. *)
Theorem saved_site_is_found (p : sitesPanel) (w : world) (site : WordpressSite) (id : string) :
  (editingSite p = Some site -> complete site = true ->
   exists p',
     handleSaveSite p w = (Ok tt, p', w)
     /\ find (fun s => String.eqb (site_id s) (site_id site)) (wpSites p') = Some site
     /\ storedWpSites p' = Some (wpSites p')
     /\ isEditSiteOpen p' = false /\ editingSite p' = None
     /\ (find (fun s => String.eqb (site_id s) (site_id site)) (wpSites p) = None ->
         wpSites p' = (wpSites p ++ [site])%list)
     /\ (find (fun s => String.eqb (site_id s) (site_id site)) (wpSites p) <> None ->
         map site_id (wpSites p') = map site_id (wpSites p))
     /\ (NoDup (map site_id (wpSites p)) -> NoDup (map site_id (wpSites p'))))
  /\ (exists p',
        handleDeleteSite true id p w = (Ok tt, p', w)
        /\ find (fun s => String.eqb (site_id s) id) (wpSites p') = None
        /\ wpSites p' = filter (fun s => negb (String.eqb (site_id s) id)) (wpSites p)
        /\ storedWpSites p' = Some (wpSites p')
        /\ (NoDup (map site_id (wpSites p)) -> NoDup (map site_id (wpSites p'))))
  /\ handleDeleteSite false id p w = (Ok tt, p, w).
Proof.
  split; [|split; [|reflexivity]].
  - intros He Hc. unfold handleSaveSite. rewrite He, Hc. cbn [negb]. cbv zeta.
    destruct (find (fun s => String.eqb (site_id s) (site_id site)) (wpSites p)) as [x|] eqn:F.
    + eexists. split; [reflexivity|]. cbn [wpSites storedWpSites isEditSiteOpen editingSite].
      split; [eapply find_replaced; exact F|]. split; [reflexivity|].
      split; [reflexivity|]. split; [reflexivity|]. split; [discriminate|].
      split; [intros _; apply map_id_replace|].
      rewrite map_id_replace. auto.
    + eexists. split; [reflexivity|]. cbn [wpSites storedWpSites isEditSiteOpen editingSite].
      split; [apply find_appended; exact F|]. split; [reflexivity|].
      split; [reflexivity|]. split; [reflexivity|]. split; [reflexivity|].
      split; [congruence|].
      intros N. rewrite map_app. cbn [map]. apply NoDup_app; [exact N | | ].
      * repeat constructor. intros [].
      * intros a Ha [<- | []]. exact (find_none_not_in _ _ F Ha).
  - eexists. split; [reflexivity|]. cbn [wpSites storedWpSites].
    split; [|split; [reflexivity|split; [reflexivity|]]].
    + induction (wpSites p) as [|x l IH]; [reflexivity|].
      cbn [filter]. destruct (String.eqb (site_id x) id) eqn:E; cbn [negb]; [exact IH|].
      cbn [find]. rewrite E. exact IH.
    + intros N. induction (wpSites p) as [|x l IH]; [constructor|].
      cbn [map] in N. inversion N; subst.
      cbn [filter]. destruct (negb (String.eqb (site_id x) id)); [|auto].
      cbn [map]. constructor; [|auto].
      intros Hin. apply H1. apply in_map_iff in Hin. destruct Hin as (y & Hy & Hin).
      apply filter_In in Hin. apply in_map_iff. exists y. tauto.
Qed.

End SiteListFacts.

(** ** The two calls of the WordPress client *)

Module ClientFacts.
Import Js JsFacts Wordpress WordpressExtra.

Lemma orElse_nonempty a b : b <> "" -> orElse a b <> "".
Proof.
  intros Hb. unfold orElse. destruct (String.eqb a "") eqn:E; [exact Hb|].
  apply String.eqb_neq. exact E.
Qed.

Section Client.
Variable btoa : string -> string.
Variable stringify : json -> string.
Variable markdownToHtml : string -> string.

(** X29. What the two calls of the client send and throw.  Every request
    of [createWpPost] is a POST with the JSON text of the post as its
    body and the JSON content type among its headers; every request of
    [fetchWpCategories] is a GET without body.  Both carry the basic
    authorization of the site.  When either call fails, the error it
    throws is an [Error] whose message is not empty: the message of the
    failure, or the fixed message of the call when there is none. *)
Theorem client_requests_and_errors (site : WordpressSite) (params : CreatePostParams) (w : world) :
  let auth := ("Authorization",
               "Basic " ++ encodeBasicAuth btoa (site_username site) (site_appPassword site)) in
  (exists evs,
     trace (snd (createWpPost btoa stringify markdownToHtml site params w))
     = (trace w ++ evs)%list
     /\ Forall (fun ev => exists r,
                  ev = Fetch r /\ req_method r = "POST"
                  /\ req_body r = Text (stringify (postBody markdownToHtml params))
                  /\ In ("Content-Type", "application/json") (req_headers r)
                  /\ In auth (req_headers r)) evs)
  /\ (exists evs,
        trace (snd (fetchWpCategories btoa site w)) = (trace w ++ evs)%list
        /\ Forall (fun ev => exists r,
                     ev = Fetch r /\ req_method r = "GET" /\ req_body r = NoBody
                     /\ In auth (req_headers r)) evs)
  /\ (forall e w', createWpPost btoa stringify markdownToHtml site params w = (Throw e, w') ->
        err_name e = "Error" /\ err_message e <> "")
  /\ (forall e w', fetchWpCategories btoa site w = (Throw e, w') ->
        err_name e = "Error" /\ err_message e <> "").
Proof.
  intros auth. split; [|split; [|split]].
  - assert (E : emits (fun ev => exists r,
                  ev = Fetch r /\ req_method r = "POST"
                  /\ req_body r = Text (stringify (postBody markdownToHtml params))
                  /\ In ("Content-Type", "application/json") (req_headers r)
                  /\ In auth (req_headers r))
                (createWpPost btoa stringify markdownToHtml site params)).
    { unfold createWpPost. apply emits_try; [|intros e; apply emits_throw].
      eapply emits_weaken; [|apply FallbackFacts.fetchWpWithFallback_emits].
      intros ev (url & ->). eexists. split; [reflexivity|].
      split; [reflexivity|]. split; [reflexivity|].
      split; [right; right; right; left; reflexivity | left; reflexivity]. }
    destruct (createWpPost btoa stringify markdownToHtml site params w) as [r w'] eqn:R.
    destruct (E _ _ _ R) as (evs & (T & _) & F). exists evs. split; [exact T | exact F].
  - assert (E : emits (fun ev => exists r,
                  ev = Fetch r /\ req_method r = "GET" /\ req_body r = NoBody
                  /\ In auth (req_headers r))
                (fetchWpCategories btoa site)).
    { unfold fetchWpCategories. apply emits_try; [|intros e; apply emits_throw].
      eapply emits_weaken; [|apply FallbackFacts.fetchWpWithFallback_emits].
      intros ev (url & ->). eexists. split; [reflexivity|].
      split; [reflexivity|]. split; [reflexivity|]. left; reflexivity. }
    destruct (fetchWpCategories btoa site w) as [r w'] eqn:R.
    destruct (E _ _ _ R) as (evs & (T & _) & F). exists evs. split; [exact T | exact F].
  - intros e w'. unfold createWpPost, try.
    destruct (fetchWpWithFallback _ _ _ _ w) as [[j|e0] w1]; [discriminate|].
    unfold throw. intros [= <- _]. split; [reflexivity|].
    apply orElse_nonempty. discriminate.
  - intros e w'. unfold fetchWpCategories, try.
    destruct (fetchWpWithFallback _ _ _ _ w) as [[j|e0] w1]; [discriminate|].
    unfold throw. intros [= <- _]. split; [reflexivity|].
    apply orElse_nonempty. discriminate.
Qed.

End Client.
End ClientFacts.

(** ** The single post screen *)

Module SingleFacts.
Import Js JsFacts Gemini App AppExtra.

Section Single.
Variable promptOf : GuestPostRequest -> string.
Variable titleOf : string -> string -> string.

(** X30. Generating one post from the form.  The call never throws and
    leaves the loading flag off.  It asks the provider whether demo
    mode is on or not: its only interactions are generation requests.
    When the generation returns a text, one article is put at the head
    of the history and becomes the active article: it carries the
    identifier of the request and the text, is marked completed and has
    no document link.  When the generation fails, the history and the
    active article are as they were and the notice is the fixed error
    text, not the message of the provider.  In both cases the queue,
    the progress record and the guard of the batch worker are not
    touched. *)
Theorem single_generation (req : GuestPostRequest) (sh : shell) (w : world) :
  exists sh' w',
    handleGenerate promptOf titleOf req sh w = (Ok tt, sh', w')
    /\ isLoading sh' = false
    /\ (exists evs, trace w' = (trace w ++ evs)%list
                    /\ Forall (fun ev => exists k p, ev = Generate k p) evs)
    /\ queue (component sh') = queue (component sh)
    /\ batchProgress (component sh') = batchProgress (component sh)
    /\ isProcessingBatch (component sh') = isProcessingBatch (component sh)
    /\ running (component sh') = running (component sh)
    /\ match generateGuestPostContent promptOf (sources (component sh)) req w with
       | (Ok content, _) =>
           exists a,
             articles (component sh') = a :: articles (component sh)
             /\ activeArticle sh' = Some a
             /\ requestId a = r_id req /\ a_content a = content
             /\ a_title a = titleOf content (keyword req)
             /\ a_status a = completed /\ driveUrl a = None
             /\ notification (component sh') = Some (success_notice "Artigo gerado com sucesso!")
       | (Throw _, _) =>
           articles (component sh') = articles (component sh)
           /\ activeArticle sh' = activeArticle sh
           /\ notification (component sh')
              = Some (error_notice "Falha ao gerar artigo. Verifique o console.")
       end.
Proof.
  assert (E : emits (fun ev => exists k p, ev = Generate k p)
                (generateGuestPostContent promptOf (sources (component sh)) req)).
  { apply AppFacts.generateGuestPostContent_emits. intros k p. exists k, p. reflexivity. }
  unfold handleGenerate, finallyP, tryP, generateBody.
  cbv beta iota zeta delta [bindP update lift].
  destruct (generateGuestPostContent promptOf (sources (component sh)) req w) as [[content|e] w1] eqn:G;
    destruct (E _ _ _ G) as (evs & (T & _) & F).
  - cbv beta iota zeta delta [generateId newDate].
    eexists; eexists. split; [reflexivity|]. split; [reflexivity|]. split.
    { exists evs. split; [exact T | exact F]. }
    cbn. repeat split. eexists. repeat split.
  - eexists; eexists. split; [reflexivity|]. split; [reflexivity|]. split.
    { exists evs. split; [exact T | exact F]. }
    cbn. repeat split.
Qed.

End Single.
End SingleFacts.

(** ** The further properties at concrete inputs *)

Module MoreChecks.
Import Js Wordpress WordpressExtra Examples MoreExamples.


(** C7 at a draft with an image, on a site that refuses the upload with
    a 401: the call ends after that one request, and the draft is in
    [error] with the message of the upload. *)
Lemma handlePublish_outcomes_witness :
  let w := scripted [] (Answered 401 (Parsed JNull)) in
  find (fun x => String.eqb (Bulk.d_id x) "d1") (Bulk.drafts exampleBulk) = Some exampleDraft
  /\ Bulk.matchedSiteId exampleDraft <> ""
  /\ find (fun s => String.eqb (site_id s) (Bulk.matchedSiteId exampleDraft))
          (Bulk.sites exampleBulk) = Some exampleSite
  /\ exists st' w',
       Bulk.handlePublish sameText "Invalid character" plain sameText sameNumber
         "d1" exampleBulk w = (Ok tt, st', w')
       /\ List.length (trace w') = 1
       /\ option_map Bulk.errorMsg
            (find (fun x => String.eqb (Bulk.d_id x) "d1") (Bulk.drafts st'))
          = Some (Some "Erro de Autenticação ao enviar imagem.").
Proof.
  intros w.
  split; [reflexivity|]. split; [discriminate|]. split; [reflexivity|].
  destruct (PublishOrderFacts.handlePublish_outcomes sameText "Invalid character" plain
              sameText sameNumber "d1" exampleBulk w exampleDraft exampleSite
              eq_refl ltac:(discriminate) eq_refl)
    as (st' & w' & E & Img & _).
  exists st', w'. split; [exact E|].
  destruct (Img exampleFile eq_refl) as (k & _ & _ & _ & M).
  remember (find (fun x => String.eqb (Bulk.d_id x) "d1") (Bulk.drafts st')) as fd.
  vm_compute in M. destruct M as (-> & ->).
  split; reflexivity.
Defined.

(** the third strategy answers after a 404 and a network error *)
Lemma first_success_wins_witness :
  let w := scripted [Answered 404 (Parsed JNull); Rejected (TypeError "Failed to fetch")]
                    (Answered 200 (Parsed (JNum 1))) in
  1 <= 3 <= 4
  /\ ok 200 = true
  /\ exists w',
       fetchWpWithFallback sameText exampleSite "/posts" exampleOptions w = (Ok (JNum 1), w')
       /\ List.length (trace w') = 3.
Proof.
  intros w. split; [lia|]. split; [reflexivity|].
  destruct (StrategyFacts.first_success_wins sameText exampleSite "/posts" exampleOptions
              3 w 200 (JNum 1) ltac:(lia)) as (w' & E & T).
  - intros i Hi. destruct i as [|[|[|i]]]; try lia; reflexivity.
  - reflexivity.
  - reflexivity.
  - exists w'. split; [exact E|]. rewrite T. reflexivity.
Defined.


(** the direct route answers 500, the fallback route stores the image *)
Lemma upload_first_success_witness :
  let w := scripted [Answered 500 (Parsed JNull)] (created 7) in
  1 <= 2 <= 4
  /\ ok 200 = true
  /\ exists w',
       uploadWpMedia sameText exampleSite exampleFile w = (Ok (Some (JNum 7)), w')
       /\ List.length (trace w') = 2.
Proof.
  intros w. split; [lia|]. split; [reflexivity|].
  destruct (UploadOrderFacts.upload_first_success sameText exampleSite exampleFile
              2 w 200 [("id", JNum 7)] ltac:(lia)) as (w' & E & T).
  - intros i Hi. destruct i as [|[|i]]; try lia.
    exists (Error "Status 500"). split; [reflexivity | discriminate].
  - reflexivity.
  - reflexivity.
  - exists w'. split; [exact E|]. rewrite T. reflexivity.
Defined.

(** the sheet C, D imported while the job A is in flight: D is the only
    new job that is started *)
Lemma import_in_flight_loses_first_job_witness :
  let after := fun k =>
    fst (App.run plain plain keywordPrompt contentOnly keywordTitle
           (App.SheetImport "sheet-2" secondRows "tok" :: repeat App.Settle k) busy) in
  App.isProcessingBatch (fst busy) = true
  /\ App.running (fst busy) = [busyTask]
  /\ App.mode (fst busy) <> App.BULK_PUBLISH
  /\ App.newQueueOf (fst busy) "sheet-2" secondRows (snd busy)
     = (Ok (hd noItem secondJobs :: tl secondJobs), worldAfterSecondImport)
  /\ App.queue (after (S (List.length (tl secondJobs)))) = []
  /\ App.started (after (S (List.length (tl secondJobs))))
     = (App.started (fst busy) ++ tl secondJobs)%list
  /\ App.processed (App.batchProgress (after (S (List.length (tl secondJobs)))))
     = S (List.length (tl secondJobs)).
Proof.
  intros after.
  split; [reflexivity|]. split; [reflexivity|]. split; [discriminate|].
  split; [reflexivity|].
  destruct (WorkerFacts.import_in_flight_loses_first_job plain plain keywordPrompt contentOnly
              keywordTitle (fst busy) (snd busy) busyTask "sheet-2" secondRows "tok"
              (hd noItem secondJobs) (tl secondJobs) worldAfterSecondImport
              eq_refl eq_refl ltac:(discriminate) eq_refl)
    as (_ & _ & _ & (Q & _ & S & _ & P & _)).
  split; [exact Q|]. split; [exact S | exact P].
Defined.

(** the panel after the first of the two jobs: no close button *)
Lemma panel_closes_only_when_complete_witness :
  let st := App.initial exampleSources in
  let c := App.run plain plain keywordPrompt contentOnly keywordTitle
             (App.SheetImport "sheet" exampleRows "tok" :: repeat App.Settle 1)
             (st, exampleWorld) in
  App.isProcessingBatch st = false /\ App.running st = []
  /\ App.mode st <> App.BULK_PUBLISH
  /\ App.newQueueOf st "sheet" exampleRows exampleWorld
     = (Ok exampleJobs, exampleWorldAfterImport)
  /\ exampleJobs <> []
  /\ 1 <= List.length exampleJobs
  /\ App.closeButtonShown (fst c) = Nat.eqb 1 (List.length exampleJobs)
  /\ (1 < List.length exampleJobs ->
      App.step plain plain keywordPrompt contentOnly keywordTitle c App.ClosePanel = c).
Proof.
  intros st c.
  split; [reflexivity|]. split; [reflexivity|]. split; [discriminate|].
  split; [reflexivity|]. split; [discriminate|]. split; [simpl; lia|].
  exact (WorkerFacts.panel_closes_only_when_complete plain plain keywordPrompt contentOnly
           keywordTitle st exampleWorld "sheet" exampleRows "tok" exampleJobs
           exampleWorldAfterImport 1
           eq_refl eq_refl ltac:(discriminate) eq_refl ltac:(discriminate) ltac:(simpl; lia)).
Defined.

(** the job A settles *)
Lemma settle_history_witness :
  App.running (fst busy) = [busyTask]
  /\ match fst (fst (App.tryBlock plain plain keywordPrompt contentOnly keywordTitle
                       busyTask (fst busy) (snd busy))) with
     | Ok _ =>
         exists a,
           App.articles (fst (App.handle plain plain keywordPrompt contentOnly keywordTitle
                                App.Settle (fst busy, snd busy)))
           = a :: App.articles (fst busy)
           /\ App.requestId a = Gemini.r_id (App.request (App.t_item busyTask))
           /\ App.a_status a = App.completed
     | Throw e =>
         App.articles (fst (App.handle plain plain keywordPrompt contentOnly keywordTitle
                              App.Settle (fst busy, snd busy)))
         = App.articles (fst busy)
         /\ In (App.errorLine busyTask e)
               (App.logs (App.batchProgress
                  (fst (App.handle plain plain keywordPrompt contentOnly keywordTitle
                          App.Settle (fst busy, snd busy)))))
     end.
Proof.
  split; [reflexivity|].
  exact (WorkerFacts.settle_history plain plain keywordPrompt contentOnly keywordTitle
           (fst busy) (snd busy) busyTask [] eq_refl).
Defined.

(** an import in demo mode, whatever the rows *)
Lemma demo_mode_uses_no_service_witness :
  App.isDemoMode demoState = true
  /\ App.isProcessingBatch demoState = false /\ App.running demoState = []
  /\ App.mode demoState <> App.BULK_PUBLISH
  /\ exists jobs w1,
       App.newQueueOf demoState "sheet" exampleRows exampleWorld = (Ok jobs, w1)
       /\ List.length jobs = 3.
Proof.
  split; [reflexivity|]. split; [reflexivity|]. split; [reflexivity|]. split; [discriminate|].
  destruct (WorkerFacts.demo_mode_uses_no_service plain plain keywordPrompt contentOnly
              keywordTitle demoState exampleWorld "sheet" exampleRows "tok"
              eq_refl eq_refl eq_refl ltac:(discriminate))
    as (jobs & w1 & E & M & _).
  exists jobs, w1. split; [exact E|].
  rewrite <- (length_map (fun i => (App.rowIndex i, Gemini.keyword (App.request i)))), M.
  reflexivity.
Defined.

(** the jobs of the sheet A, B *)
Lemma jobs_follow_the_rows_witness :
  App.buildQueue "sheet" exampleRows 0 exampleWorld = (Ok exampleJobs, exampleWorldAfterImport)
  /\ map (fun i => (App.rowIndex i, Gemini.keyword (App.request i))) exampleJobs
     = [(0, "A"); (1, "B")].
Proof.
  split; [reflexivity|].
  destruct (WorkerFacts.jobs_follow_the_rows "sheet" exampleRows exampleWorld exampleJobs
              exampleWorldAfterImport eq_refl) as (M & _).
  rewrite M. reflexivity.
Defined.

(** the panel during and after the batch of the sheet A, B *)
Lemma panel_reports_completion_witness :
  let st := App.initial exampleSources in
  let after := fun k =>
    fst (App.run plain plain keywordPrompt contentOnly keywordTitle
           (App.SheetImport "sheet" exampleRows "tok" :: repeat App.Settle k)
           (st, exampleWorld)) in
  App.isProcessingBatch st = false /\ App.running st = []
  /\ App.mode st <> App.BULK_PUBLISH
  /\ App.newQueueOf st "sheet" exampleRows exampleWorld
     = (Ok exampleJobs, exampleWorldAfterImport)
  /\ exampleJobs <> []
  /\ AppExtra.isComplete (App.batchProgress (after 1)) = false
  /\ AppExtra.isComplete (App.batchProgress (after 2)) = true.
Proof.
  intros st after.
  split; [reflexivity|]. split; [reflexivity|]. split; [discriminate|].
  split; [reflexivity|]. split; [discriminate|].
  destruct (WorkerFacts.panel_reports_completion plain plain keywordPrompt contentOnly
              keywordTitle st exampleWorld "sheet" exampleRows "tok" exampleJobs
              exampleWorldAfterImport
              eq_refl eq_refl ltac:(discriminate) eq_refl ltac:(discriminate))
    as (H & _).
  split.
  - destruct (H 1 ltac:(simpl; lia)) as (_ & C). exact C.
  - destruct (H 2 ltac:(simpl; lia)) as (_ & C). exact C.
Defined.

(** a site saved with [http://] and a row that has [https://] and a
    final slash *)
Lemma sites_match_up_to_scheme_and_slash_witness :
  JsString.endsWithSlash "example.com" = false
  /\ site_url savedSite = "http://" ++ "example.com" ++ ""
  /\ BulkExtra.matchSite [savedSite; exampleSite] "https://example.com/" = Some savedSite.
Proof.
  split; [reflexivity|]. split; [reflexivity|].
  destruct (DraftFacts.sites_match_up_to_scheme_and_slash
              "example.com" "http://" "" "https://" "/" savedSite [exampleSite]
              eq_refl (or_introl eq_refl) (or_introl eq_refl)
              (or_intror (or_introl eq_refl)) (or_intror (or_introl eq_refl)) eq_refl)
    as (_ & M).
  exact M.
Defined.

(** the URL of the comment in [services/sheets.ts] *)
Lemma extractSheetId_of_document_url_witness :
  JsString.includes "/d/" ("https://docs.google.com/spreadsheets" ++ "/d") = false
  /\ SheetsExtra.extractSheetId
       "https://docs.google.com/spreadsheets/d/1BxiMVs0XRA5nFMdKvBdBZjGMUUqptlbs74OgvE2upms/edit"
     = Some "1BxiMVs0XRA5nFMdKvBdBZjGMUUqptlbs74OgvE2upms".
Proof.
  split; [reflexivity|].
  exact (SheetFacts.extractSheetId_of_document_url
           "https://docs.google.com/spreadsheets"
           "1BxiMVs0XRA5nFMdKvBdBZjGMUUqptlbs74OgvE2upms" "/edit"
           eq_refl ltac:(discriminate) eq_refl eq_refl).
Defined.

End MoreChecks.
